(** * goodfido: a shallow embedding of server.js

    The authoritative game server of goodfido (server.js) is embedded as
    pure functions over an explicit server state.  JavaScript values that
    the server reads from messages and files without checking their type
    are kept dynamically typed ([value]); numbers are the integers.

    Layout: the embedding of the source first, the theorems after it, and
    last the theorems applied to the sample world. *)

From Stdlib Require Import ZArith List String Ascii Bool Lia Arith.
From Stdlib Require Import QArith Qround DecimalString.
From Stdlib Require DecimalPos.
Import ListNotations.
Open Scope Z_scope.
Set Warnings "-register-all".

(* ================================================================== *)
(** * Part I: the embedding                                            *)
(* ================================================================== *)

(** ** JavaScript values *)

(** A JSON document as JSON.parse returns it, plus [VUndef] for what a
    missing property reads as.  Numbers are restricted to the integers. *)
Inductive value : Type :=
| VUndef
| VNull
| VBool (b : bool)
| VNum (n : Z)
| VStr (s : string)
| VArr (a : list value)
| VObj (o : list (string * value)).

(** Outcome of a JavaScript computation: it returns, it throws, or (for
    loops run with a step budget) the budget is exhausted. *)
Inductive outcome (A : Type) : Type :=
| Returns (a : A)
| Throws
| OutOfFuel.
Arguments Returns {A} a.
Arguments Throws {A}.
Arguments OutOfFuel {A}.

(** JavaScript truthiness. *)
Definition truthy (v : value) : bool :=
  match v with
  | VUndef | VNull => false
  | VBool b => b
  | VNum n => negb (n =? 0)
  | VStr s => negb (String.eqb s EmptyString)
  | VArr _ | VObj _ => true
  end.

(** [o.k] on a parsed object, [VUndef] when the key is missing. *)
Fixpoint lookup_field (k : string) (o : list (string * value)) : value :=
  match o with
  | [] => VUndef
  | (k', v) :: o' => if String.eqb k k' then v else lookup_field k o'
  end.

(** [Number.prototype.toString] on an integer: its decimal digits, which
    is what JavaScript prints for every integer below 1e21 in size. *)
Definition Z_to_string (n : Z) : string := NilZero.string_of_int (Z.to_int n).

(** ** Rooms and tiles *)

(** A tile of a room file: [{terrain, tileExits?, ...}].  A property that
    is absent reads [VUndef]; the properties the server never touches
    (layers, properties) are carried along in [tileOther]. *)
Record Tile : Type := mkTile {
  terrain : value;
  tileExits : value;
  tileOther : list (string * value)
}.

(** ** Pathfinder (findPath) *)

Definition coord : Type := (Z * Z)%type.

Definition coord_eqb (a b : coord) : bool :=
  (fst a =? fst b) && (snd a =? snd b).

(** [visited] is a Set of the keys `${x},${y}`; the key of an integer pair
    determines the pair, so the set is kept as the list of pairs added. *)
Definition visited_has (visited : list coord) (c : coord) : bool :=
  existsb (coord_eqb c) visited.

(** const dirs = [[1,0],[-1,0],[0,1],[0,-1]] *)
Definition dirs : list (Z * Z) := [(1, 0); (-1, 0); (0, 1); (0, -1)].

(** [tiles[ny][nx]] for indices already known to be non-negative. *)
Definition tile_at (tiles : list (list Tile)) (x y : Z) : option Tile :=
  match nth_error tiles (Z.to_nat y) with
  | Some row => nth_error row (Z.to_nat x)
  | None => None
  end.

Definition is_void (t : Tile) : bool :=
  match terrain t with
  | VStr s => String.eqb s "void"
  | _ => false
  end.

(** The [for (const [dx, dy] of dirs)] loop of one BFS iteration: [path]
    was dequeued and ends at [(x, y)].  Reading [tile.terrain] of a cell
    inside [rows] x [cols] that the grid lacks throws a TypeError. *)
Fixpoint expand (tiles : list (list Tile)) (rows cols : Z)
    (path : list coord) (x y : Z) (ds : list (Z * Z))
    (visited : list coord) (queue : list (list coord))
    : outcome (list coord * list (list coord)) :=
  match ds with
  | [] => Returns (visited, queue)
  | (dx, dy) :: ds' =>
      let nx := x + dx in
      let ny := y + dy in
      if (nx <? 0) || (ny <? 0) || (nx >=? cols) || (ny >=? rows)
      then expand tiles rows cols path x y ds' visited queue
      else if visited_has visited (nx, ny)
      then expand tiles rows cols path x y ds' visited queue
      else match tile_at tiles nx ny with
           | None => Throws
           | Some tile =>
               if is_void tile
               then expand tiles rows cols path x y ds' visited queue
               else expand tiles rows cols path x y ds'
                      ((nx, ny) :: visited) (queue ++ [path ++ [(nx, ny)]])
           end
  end.

(** [path[path.length - 1]] *)
Definition path_end (path : list coord) : option coord :=
  match rev path with
  | [] => None
  | c :: _ => Some c
  end.

(** The [while (queue.length)] loop, run for at most [fuel] iterations. *)
Fixpoint bfs_loop (fuel : nat) (tiles : list (list Tile)) (rows cols : Z)
    (goal : coord) (visited : list coord) (queue : list (list coord))
    : outcome (option (list coord)) :=
  match fuel with
  | O => OutOfFuel
  | S fuel' =>
      match queue with
      | [] => Returns None
      | path :: rest =>
          match path_end path with
          | None => Throws
          | Some (x, y) =>
              if (x =? fst goal) && (y =? snd goal)
              then Returns (Some path)
              else match expand tiles rows cols path x y dirs visited rest with
                   | Returns (visited', queue') =>
                       bfs_loop fuel' tiles rows cols goal visited' queue'
                   | Throws => Throws
                   | OutOfFuel => OutOfFuel
                   end
          end
      end
  end.

(** findPath(start, end, tiles, tileExits); [tileExits] is ignored by the
    source.  [tiles[0].length] throws on an empty grid.  The loop gets
    rows * cols + 2 iterations, which [findPath_total] shows is never
    exhausted. *)
Definition findPath (start goal : coord) (tiles : list (list Tile))
    : outcome (option (list coord)) :=
  match tiles with
  | [] => Throws
  | row0 :: _ =>
      let rows := Z.of_nat (List.length tiles) in
      let cols := Z.of_nat (List.length row0) in
      bfs_loop (S (S (List.length tiles * List.length row0))) tiles rows cols goal
               [start] [[start]]
  end.

(** ** Vocabulary of the pathfinder's specification *)

(** 0 <= x < cols and 0 <= y < rows. *)
Definition in_grid (rows cols : Z) (c : coord) : bool :=
  (0 <=? fst c) && (fst c <? cols) && (0 <=? snd c) && (snd c <? rows).

(** A tile can be entered iff it lies in the grid and its terrain is not
    "void". *)
Definition traversable (tiles : list (list Tile)) (rows cols : Z)
    (c : coord) : bool :=
  in_grid rows cols c &&
  match tile_at tiles (fst c) (snd c) with
  | Some t => negb (is_void t)
  | None => false
  end.

(** The four neighbours of a tile, in the order of [dirs]. *)
Definition neighbours (c : coord) : list coord :=
  map (fun d => (fst c + fst d, snd c + snd d)) dirs.

(** One edge of the 4-connected grid: from [c] into a traversable
    neighbour [n]. *)
Definition can_step (tiles : list (list Tile)) (rows cols : Z)
    (c n : coord) : bool :=
  existsb (coord_eqb n) (neighbours c) && traversable tiles rows cols n.

(** [walk tiles rows cols s p e]: [p] lists the tiles of a route from [s]
    to [e], both included, every move entering a traversable neighbour.
    A route of [length p] tiles has [length p - 1] edges. *)
Inductive walk (tiles : list (list Tile)) (rows cols : Z) (s : coord)
    : list coord -> coord -> Prop :=
| walk_start : walk tiles rows cols s [s] s
| walk_step : forall p c n,
    walk tiles rows cols s p c ->
    can_step tiles rows cols c n = true ->
    walk tiles rows cols s (p ++ [n]) n.

Definition manhattan (a b : coord) : Z :=
  Z.abs (fst a - fst b) + Z.abs (snd a - snd b).

(** The grid is a non-empty list of rows of one length. *)
Definition rectangular (tiles : list (list Tile)) : Prop :=
  tiles <> [] /\
  forall row, In row tiles -> List.length row = List.length (hd [] tiles).

Definition no_void (tiles : list (list Tile)) : Prop :=
  forall row t, In row tiles -> In t row -> is_void t = false.

Definition grid_rows (tiles : list (list Tile)) : Z :=
  Z.of_nat (List.length tiles).

Definition grid_cols (tiles : list (list Tile)) : Z :=
  Z.of_nat (List.length (hd [] tiles)).

(** All cells of an [R] x [C] grid, and how many of them are not yet in
    [visited]: the termination measure of the search. *)
Definition cells (R C : nat) : list coord :=
  flat_map (fun y => map (fun x => (Z.of_nat x, Z.of_nat y)) (seq 0 C))
           (seq 0 R).

Definition unvisited (R C : nat) (visited : list coord) : nat :=
  List.length (filter (fun c => negb (visited_has visited c)) (cells R C)).

(** A tile is closed when all its traversable neighbours were visited. *)
Definition closed (tiles : list (list Tile)) (rows cols : Z)
    (visited : list coord) (v : coord) : Prop :=
  forall n, can_step tiles rows cols v n = true -> In n visited.

(** The loop invariant of the search; [L] is the number of tiles of the
    routes at the head of the queue. *)
Record bfs_inv (tiles : list (list Tile)) (rows cols : Z) (s g : coord)
    (L : nat) (visited : list coord) (queue : list (list coord)) : Prop := {
  inv_start : In s visited;
  inv_walks : forall p, In p queue ->
    exists e, walk tiles rows cols s p e /\ In e visited;
  inv_short : forall p e w, In p queue ->
    walk tiles rows cols s p e -> walk tiles rows cols s w e ->
    (List.length p <= List.length w)%nat;
  inv_layers : exists A B, queue = A ++ B /\
    (forall p, In p A -> List.length p = L) /\
    (forall p, In p B -> List.length p = S L) /\
    (queue <> [] -> A <> []);
  inv_visited : forall v, In v visited ->
    closed tiles rows cols visited v \/
    exists p, In p queue /\ walk tiles rows cols s p v;
  inv_level : forall w e, walk tiles rows cols s w e ->
    (List.length w < L)%nat -> closed tiles rows cols visited e;
  inv_goal : In g visited ->
    exists p, In p queue /\ walk tiles rows cols s p g
}.

(** What the search must deliver: a route to the goal that no other route
    undercuts, or the answer that there is none. *)
Definition search_post (tiles : list (list Tile)) (rows cols : Z)
    (s g : coord) (r : option (list coord)) : Prop :=
  match r with
  | Some p =>
      walk tiles rows cols s p g /\
      forall w, walk tiles rows cols s w g ->
                (List.length p <= List.length w)%nat
  | None => forall w, ~ walk tiles rows cols s w g
  end.

(** ** More of the JavaScript value semantics the server relies on *)

(** [a === b].  Objects and arrays compare by identity; every use in the
    server compares a value parsed from one message or file with a value
    that came from another, so two of them are never the same object. *)
Definition strict_eq (a b : value) : bool :=
  match a, b with
  | VUndef, VUndef => true
  | VNull, VNull => true
  | VBool x, VBool y => Bool.eqb x y
  | VNum x, VNum y => x =? y
  | VStr x, VStr y => String.eqb x y
  | _, _ => false
  end.

(** ToString of a value ([String(v)], template literals, property keys);
    arrays join their elements with commas, null and undefined elements
    contributing the empty string. *)
Fixpoint js_string (v : value) : string :=
  match v with
  | VUndef => "undefined"
  | VNull => "null"
  | VBool true => "true"
  | VBool false => "false"
  | VNum n => Z_to_string n
  | VStr s => s
  | VArr a =>
      (fix join (l : list value) : string :=
         match l with
         | [] => ""
         | [x] => match x with VUndef | VNull => "" | _ => js_string x end
         | x :: l' =>
             (match x with VUndef | VNull => "" | _ => js_string x end)
             ++ "," ++ join l'
         end) a
  | VObj _ => "[object Object]"
  end%string.

(** [v.toString()]: a TypeError on undefined and null. *)
Definition toString (v : value) : outcome string :=
  match v with
  | VUndef | VNull => Throws
  | _ => Returns (js_string v)
  end.

(** [Number.isInteger(v)] with the integer it is. *)
Definition as_integer (v : value) : option Z :=
  match v with
  | VNum n => Some n
  | _ => None
  end.

Definition is_digit (c : ascii) : bool :=
  let n := nat_of_ascii c in (48 <=? n)%nat && (n <=? 57)%nat.

Definition digit_value (c : ascii) : Z := Z.of_nat (nat_of_ascii c) - 48.

(** White space that parseInt skips.  Strings are the UTF-8 bytes of the
    text, so the one-byte white space (space, tab, LF, VT, FF, CR) comes
    with the two- and three-byte encodings of the others that
    StrWhiteSpaceChar lists: U+00A0; U+1680, U+2000 to U+200A, U+2028,
    U+2029, U+202F, U+205F, U+3000 and U+FEFF. *)
Definition is_space (c : ascii) : bool :=
  let n := nat_of_ascii c in
  (n =? 32)%nat || ((9 <=? n)%nat && (n <=? 13)%nat).

Definition is_space2 (c1 c2 : ascii) : bool :=
  (nat_of_ascii c1 =? 194)%nat && (nat_of_ascii c2 =? 160)%nat.

Definition is_space3 (c1 c2 c3 : ascii) : bool :=
  let n1 := nat_of_ascii c1 in
  let n2 := nat_of_ascii c2 in
  let n3 := nat_of_ascii c3 in
  ((n1 =? 225) && (n2 =? 154) && (n3 =? 128))%nat
  || ((n1 =? 226) && (n2 =? 128)
      && (((128 <=? n3) && (n3 <=? 138))
          || (n3 =? 168) || (n3 =? 169) || (n3 =? 175)))%nat
  || ((n1 =? 226) && (n2 =? 129) && (n3 =? 159))%nat
  || ((n1 =? 227) && (n2 =? 128) && (n3 =? 128))%nat
  || ((n1 =? 239) && (n2 =? 187) && (n3 =? 191))%nat.

Fixpoint skip_spaces (s : string) : string :=
  match s with
  | String c1 s1 =>
      if is_space c1 then skip_spaces s1
      else
        match s1 with
        | String c2 s2 =>
            if is_space2 c1 c2 then skip_spaces s2
            else
              match s2 with
              | String c3 s3 =>
                  if is_space3 c1 c2 c3 then skip_spaces s3 else s
              | EmptyString => s
              end
        | EmptyString => s
        end
  | EmptyString => s
  end.

(** The leading decimal digits of [s], read as a number; [None] if [s]
    does not start with a digit. *)
Fixpoint read_digits (acc : option Z) (s : string) : option Z :=
  match s with
  | String c s' =>
      if is_digit c
      then read_digits
             (Some (10 * match acc with Some a => a | None => 0 end
                    + digit_value c)) s'
      else acc
  | EmptyString => acc
  end.

(** Number.MAX_SAFE_INTEGER, 2^53 - 1: up to it every integer is a double
    and toString prints its decimal digits. *)
Definition MAX_SAFE_INTEGER : Z := 9007199254740991.

(** [parseInt(v, 10)]; [None] is NaN.  The digits are read exactly; the
    double that JavaScript returns is this integer wherever it is at most
    [MAX_SAFE_INTEGER] in size, and the one caller, validateRoomId, goes
    by that bound. *)
Definition parseInt (v : value) : option Z :=
  match skip_spaces (js_string v) with
  | String "-" s' => option_map Z.opp (read_digits None s')
  | String "+" s' => read_digits None s'
  | s => read_digits None s
  end.

(** [s.includes(c)] for a one-character needle. *)
Fixpoint includes (s : string) (c : ascii) : bool :=
  match s with
  | String c' s' => Ascii.eqb c c' || includes s' c
  | EmptyString => false
  end.

(** [/^[a-zA-Z0-9_-]+$/.test(s)] *)
Definition terrain_char (c : ascii) : bool :=
  let n := nat_of_ascii c in
  ((97 <=? n)%nat && (n <=? 122)%nat)
  || ((65 <=? n)%nat && (n <=? 90)%nat)
  || is_digit c || (n =? 95)%nat || (n =? 45)%nat.

Fixpoint all_chars (f : ascii -> bool) (s : string) : bool :=
  match s with
  | String c s' => f c && all_chars f s'
  | EmptyString => true
  end.

Definition terrain_regex (s : string) : bool :=
  negb (String.eqb s EmptyString) && all_chars terrain_char s.

(** ** The server state *)

(** A room file, [{id, width, height, tiles, exits, spawns?, npcs?}]; the
    attributes the message handlers leave alone are kept in
    [roomOther]. *)
Record Room : Type := mkRoom {
  width : Z;
  height : Z;
  tiles : list (list Tile);
  roomOther : list (string * value)
}.

(** let gameTime = { tick: 0, hour: 0, day: 0 } *)
Record GameTime : Type := mkTime {
  tick : Z;
  hour : Z;
  day : Z
}.

(** An entry of [objectInstances].  [pickedUpBy], [removedAt] and
    [respawnAfterSec] are null ([None]) or set; the position fields take
    whatever a drop message carried. *)
Module Obj.
Record t : Type := mk {
  instanceId : string;
  typeId : value;
  zone : string;
  roomId : value;
  x : value;
  y : value;
  pickedUpBy : option string;
  removedAt : option Z;
  respawnAfterSec : option Z
}.
End Obj.

(** The behavior modules of the repository (assets/npcs/behaviors and the
    dog's module): what a template's [behaviorModule] can resolve to. *)
Inductive BehaviorModule : Type :=
| Gregory
| Fido
| TemplateBehavior.

(** roam: { type, frequency, minDuration, maxDuration, rate } *)
Record Roam : Type := mkRoam {
  roamType : string;
  frequency : Z;
  minDuration : Z;
  maxDuration : Z;
  rate : Z
}.

(** An entry of [npcInstances]; [movePath] is null ([None]) or a list of
    waypoints. *)
Module Npc.
Record t : Type := mk {
  instanceId : string;
  typeId : value;
  name : value;
  sprite : value;
  zone : string;
  roomId : Z;
  x : Z;
  y : Z;
  roam : option Roam;
  lastRoamTick : Z;
  movePath : option (list coord);
  moveStartTick : Z;
  moveDuration : Z;
  behavior : option BehaviorModule
}.
End Npc.

(** An NPC as npcs-state.json or the regeneration from the room files
    yields it, before the movement fields are ensured: a field that the
    object lacks is [None]. *)
Module RawNpc.
Record t : Type := mk {
  instanceId : string;
  typeId : value;
  name : value;
  sprite : value;
  zone : string;
  roomId : Z;
  x : Z;
  y : Z;
  roam : option Roam;
  lastRoamTick : Z;
  movePath : option (option (list coord));
  moveStartTick : option Z;
  moveDuration : option Z
}.
End RawNpc.

(** An NPC template of npcs.json with its loaded behavior module. *)
Record NpcTemplate : Type := mkTemplate {
  tmplId : value;
  tmplName : value;
  tmplSprite : value;
  tmplRoam : option Roam;
  tmplBehavior : option BehaviorModule
}.

(** A value of the [positions] map. *)
Module Player.
Record t : Type := mk {
  name : string;
  x : value;
  y : value;
  roomId : value;
  privilege : Z;
  color : string;
  inventory : list value;
  salt : value;
  hash : value;
  zone : string
}.
End Player.

(** [initialPos] of the first-message handler. *)
Module InitialPos.
Record t : Type := mk {
  name : string;
  x : Z;
  y : Z;
  roomId : Z;
  color : string;
  privilege : Z;
  inventory : list value;
  salt : value;
  hash : value
}.
End InitialPos.

(** A pending completion timer of an NPC walk: the setTimeout closure
    keeps the NPC (its slot in [npcInstances]) and the last waypoint. *)
Record NpcTimer : Type := mkTimer {
  timerId : nat;
  timerNpc : nat;
  timerTarget : coord;
  timerDelay : Z
}.

(** A player file as far as reading it goes. *)
Inductive PlayerFile : Type :=
| Parsed (data : list (string * value))
| Unreadable.

(** The files the server reads and writes, as the documents they hold.
    [writable = false] makes every write fail.  [playerFiles] is keyed by
    the name from which the path players/[name].json is built; a name
    with a path separator makes that a path out of the players directory,
    to a file that the other fields do not show. *)
Record Disk : Type := mkDisk {
  roomFiles : list ((string * Z) * Room);
  playerFiles : list (string * PlayerFile);
  objectsStateFile : option (list Obj.t);
  npcStateFile : option (list Npc.t);
  stateFile : option GameTime;
  writable : bool
}.

(** A zone of world.json, an object with the [path] of its directory (as
    scripts/migrate-world.js writes it). *)
Record ZoneDef : Type := mkZone {
  zonePath : string
}.

(** All mutable state of the process.  [clients] maps a connection id to
    its socket, of which only [readyState === OPEN] matters; [listeners]
    are the sockets that have the 'message' and 'close' handlers of an
    authenticated connection attached, each with the [id] and [name] its
    handlers closed over. *)
Record State : Type := mkState {
  clientId : nat;
  clients : list (nat * bool);
  positions : list (nat * Player.t);
  nameMap : list (nat * string);
  listeners : list (nat * string);
  gameTime : GameTime;
  objectInstances : list Obj.t;
  npcInstances : list Npc.t;
  npcTimers : list (string * NpcTimer);
  nextTimerId : nat;
  disk : Disk
}.

(** ** Messages to clients *)

Inductive DayGlyph : Type := Moon | Sun.

Inductive Season : Type := Winter | Spring | Summer | Fall.

(** The payload of getFormattedTimeMessage: [hour] is the glyph and the
    twelve-hour number of the display string (absent outside 0..23)
    followed by AM or PM. *)
Record TimeMessage : Type := mkTimeMessage {
  hourGlyph : option (DayGlyph * Z);
  hourPM : bool;
  msgDay : Z;
  msgYear : Z;
  msgSeason : Season
}.

Record MenuOption : Type := mkOption {
  optLabel : string;
  optAction : string;
  optVisible : option bool
}.

Inductive ServerMsg : Type :=
| MError (message : string)
| MInit (id : nat) (players : list (nat * Player.t)) (x y : Z)
        (roomId privilege : Z)
| MTimeUpdate (t : TimeMessage)
| MInitObjects (objects : list Obj.t)
| MInitInventory (inventory : list Obj.t)
| MInitNpcs (npcs : list Npc.t)
| MJoin (id : nat) (pos : InitialPos.t)
| MUpdate (id : nat) (x y roomId : value) (name : string) (privilege : Z)
| MLeave (id : nat)
| MObjectPicked (instance : Obj.t) (playerId : nat)
| MObjectDropped (instance : Obj.t)
| MObjectSpawned (instance : Obj.t)
| MNpcStartPath (instanceId : string) (path : list coord)
                (segmentDuration : Z)
| MNpcMove (npc : Npc.t)
| MContextMenu (instanceId targetType : value) (options : list MenuOption)
| MRoomUpdated (roomId : Z) (patch : value)
| MRoomResized (roomId width height : Z)
| MEmote (instanceId : string) (text : string)
| MPlayAudio (key : string)
| MNotification (text : string).

(** What a handler does to the outside: [ws.send] and [ws.close] on the
    socket of a connection id, and [ws.close] on a socket that was given
    no connection id. *)
Inductive Effect : Type :=
| Send (to : nat) (msg : ServerMsg)
| Close (conn : nat)
| CloseUnregistered.

(** ** Maps, broadcasts and persistence helpers *)

(** A JavaScript Map as the list of its entries in insertion order. *)
Fixpoint map_get {K V : Type} (eqb : K -> K -> bool) (k : K)
    (m : list (K * V)) : option V :=
  match m with
  | [] => None
  | (k', v) :: m' => if eqb k k' then Some v else map_get eqb k m'
  end.

(** [m.set(k, v)]: an existing key keeps its place. *)
Fixpoint map_set {K V : Type} (eqb : K -> K -> bool) (k : K) (v : V)
    (m : list (K * V)) : list (K * V) :=
  match m with
  | [] => [(k, v)]
  | (k', v') :: m' =>
      if eqb k k' then (k, v) :: m' else (k', v') :: map_set eqb k v m'
  end.

(** [m.delete(k)] *)
Fixpoint map_delete {K V : Type} (eqb : K -> K -> bool) (k : K)
    (m : list (K * V)) : list (K * V) :=
  match m with
  | [] => []
  | (k', v') :: m' =>
      if eqb k k' then map_delete eqb k m' else (k', v') :: map_delete eqb k m'
  end.

(** Mutating the object that [Array.prototype.find] returns: the first
    element satisfying [p] is replaced by its image. *)
Fixpoint update_first {A : Type} (p : A -> bool) (f : A -> A)
    (l : list A) : list A :=
  match l with
  | [] => []
  | a :: l' => if p a then f a :: l' else a :: update_first p f l'
  end.

(** Mutating the object in slot [k] of an array. *)
Fixpoint update_nth {A : Type} (k : nat) (f : A -> A) (l : list A) : list A :=
  match l, k with
  | [], _ => []
  | a :: l', O => f a :: l'
  | a :: l', S k' => a :: update_nth k' f l'
  end.

(** Setters for the fields the handlers assign. *)
Definition set_clients (c : list (nat * bool)) (st : State) : State :=
  mkState (clientId st) c (positions st) (nameMap st) (listeners st)
          (gameTime st) (objectInstances st) (npcInstances st)
          (npcTimers st) (nextTimerId st) (disk st).

Definition set_positions (p : list (nat * Player.t)) (st : State) : State :=
  mkState (clientId st) (clients st) p (nameMap st) (listeners st)
          (gameTime st) (objectInstances st) (npcInstances st)
          (npcTimers st) (nextTimerId st) (disk st).

Definition set_gameTime (g : GameTime) (st : State) : State :=
  mkState (clientId st) (clients st) (positions st) (nameMap st)
          (listeners st) g (objectInstances st) (npcInstances st)
          (npcTimers st) (nextTimerId st) (disk st).

Definition set_objectInstances (o : list Obj.t) (st : State) : State :=
  mkState (clientId st) (clients st) (positions st) (nameMap st)
          (listeners st) (gameTime st) o (npcInstances st)
          (npcTimers st) (nextTimerId st) (disk st).

Definition set_npcInstances (n : list Npc.t) (st : State) : State :=
  mkState (clientId st) (clients st) (positions st) (nameMap st)
          (listeners st) (gameTime st) (objectInstances st) n
          (npcTimers st) (nextTimerId st) (disk st).

Definition set_npcTimers (t : list (string * NpcTimer)) (next : nat)
    (st : State) : State :=
  mkState (clientId st) (clients st) (positions st) (nameMap st)
          (listeners st) (gameTime st) (objectInstances st)
          (npcInstances st) t next (disk st).

Definition set_disk (d : Disk) (st : State) : State :=
  mkState (clientId st) (clients st) (positions st) (nameMap st)
          (listeners st) (gameTime st) (objectInstances st)
          (npcInstances st) (npcTimers st) (nextTimerId st) d.

Definition with_roomFiles (r : list ((string * Z) * Room)) (d : Disk) : Disk :=
  mkDisk r (playerFiles d) (objectsStateFile d) (npcStateFile d)
         (stateFile d) (writable d).

Definition with_playerFiles (p : list (string * PlayerFile)) (d : Disk)
    : Disk :=
  mkDisk (roomFiles d) p (objectsStateFile d) (npcStateFile d)
         (stateFile d) (writable d).

Definition with_objectsStateFile (o : list Obj.t) (d : Disk) : Disk :=
  mkDisk (roomFiles d) (playerFiles d) (Some o) (npcStateFile d)
         (stateFile d) (writable d).

Definition with_npcStateFile (n : list Npc.t) (d : Disk) : Disk :=
  mkDisk (roomFiles d) (playerFiles d) (objectsStateFile d) (Some n)
         (stateFile d) (writable d).

Definition with_stateFile (g : GameTime) (d : Disk) : Disk :=
  mkDisk (roomFiles d) (playerFiles d) (objectsStateFile d)
         (npcStateFile d) (Some g) (writable d).

(** broadcastToRoom(zone, roomId, msg): every client, in the order of the
    [clients] map, that has a position in the room and an open socket. *)
Definition broadcastToRoom (st : State) (zone : string) (roomId : value)
    (msg : ServerMsg) : list Effect :=
  flat_map
    (fun entry : nat * bool =>
       let (otherId, open) := entry in
       match map_get Nat.eqb otherId (positions st) with
       | Some pos =>
           if String.eqb (Player.zone pos) zone
              && strict_eq (Player.roomId pos) roomId && open
           then [Send otherId msg]
           else []
       | None => []
       end)
    (clients st).

(** sendToPlayer(playerId, msg) *)
Definition sendToPlayer (st : State) (playerId : nat) (msg : ServerMsg)
    : list Effect :=
  match map_get Nat.eqb playerId (clients st) with
  | Some true => [Send playerId msg]
  | _ => []
  end.

(** The loop [for (const client of clients.values())] sending to every
    open socket (sendMessage(null, data) and the edit handlers). *)
Definition sendToAll (st : State) (msg : ServerMsg) : list Effect :=
  flat_map
    (fun entry : nat * bool =>
       let (otherId, open) := entry in
       if open then [Send otherId msg] else [])
    (clients st).

(** The loop sending to every open socket but that of [id]. *)
Definition sendToOthers (st : State) (id : nat) (msg : ServerMsg)
    : list Effect :=
  flat_map
    (fun entry : nat * bool =>
       let (otherId, open) := entry in
       if negb (otherId =? id)%nat && open then [Send otherId msg] else [])
    (clients st).

(** JSON.stringify omits the properties whose value is undefined. *)
Definition json_obj (fields : list (string * value)) : list (string * value) :=
  filter (fun kv => match snd kv with VUndef => false | _ => true end) fields.

Definition opt_string (o : option string) : value :=
  match o with Some s => VStr s | None => VNull end.

Definition opt_num (o : option Z) : value :=
  match o with Some n => VNum n | None => VNull end.

(** An object instance as JSON. *)
Definition obj_json (i : Obj.t) : value :=
  VObj (json_obj
    [("instanceId", VStr (Obj.instanceId i)); ("typeId", Obj.typeId i);
     ("zone", VStr (Obj.zone i)); ("roomId", Obj.roomId i);
     ("x", Obj.x i); ("y", Obj.y i);
     ("pickedUpBy", opt_string (Obj.pickedUpBy i));
     ("removedAt", opt_num (Obj.removedAt i));
     ("respawnAfterSec", opt_num (Obj.respawnAfterSec i))]%string).

(** saveObjectsState(): fs.writeFileSync of the whole array; throws when
    the write fails. *)
Definition saveObjectsState (st : State) : outcome State :=
  if writable (disk st)
  then Returns (set_disk (with_objectsStateFile (objectInstances st) (disk st))
                         st)
  else Throws.

(** saveNpcState() *)
Definition saveNpcState (st : State) : outcome State :=
  if writable (disk st)
  then Returns (set_disk (with_npcStateFile (npcInstances st) (disk st)) st)
  else Throws.

(** savePlayerData(data): the [safeData] object written to
    players/<name>.json. *)
Definition player_record (name : string) (x y roomId : value) (color : string)
    (inventory : list value) (privilege : Z) (salt hash : value)
    : list (string * value) :=
  json_obj
    [("name", VStr name); ("x", x); ("y", y); ("roomId", roomId);
     ("color", VStr color); ("inventory", VArr inventory);
     ("privilege", VNum privilege); ("salt", salt); ("hash", hash)]%string.

(** The file is players/[name].json.  [playerFiles] holds the files of the
    players directory by the name their path is built from, which is the
    file system for the names that stay in that directory (no path
    separator, no NUL byte: [plain_name] below); the statements about
    what a run leaves on disk name that condition. *)
Definition savePlayerData (name : string) (record : list (string * value))
    (st : State) : outcome State :=
  if writable (disk st)
  then Returns (set_disk (with_playerFiles
                            (map_set String.eqb name (Parsed record)
                                     (playerFiles (disk st)))
                            (disk st)) st)
  else Throws.

Definition player_file_of (p : Player.t) : list (string * value) :=
  player_record (Player.name p) (Player.x p) (Player.y p) (Player.roomId p)
                (Player.color p) (Player.inventory p) (Player.privilege p)
                (Player.salt p) (Player.hash p).

(** ** Authentication: the handler of a connection's first message *)

(** const colors = [...] *)
Definition colors : list string :=
  ["red"; "green"; "blue"; "orange"; "purple"; "yellow"]%string.

(** The first message as the handler reads it: JSON.parse throws; it
    parses to null (the destructuring then throws, nothing is sent);
    [name] or [password] is missing or a falsy value other than a string;
    or it carries the two as strings, which the handler goes on to test
    for the empty string. *)
Inductive FirstMessage : Type :=
| FirstUnparsable
| FirstNull
| FirstMissing
| FirstAuth (name password : string) (create : value).

(** getFormattedTimeMessage() *)
Definition getFormattedTimeMessage (g : GameTime) : TimeMessage :=
  let year := day g / 360 + 1 in
  let dayOfYear := Z.rem (day g) 360 in
  let season :=
    if (dayOfYear >=? 90) && (dayOfYear <? 180) then Spring
    else if (dayOfYear >=? 180) && (dayOfYear <? 270) then Summer
    else if dayOfYear >=? 270 then Fall
    else Winter in
  let twelveHourFormat := if hour g >? 12 then hour g - 12 else hour g in
  let glyph :=
    if (hour g =? 21) || (hour g =? 22) || (hour g =? 23)
       || ((0 <=? hour g) && (hour g <=? 4))
    then Some Moon
    else if (5 <=? hour g) && (hour g <=? 17) then Some Sun
    else if (18 <=? hour g) && (hour g <=? 20) then Some Moon
    else None in
  mkTimeMessage (option_map (fun gl => (gl, twelveHourFormat)) glyph)
                (hour g >=? 12) (day g) year season.

Section Auth.

(** crypto.pbkdf2Sync(password, salt, 1000, 64, 'sha512').toString('hex') *)
Variable pbkdf2Sync : string -> string -> string.

(** verifyPassword(password, salt, hash); pbkdf2Sync throws on a salt that
    is not a string. *)
Definition verifyPassword (password : string) (salt hash : value)
    : outcome bool :=
  match salt with
  | VStr s => Returns (strict_eq hash (VStr (pbkdf2Sync password s)))
  | _ => Throws
  end.

(** The fields of a stored record that overwrite the defaults of
    [initialPos] when they have the right type. *)
Definition fill_from_record (data : list (string * value))
    (init : InitialPos.t) : InitialPos.t :=
  InitialPos.mk
    (InitialPos.name init)
    (match lookup_field "x" data with VNum n => n | _ => InitialPos.x init end)
    (match lookup_field "y" data with VNum n => n | _ => InitialPos.y init end)
    (match lookup_field "roomId" data with
     | VNum n => n | _ => InitialPos.roomId init end)
    (match lookup_field "color" data with
     | VStr s => s | _ => InitialPos.color init end)
    (match lookup_field "privilege" data with
     | VNum n => n | _ => InitialPos.privilege init end)
    (match lookup_field "inventory" data with
     | VArr a => a | _ => InitialPos.inventory init end)
    (lookup_field "salt" data)
    (lookup_field "hash" data).

Definition initial_record (p : InitialPos.t) : list (string * value) :=
  player_record (InitialPos.name p) (VNum (InitialPos.x p))
                (VNum (InitialPos.y p)) (VNum (InitialPos.roomId p))
                (InitialPos.color p) (InitialPos.inventory p)
                (InitialPos.privilege p) (InitialPos.salt p)
                (InitialPos.hash p).

(** The try block of the handler (lines 758-804): [inl message] when a
    branch sends an error and closes; [inr (initialPos, disk)] when the
    handler goes on, also after an exception was caught and logged. *)
Definition check_credentials (salt_bytes : string) (name password : string)
    (create : value) (init : InitialPos.t) (st : State)
    : string + (InitialPos.t * State) :=
  match map_get String.eqb name (playerFiles (disk st)) with
  | Some (Parsed data) =>
      if negb (truthy (lookup_field "salt" data))
         || negb (truthy (lookup_field "hash" data))
      then inl "Missing password data."%string
      else if truthy create
      then inl "Character already exists."%string
      else match verifyPassword password (lookup_field "salt" data)
                                (lookup_field "hash" data) with
           | Returns false => inl "Incorrect password."%string
           | Returns true => inr (fill_from_record data init, st)
           | _ => inr (init, st)
           end
  | Some Unreadable => inr (init, st)
  | None =>
      let init' :=
        InitialPos.mk (InitialPos.name init) (InitialPos.x init)
                      (InitialPos.y init) (InitialPos.roomId init)
                      (InitialPos.color init) (InitialPos.privilege init)
                      (InitialPos.inventory init) (VStr salt_bytes)
                      (VStr (pbkdf2Sync password salt_bytes)) in
      if truthy create
      then match savePlayerData name (initial_record init') st with
           | Returns st' => inr (init', st')
           | _ => inr (init', st)
           end
      else inl "Character not found."%string
  end.

(** The sends that follow a successful check (lines 823-861). *)
Definition welcome (id : nat) (name : string) (init : InitialPos.t)
    (st : State) : list Effect :=
  let myZone := "0"%string in
  [Send id (MInit id (positions st) (InitialPos.x init) (InitialPos.y init)
                  0 10);
   Send id (MTimeUpdate (getFormattedTimeMessage (gameTime st)));
   Send id (MInitObjects
              (filter (fun i =>
                         String.eqb (Obj.zone i) myZone
                         && strict_eq (Obj.roomId i)
                                      (VNum (InitialPos.roomId init))
                         && match Obj.pickedUpBy i with
                            | None => true | Some _ => false end)
                      (objectInstances st)));
   Send id (MInitInventory
              (filter (fun i =>
                         match Obj.pickedUpBy i with
                         | Some n => String.eqb n name | None => false end)
                      (objectInstances st)));
   Send id (MInitNpcs
              (filter (fun n =>
                         String.eqb (Npc.zone n) myZone
                         && (Npc.roomId n =? InitialPos.roomId init))
                      (npcInstances st)))]
  ++ sendToOthers st id (MJoin id init).

(** ws.once('message', ...): [salt_bytes] is what crypto.randomBytes(16)
    yields should a password be hashed. *)
Definition on_first_message (salt_bytes : string) (m : FirstMessage)
    (st : State) : State * list Effect :=
  match m with
  | FirstUnparsable | FirstMissing => (st, [CloseUnregistered])
  | FirstNull => (st, [])
  | FirstAuth name password create =>
      if negb (truthy (VStr name)) || negb (truthy (VStr password))
      then (st, [CloseUnregistered])
      else
      let id := clientId st in
      let color := nth (id mod List.length colors) colors ""%string in
      let st1 :=
        mkState (S id) (map_set Nat.eqb id true (clients st)) (positions st)
                (map_set Nat.eqb id name (nameMap st)) (listeners st)
                (gameTime st) (objectInstances st) (npcInstances st)
                (npcTimers st) (nextTimerId st) (disk st) in
      let init := InitialPos.mk name 400 300 0 color 0 [] VUndef VUndef in
      match check_credentials salt_bytes name password create init st1 with
      | inl message =>
          (set_clients (map_set Nat.eqb id false (clients st1)) st1,
           [Send id (MError message); Close id])
      | inr (init', st2) =>
          let pos :=
            Player.mk (InitialPos.name init') (VNum (InitialPos.x init'))
                      (VNum (InitialPos.y init'))
                      (VNum (InitialPos.roomId init'))
                      (InitialPos.privilege init') (InitialPos.color init')
                      (InitialPos.inventory init') (InitialPos.salt init')
                      (InitialPos.hash init') "0"%string in
          let st3 :=
            mkState (clientId st2) (clients st2)
                    (map_set Nat.eqb id pos (positions st2)) (nameMap st2)
                    (listeners st2 ++ [(id, name)]) (gameTime st2)
                    (objectInstances st2) (npcInstances st2)
                    (npcTimers st2) (nextTimerId st2) (disk st2) in
          (st3, welcome id name init' st3)
      end
  end.

End Auth.

(** ** The handlers of the messages of an authenticated connection *)

(** What the body of the try block of ws.on('message') leaves behind: the
    state, the sends, and whether an exception reached the catch. *)
Definition Handled : Type := (State * list Effect * bool)%type.

Definition done (st : State) (out : list Effect) : Handled := (st, out, false).

Definition thrown (st : State) (out : list Effect) : Handled := (st, out, true).

Definition instance_is (v : value) (i : Obj.t) : bool :=
  strict_eq (VStr (Obj.instanceId i)) v.

Definition npc_is (v : value) (n : Npc.t) : bool :=
  strict_eq (VStr (Npc.instanceId n)) v.

Definition unowned (i : Obj.t) : bool :=
  match Obj.pickedUpBy i with None => true | Some _ => false end.

Definition owned_by (name : string) (i : Obj.t) : bool :=
  match Obj.pickedUpBy i with Some n => String.eqb n name | None => false end.

(** msg.type === 'update' *)
Definition handle_update (id : nat) (msg : list (string * value))
    (st : State) : Handled :=
  match map_get Nat.eqb id (positions st) with
  | Some player =>
      let player' :=
        Player.mk (Player.name player) (lookup_field "x" msg)
                  (lookup_field "y" msg) (lookup_field "roomId" msg)
                  (Player.privilege player) (Player.color player)
                  (Player.inventory player) (Player.salt player)
                  (Player.hash player) (Player.zone player) in
      let st' := set_positions (map_set Nat.eqb id player' (positions st)) st in
      done st' (sendToOthers st' id
                  (MUpdate id (Player.x player') (Player.y player')
                           (Player.roomId player') (Player.name player')
                           (Player.privilege player')))
  | None =>
      (* player.x throws once another open client is reached *)
      if existsb (fun e : nat * bool => negb (fst e =? id)%nat && snd e)
                 (clients st)
      then thrown st []
      else done st []
  end.

(** The pickup of [inst] by [name] at tick [now]. *)
Definition pick (name : string) (now : Z) (inst : Obj.t) : Obj.t :=
  Obj.mk (Obj.instanceId inst) (Obj.typeId inst) (Obj.zone inst)
         (Obj.roomId inst) (Obj.x inst) (Obj.y inst) (Some name) (Some now)
         (Obj.respawnAfterSec inst).

(** msg.type === 'pickup' *)
Definition handle_pickup (id : nat) (name : string)
    (msg : list (string * value)) (st : State) : Handled :=
  match toString (lookup_field "zone" msg) with
  | Returns zoneKey =>
      let roomNum := lookup_field "roomId" msg in
      match find (instance_is (lookup_field "instanceId" msg))
                 (objectInstances st) with
      | Some inst =>
          if unowned inst && String.eqb (Obj.zone inst) zoneKey
             && strict_eq (Obj.roomId inst) roomNum
          then
            let inst' := pick name (tick (gameTime st)) inst in
            let st1 :=
              set_objectInstances
                (update_first (instance_is (lookup_field "instanceId" msg))
                              (pick name (tick (gameTime st)))
                              (objectInstances st)) st in
            match saveObjectsState st1 with
            | Returns st2 =>
                done st2 (broadcastToRoom st2 zoneKey (Obj.roomId inst')
                                          (MObjectPicked inst' id))
            | _ => thrown st1 []
            end
          else done st []
      | None => done st []
      end
  | _ => thrown st []
  end.

(** The drop of [inst] at the place the message names. *)
Definition put_down (zoneKey : string) (msg : list (string * value))
    (inst : Obj.t) : Obj.t :=
  Obj.mk (Obj.instanceId inst) (Obj.typeId inst) zoneKey
         (lookup_field "roomId" msg) (lookup_field "x" msg)
         (lookup_field "y" msg) None None (Obj.respawnAfterSec inst).

(** msg.type === 'drop'.  The inventory written to the player file is kept
    in the position entry as the JSON it serialises to at this moment. *)
Definition handle_drop (id : nat) (name : string)
    (msg : list (string * value)) (st : State) : Handled :=
  match toString (lookup_field "zone" msg) with
  | Returns zoneKey =>
      match find (instance_is (lookup_field "instanceId" msg))
                 (objectInstances st) with
      | Some inst =>
          if owned_by name inst
          then
            let inst' := put_down zoneKey msg inst in
            let st1 :=
              set_objectInstances
                (update_first (instance_is (lookup_field "instanceId" msg))
                              (put_down zoneKey msg) (objectInstances st))
                st in
            match saveObjectsState st1 with
            | Returns st2 =>
                let out := broadcastToRoom st2 zoneKey (Obj.roomId inst')
                                           (MObjectDropped inst') in
                match map_get Nat.eqb id (positions st2) with
                | Some playerData =>
                    let playerData' :=
                      Player.mk (Player.name playerData) (Player.x playerData)
                        (Player.y playerData) (Player.roomId playerData)
                        (Player.privilege playerData)
                        (Player.color playerData)
                        (map obj_json
                             (filter (owned_by name) (objectInstances st2)))
                        (Player.salt playerData) (Player.hash playerData)
                        (Player.zone playerData) in
                    let st3 :=
                      set_positions
                        (map_set Nat.eqb id playerData' (positions st2)) st2 in
                    match savePlayerData (Player.name playerData')
                                         (player_file_of playerData') st3 with
                    | Returns st4 => done st4 out
                    | _ => thrown st3 out
                    end
                | None => thrown st2 out
                end
            | _ => thrown st1 []
            end
          else done st []
      | None => done st []
      end
  | _ => thrown st []
  end.

(** msg.type === 'request-objects-and-npcs' *)
Definition handle_request (id : nat) (msg : list (string * value))
    (st : State) : Handled :=
  match toString (lookup_field "zone" msg) with
  | Returns zoneKey =>
      done st
        [Send id (MInitObjects
                    (filter (fun i =>
                               String.eqb (Obj.zone i) zoneKey
                               && strict_eq (Obj.roomId i)
                                            (lookup_field "roomId" msg)
                               && unowned i)
                            (objectInstances st)));
         Send id (MInitNpcs
                    (filter (fun n =>
                               String.eqb (Npc.zone n) zoneKey
                               && strict_eq (VNum (Npc.roomId n))
                                            (lookup_field "roomId" msg))
                            (npcInstances st)))]
  | _ => thrown st []
  end.

(** The behavior of the entity a context request names: objects carry
    none. *)
Definition target_behavior (targetType instanceId : value) (st : State)
    : option (Npc.t * BehaviorModule) :=
  if strict_eq targetType (VStr "npc")
  then match find (npc_is instanceId) (npcInstances st) with
       | Some n => option_map (fun b => (n, b)) (Npc.behavior n)
       | None => None
       end
  else None.

(** msg.type === 'get-context-menu'; only the dog's module has a
    getContextMenu. *)
Definition handle_get_context_menu (id : nat) (msg : list (string * value))
    (st : State) : Handled :=
  let targetType := lookup_field "targetType" msg in
  let instanceId := lookup_field "instanceId" msg in
  match map_get Nat.eqb id (positions st) with
  | Some player =>
      if negb (truthy targetType) || negb (truthy instanceId)
      then done st []
      else match target_behavior targetType instanceId st with
           | Some (_, Fido) =>
               done st
                 [Send id (MContextMenu instanceId targetType
                    [mkOption "pet fido" "pet-fido" None;
                     mkOption "praise fido" "give-treat"
                       (Some (existsb (strict_eq (VStr "dog_treat"))
                                      (Player.inventory player)))])]
           | _ => done st [Send id (MContextMenu instanceId VUndef [])]
           end
  | None => done st []
  end.

(** msg.type === 'context-action'; only the dog's module has an
    onContextAction. *)
Definition handle_context_action (id : nat) (msg : list (string * value))
    (st : State) : Handled :=
  let targetType := lookup_field "targetType" msg in
  let instanceId := lookup_field "instanceId" msg in
  let action := lookup_field "action" msg in
  if negb (truthy targetType) || negb (truthy instanceId)
     || negb (truthy action)
  then done st []
  else match target_behavior targetType instanceId st with
       | Some (npc, Fido) =>
           if strict_eq action (VStr "pet-fido")
           then done st (sendToPlayer st id
                           (MNotification "Fido wagged his tail."))
           else if strict_eq action (VStr "give-treat")
           then done st (broadcastToRoom st (Npc.zone npc)
                           (VNum (Npc.roomId npc))
                           (MEmote (Npc.instanceId npc)
                                   "gobbles up the treat."))
           else done st []
       | _ => done st []
       end.

(** ** Input validation and the privileged world edits *)

Inductive Validation : Type :=
| Valid
| Invalid (error : string).

(** validateEditRequest(msg, roomJson) *)
Definition validateEditRequest (msg : list (string * value)) (roomJson : Room)
    : Validation :=
  match as_integer (lookup_field "x" msg), as_integer (lookup_field "y" msg) with
  | Some mx, Some my =>
      if (mx <? 0) || (my <? 0)
      then Invalid "Coordinates must be non-negative"
      else match nth_error (tiles roomJson) (Z.to_nat my) with
           | None => Invalid "Coordinates out of room bounds"
           | Some row =>
               match nth_error row (Z.to_nat mx) with
               | None => Invalid "Coordinates out of room bounds"
               | Some _ =>
                   let t := lookup_field "terrain" msg in
                   if truthy t
                      && match t with
                         | VStr s => negb (terrain_regex s)
                         | _ => true
                         end
                   then Invalid "Invalid terrain value"
                   else Valid
               end
           end
  | _, _ => Invalid "Coordinates must be integers"
  end.

(** validateResizeRequest(msg) *)
Definition validateResizeRequest (msg : list (string * value)) : Validation :=
  match as_integer (lookup_field "width" msg),
        as_integer (lookup_field "height" msg) with
  | Some w, Some h =>
      if (w <? 1) || (h <? 1) then Invalid "Dimensions must be at least 1x1"
      else if (w >? 100) || (h >? 100)
      then Invalid "Dimensions too large (max 100x100)"
      else Valid
  | _, _ => Invalid "Dimensions must be integers"
  end.

Section Server.

(** The ids that parse beyond [MAX_SAFE_INTEGER] are left to JavaScript's
    numbers: parseInt rounds them to a double and toString prints that
    double, from 1e21 on in exponent form ("1e+21", "1.5e+22"), which is
    where the test for '.' can fire.  What validateRoomId answers there,
    for the value it was given, is a parameter of the server. *)
Variable roomIdBeyondSafe : value -> Z + string.

(** validateRoomId(roomId): the sanitized id or the error. *)
Definition validateRoomId (roomId : value) : Z + string :=
  match parseInt roomId with
  | None => inr "Invalid room ID"%string
  | Some parsed =>
      if parsed <? 0 then inr "Invalid room ID"%string
      else if parsed >? MAX_SAFE_INTEGER then roomIdBeyondSafe roomId
      else
        let roomIdStr := Z_to_string parsed in
        if includes roomIdStr "." || includes roomIdStr "/"
           || includes roomIdStr "\"
        then inr "Invalid room ID format"%string
        else inl parsed
  end.

Definition validDirections : list string :=
  ["up"; "down"; "left"; "right"]%string.

(** The loop over Object.entries(tileExits). *)
Fixpoint validate_exit_entries (entries : list (string * value)) : Validation :=
  match entries with
  | [] => Valid
  | (direction, exit) :: rest =>
      if negb (existsb (String.eqb direction) validDirections)
      then Invalid ("Invalid exit direction: " ++ direction)
      else
        match exit with
        | VObj e =>
            match as_integer (lookup_field "roomId" e),
                  as_integer (lookup_field "x" e),
                  as_integer (lookup_field "y" e) with
            | Some r, Some ex, Some ey =>
                if (r <? 0) || (ex <? 0) || (ey <? 0)
                then Invalid "Exit coordinates must be non-negative"
                else validate_exit_entries rest
            | _, _, _ => Invalid "Exit coordinates must be integers"
            end
        | VArr _ => Invalid "Exit coordinates must be integers"
        | _ => Invalid "Exit must be an object"
        end
  end.

(** validateTileExits(tileExits) *)
Definition validateTileExits (tileExits : value) : Validation :=
  match tileExits with
  | VNull | VUndef => Valid
  | VObj entries => validate_exit_entries entries
  | _ => Invalid "Tile exits must be an object"
  end.

(** The array slot a validated coordinate denotes. *)
Definition slot (v : value) : nat :=
  match v with
  | VNum n => Z.to_nat n
  | _ => O
  end.

Definition set_terrain (v : value) (t : Tile) : Tile :=
  mkTile v (tileExits t) (tileOther t).

Definition set_tileExits (v : value) (t : Tile) : Tile :=
  mkTile (terrain t) v (tileOther t).

Definition set_tiles (g : list (list Tile)) (r : Room) : Room :=
  mkRoom (width r) (height r) g (roomOther r).

(** roomJson.tiles[msg.y][msg.x] = f(roomJson.tiles[msg.y][msg.x]) *)
Definition edit_tile_at (msg : list (string * value)) (f : Tile -> Tile)
    (roomJson : Room) : Room :=
  set_tiles (update_nth (slot (lookup_field "y" msg))
                        (update_nth (slot (lookup_field "x" msg)) f)
                        (tiles roomJson))
            roomJson.

(** { terrain: 'void', tileExits: {} } *)
Definition void_tile : Tile := mkTile (VStr "void") (VObj []) [].

(** The resize of the rows and of the row count (lines 1187-1214).  Room
    files keep [width] tiles in a row and [height] rows, so the truncation
    [row.length = newW] never pads. *)
Definition resize (newW newH : Z) (roomJson : Room) : Room :=
  let oldW := width roomJson in
  let oldH := height roomJson in
  let rows1 :=
    map (fun row =>
           if newW >? oldW
           then row ++ repeat void_tile (Z.to_nat (newW - oldW))
           else if newW <? oldW then firstn (Z.to_nat newW) row
           else row)
        (tiles roomJson) in
  let rows2 :=
    if newH >? oldH
    then rows1 ++ repeat (repeat void_tile (Z.to_nat newW))
                         (Z.to_nat (newH - oldH))
    else if newH <? oldH then firstn (Z.to_nat newH) rows1
    else rows1 in
  mkRoom newW newH rows2 (roomOther roomJson).

Definition room_key_eqb (a b : string * Z) : bool :=
  String.eqb (fst a) (fst b) && (snd a =? snd b).

(** safeFileWrite(roomFile, JSON.stringify(roomJson, null, 2)) *)
Definition write_room (key : string * Z) (roomJson : Room) (st : State)
    : option State :=
  if writable (disk st)
  then Some (set_disk (with_roomFiles
                         (map_set room_key_eqb key roomJson
                                  (roomFiles (disk st)))
                         (disk st)) st)
  else None.

Section Edits.

(** worldData.zones, an array *)
Variable zones : list ZoneDef.

(** worldData.zones[key]: the element whose index prints as the property
    key.  The names an array inherits ("length" and the like) are not
    looked up. *)
Definition zone_at (key : value) : option ZoneDef :=
  map_get String.eqb (js_string key)
          (combine (map (fun i => Z_to_string (Z.of_nat i))
                        (seq 0 (List.length zones)))
                   zones).

Definition reply_error (id : nat) (st : State) (message : string) : Handled :=
  done st [Send id (MError message)].

(** The checks the three edit handlers share up to the loaded room file:
    privilege, room id, then [extra] (the handler's own check of the
    message), the zone and the read of the file. *)
Definition load_for_edit (id : nat) (msg : list (string * value))
    (extra : Validation) (st : State)
    : string + (Z * (string * Z) * Room) :=
  match map_get Nat.eqb id (positions st) with
  | None => inl "Insufficient privileges"%string
  | Some player =>
      if Player.privilege player <? 10
      then inl "Insufficient privileges"%string
      else
        match validateRoomId (lookup_field "roomId" msg) with
        | inr error => inl error
        | inl roomId =>
            match extra with
            | Invalid error => inl error
            | Valid =>
                let zoneId := match lookup_field "zoneId" msg with
                              | VUndef => VNum 0
                              | v => v
                              end in
                match zone_at zoneId with
                | None => inl "Unknown zone"%string
                | Some zoneDef =>
                    let key := (zonePath zoneDef, roomId) in
                    match map_get room_key_eqb key (roomFiles (disk st)) with
                    | None => inl "Failed to load room data"%string
                    | Some roomJson => inr (roomId, key, roomJson)
                    end
                end
            end
        end
  end.

(** msg.type === 'edit-tile' *)
Definition handle_edit_tile (id : nat) (msg : list (string * value))
    (st : State) : Handled :=
  match load_for_edit id msg Valid st with
  | inl error => reply_error id st error
  | inr (roomId, key, roomJson) =>
      match validateEditRequest msg roomJson with
      | Invalid error => reply_error id st error
      | Valid =>
          let roomJson' :=
            edit_tile_at msg (set_terrain (lookup_field "terrain" msg))
                         roomJson in
          match write_room key roomJson' st with
          | None => reply_error id st "Failed to save room changes"
          | Some st' => done st' (sendToAll st' (MRoomUpdated roomId (VObj msg)))
          end
      end
  end.

(** msg.type === 'edit-tile-exits' *)
Definition handle_edit_tile_exits (id : nat) (msg : list (string * value))
    (st : State) : Handled :=
  match load_for_edit id msg (validateTileExits (lookup_field "tileExits" msg))
                      st with
  | inl error => reply_error id st error
  | inr (roomId, key, roomJson) =>
      match validateEditRequest msg roomJson with
      | Invalid error => reply_error id st error
      | Valid =>
          let exits := match lookup_field "tileExits" msg with
                       | VNull => VUndef
                       | v => v
                       end in
          let roomJson' := edit_tile_at msg (set_tileExits exits) roomJson in
          match write_room key roomJson' st with
          | None => reply_error id st "Failed to save tile exits"
          | Some st' => done st' (sendToAll st' (MRoomUpdated roomId (VObj msg)))
          end
      end
  end.

(** msg.type === 'resize-room' *)
Definition handle_resize_room (id : nat) (msg : list (string * value))
    (st : State) : Handled :=
  match load_for_edit id msg (validateResizeRequest msg) st with
  | inl error => reply_error id st error
  | inr (roomId, key, roomJson) =>
      let newW := match lookup_field "width" msg with VNum n => n | _ => 0 end in
      let newH := match lookup_field "height" msg with VNum n => n | _ => 0 end in
      match write_room key (resize newW newH roomJson) st with
      | None => reply_error id st "Failed to save room resize"
      | Some st' => done st' (sendToAll st' (MRoomResized roomId newW newH))
      end
  end.

(** ws.on('message', ...): the dispatch on msg.type inside the try, and
    the catch that answers 'Invalid message format' on an open socket.
    [raw] is what JSON.parse returns, [None] when it throws; [name] is the
    name the connection authenticated with. *)
Definition dispatch (id : nat) (name : string) (msg : list (string * value))
    (st : State) : Handled :=
  let ty := lookup_field "type" msg in
  if strict_eq ty (VStr "update") then handle_update id msg st
  else if strict_eq ty (VStr "pickup") then handle_pickup id name msg st
  else if strict_eq ty (VStr "drop") then handle_drop id name msg st
  else if strict_eq ty (VStr "request-objects-and-npcs")
  then handle_request id msg st
  else if strict_eq ty (VStr "get-context-menu")
  then handle_get_context_menu id msg st
  else if strict_eq ty (VStr "context-action")
  then handle_context_action id msg st
  else if strict_eq ty (VStr "edit-tile") then handle_edit_tile id msg st
  else if strict_eq ty (VStr "edit-tile-exits")
  then handle_edit_tile_exits id msg st
  else if strict_eq ty (VStr "resize-room") then handle_resize_room id msg st
  else done st [].

Definition on_message (id : nat) (name : string) (raw : option value)
    (st : State) : State * list Effect :=
  let '(st', out, threw) :=
    match raw with
    | None => thrown st []
    | Some (VObj msg) => dispatch id name msg st
    | Some VNull | Some VUndef => thrown st []
    | Some _ => done st []
    end in
  (st',
   out ++ if threw
          then match map_get Nat.eqb id (clients st') with
               | Some true => [Send id (MError "Invalid message format")]
               | _ => []
               end
          else []).

End Edits.

(** ws.on('close', ...) *)
Definition on_close (id : nat) (st : State) : State * list Effect :=
  let st1 :=
    match map_get Nat.eqb id (positions st) with
    | Some data =>
        match savePlayerData (Player.name data) (player_file_of data) st with
        | Returns st' => st'
        | _ => st
        end
    | None => st
    end in
  let st2 :=
    mkState (clientId st1) (map_delete Nat.eqb id (clients st1))
            (map_delete Nat.eqb id (positions st1))
            (map_delete Nat.eqb id (nameMap st1))
            (filter (fun l => negb (fst l =? id)%nat) (listeners st1))
            (gameTime st1) (objectInstances st1) (npcInstances st1)
            (npcTimers st1) (nextTimerId st1) (disk st1) in
  (st2, sendToAll st2 (MLeave id)).

(** ** The server tick *)

(** The timekeeping at the head of the setInterval callback (lines
    1318-1328): [%] is the remainder of JavaScript, [Z.rem]. *)
Definition advance_clock (g : GameTime) : GameTime :=
  let t := tick g + 1 in
  if Z.rem t 60 =? 0
  then
    let h := hour g + 1 in
    if Z.rem h 24 =? 0 then mkTime t 0 (day g + 1) else mkTime t h (day g)
  else mkTime t (hour g) (day g).

(** The clock part of a tick with its broadcast and its fs.writeFile of
    state.json, whose failure is only logged. *)
Definition tick_clock (st : State) : State * list Effect :=
  let g := advance_clock (gameTime st) in
  let st1 := set_gameTime g st in
  if Z.rem (tick g) 60 =? 0
  then
    (if writable (disk st1)
     then set_disk (with_stateFile g (disk st1)) st1
     else st1,
     sendToAll st1 (MTimeUpdate (getFormattedTimeMessage g)))
  else (st1, []).

(** The test of the respawn cycle:
    inst.pickedUpBy !== null && inst.respawnAfterSec && inst.removedAt,
    then elapsed >= inst.respawnAfterSec. *)
Definition respawn_due (now : Z) (inst : Obj.t) : bool :=
  match Obj.pickedUpBy inst, Obj.respawnAfterSec inst, Obj.removedAt inst with
  | Some _, Some r, Some removed =>
      truthy (VNum r) && truthy (VNum removed) && (now - removed >=? r)
  | _, _, _ => false
  end.

Definition respawned (inst : Obj.t) : Obj.t :=
  Obj.mk (Obj.instanceId inst) (Obj.typeId inst) (Obj.zone inst)
         (Obj.roomId inst) (Obj.x inst) (Obj.y inst) None None
         (Obj.respawnAfterSec inst).

(** objectInstances.forEach of the respawn cycle: [before] are the
    entries already passed, [todo] those to come.  The flag tells that
    saveObjectsState threw, which ends the tick. *)
Fixpoint respawn_sweep (now : Z) (before todo : list Obj.t) (st : State)
    : State * list Effect * bool :=
  match todo with
  | [] => (st, [], false)
  | inst :: rest =>
      if respawn_due now inst
      then
        let inst' := respawned inst in
        let st1 := set_objectInstances (before ++ inst' :: rest) st in
        match saveObjectsState st1 with
        | Returns st2 =>
            let '(st3, out, crashed) :=
              respawn_sweep now (before ++ [inst']) rest st2 in
            (st3,
             broadcastToRoom st2 (Obj.zone inst') (Obj.roomId inst')
                             (MObjectSpawned inst') ++ out,
             crashed)
        | _ => (st1, [], true)
        end
      else respawn_sweep now (before ++ [inst]) rest st
  end.

Definition tick_respawn (st : State) : State * list Effect * bool :=
  respawn_sweep (tick (gameTime st)) [] (objectInstances st) st.

(** *** NPC movement timers *)

(** clearNpcMovementTimer(instanceId) *)
Definition clearNpcMovementTimer (instanceId : string) (st : State) : State :=
  match map_get String.eqb instanceId (npcTimers st) with
  | Some _ =>
      set_npcTimers (map_delete String.eqb instanceId (npcTimers st))
                    (nextTimerId st) st
  | None => st
  end.

(** startNpcMovementTimer(instanceId, callback, delay): the callback moves
    the NPC of slot [npcSlot] to [target]. *)
Definition startNpcMovementTimer (instanceId : string) (npcSlot : nat)
    (target : coord) (delay : Z) (st : State) : State :=
  let st1 := clearNpcMovementTimer instanceId st in
  set_npcTimers
    (map_set String.eqb instanceId
             (mkTimer (nextTimerId st1) npcSlot target delay)
             (npcTimers st1))
    (S (nextTimerId st1)) st1.

Definition move_to (target : coord) (npc : Npc.t) : Npc.t :=
  Npc.mk (Npc.instanceId npc) (Npc.typeId npc) (Npc.name npc)
         (Npc.sprite npc) (Npc.zone npc) (Npc.roomId npc)
         (fst target) (snd target) (Npc.roam npc) (Npc.lastRoamTick npc)
         (Npc.movePath npc) (Npc.moveStartTick npc) (Npc.moveDuration npc)
         (Npc.behavior npc).

(** The setTimeout callback of a walk, fired for the pending timer of
    [instanceId]; a timer that was cleared does not fire.  The flag tells
    that saveNpcState threw. *)
Definition on_timer (instanceId : string) (st : State)
    : State * list Effect * bool :=
  match map_get String.eqb instanceId (npcTimers st) with
  | None => (st, [], false)
  | Some t =>
      let st1 :=
        set_npcTimers (map_delete String.eqb instanceId (npcTimers st))
                      (nextTimerId st) st in
      let st2 :=
        set_npcInstances
          (update_nth (timerNpc t) (move_to (timerTarget t))
                      (npcInstances st1)) st1 in
      match saveNpcState st2 with
      | Returns st3 =>
          (st3,
           match nth_error (npcInstances st3) (timerNpc t) with
           | Some npc =>
               broadcastToRoom st3 (Npc.zone npc) (VNum (Npc.roomId npc))
                               (MNpcMove npc)
           | None => []
           end,
           false)
      | _ => (st2, [], true)
      end
  end.

(** *** NPC roaming *)

(** const NPC_BASE_TILE_DURATION = 320 *)
Definition NPC_BASE_TILE_DURATION : Z := 320.

(** pickRandomTile(roomDef): [r] is the value of Math.random(). *)
Definition pickRandomTile (r : Q) (roomDef : Room) : option coord :=
  let coords :=
    flat_map
      (fun yrow : nat * list Tile =>
         map (fun cx => (Z.of_nat cx, Z.of_nat (fst yrow)))
             (seq 0 (List.length (snd yrow))))
      (combine (seq 0 (List.length (tiles roomDef))) (tiles roomDef)) in
  let i := Qfloor (r * inject_Z (Z.of_nat (List.length coords))) in
  if i <? 0 then None else nth_error coords (Z.to_nat i).

Section Tick.

Variable zones : list ZoneDef.

(** Math.random(): the n-th value drawn during a tick. *)
Variable random : nat -> Q.

(** The body of npcInstances.forEach of the roaming (lines 1370-1430) for
    the NPC in slot [npcSlot]; [k] counts the random numbers drawn.  The
    flag tells that an exception left the loop (no zone, no room file, no
    tile to pick, findPath threw). *)
Definition roam_npc (k npcSlot : nat) (npc : Npc.t) (st : State)
    : State * list Effect * nat * bool :=
  match Npc.roam npc with
  | None => (st, [], k, false)
  | Some roam =>
      if negb (String.eqb (roamType roam) "random") then (st, [], k, false)
      else
        match Npc.movePath npc with
        | Some _ => (st, [], k, false)
        | None =>
            let randRoll := (random k * 100)%Q in
            if Qlt_le_dec randRoll (inject_Z (frequency roam))
            then
              match zone_at zones (VStr (Npc.zone npc)) with
              | None => (st, [], S k, true)
              | Some zoneDef =>
                  match map_get room_key_eqb
                                (zonePath zoneDef, Npc.roomId npc)
                                (roomFiles (disk st)) with
                  | None => (st, [], S k, true)
                  | Some roomDef =>
                      match pickRandomTile (random (S k)) roomDef with
                      | None => (st, [], S (S k), true)
                      | Some target =>
                          match findPath (Npc.x npc, Npc.y npc) target
                                         (tiles roomDef) with
                          | Returns (Some path) =>
                              let pathLen := Z.of_nat (List.length path) - 1 in
                              let minLen := minDuration roam in
                              let maxLen := maxDuration roam in
                              let rate := if rate roam =? 0 then 1
                                          else rate roam in
                              if (1 <? Z.of_nat (List.length path))
                                 && (pathLen >=? minLen) && (pathLen <=? maxLen)
                              then
                                let segmentDuration :=
                                  NPC_BASE_TILE_DURATION / rate in
                                let totalMs := pathLen * segmentDuration in
                                match path_end path with
                                | Some final =>
                                    (startNpcMovementTimer
                                       (Npc.instanceId npc) npcSlot final
                                       totalMs st,
                                     broadcastToRoom st (Npc.zone npc)
                                       (VNum (Npc.roomId npc))
                                       (MNpcStartPath (Npc.instanceId npc)
                                                      path segmentDuration),
                                     S (S k), false)
                                | None => (st, [], S (S k), true)
                                end
                              else (st, [], S (S k), false)
                          | Returns None => (st, [], S (S k), false)
                          | _ => (st, [], S (S k), true)
                          end
                      end
                  end
              end
            else (st, [], S k, false)
        end
  end.

(** npcInstances.forEach of the roaming over the slots from [npcSlot]. *)
Fixpoint roam_all (k npcSlot : nat) (npcs : list Npc.t) (st : State)
    : State * list Effect * nat * bool :=
  match npcs with
  | [] => (st, [], k, false)
  | npc :: rest =>
      let '(st1, out1, k1, crashed) := roam_npc k npcSlot npc st in
      if crashed then (st1, out1, k1, true)
      else
        let '(st2, out2, k2, crashed2) := roam_all k1 (S npcSlot) rest st1 in
        (st2, out1 ++ out2, k2, crashed2)
  end.

(** *** Behavior hooks *)

(** The emote of the dog, U+1F436 in UTF-8. *)
Definition dog_face : string :=
  String (ascii_of_nat 240) (String (ascii_of_nat 159)
    (String (ascii_of_nat 144) (String (ascii_of_nat 182) EmptyString))).

(** playersInRoom(npc.zone, npc.roomId).some(p => Math.hypot(p.x - npc.x,
    p.y - npc.y) < 3), for positions that are numbers. *)
Definition player_near (npc : Npc.t) (st : State) : bool :=
  existsb
    (fun entry : nat * Player.t =>
       let p := snd entry in
       String.eqb (Player.zone p) (Npc.zone npc)
       && strict_eq (Player.roomId p) (VNum (Npc.roomId npc))
       && match Player.x p, Player.y p with
          | VNum px, VNum py =>
              (px - Npc.x npc) * (px - Npc.x npc)
              + (py - Npc.y npc) * (py - Npc.y npc) <? 9
          | _, _ => false
          end)
    (positions st).

(** behavior.onTick(npc, gameState) of the three modules; [toss] is the
    module's Math.random(). *)
Definition behavior_onTick (b : BehaviorModule) (toss : Q) (npc : Npc.t)
    (st : State) : list Effect :=
  let room_cast := broadcastToRoom st (Npc.zone npc) (VNum (Npc.roomId npc)) in
  match b with
  | Gregory =>
      if negb (player_near npc st) && (if Qlt_le_dec toss (3 # 10) then true else false)
      then if Qlt_le_dec (15 # 100) toss then room_cast (MEmote (Npc.instanceId npc) "Purchase")
           else []
      else []
  | Fido =>
      if negb (player_near npc st) && (if Qlt_le_dec toss (5 # 10) then true else false)
      then if Qlt_le_dec (35 # 100) toss
           then room_cast (MPlayAudio "bark")
                ++ room_cast (MEmote (Npc.instanceId npc) dog_face)
           else []
      else []
  | TemplateBehavior => []
  end.

(** npcInstances.forEach of the behavior hooks. *)
Fixpoint behaviors_all (k : nat) (npcs : list Npc.t) (st : State)
    : list Effect :=
  match npcs with
  | [] => []
  | npc :: rest =>
      match Npc.behavior npc with
      | Some b => behavior_onTick b (random k) npc st
                  ++ behaviors_all (S k) rest st
      | None => behaviors_all k rest st
      end
  end.

(** The setInterval callback.  The flag tells that an exception ended the
    tick early, which starts the shutdown of the process. *)
Definition on_tick (st : State) : State * list Effect * bool :=
  let (st1, out1) := tick_clock st in
  let '(st2, out2, crashed2) := tick_respawn st1 in
  if crashed2 then (st2, out1 ++ out2, true)
  else
    let '(st3, out3, k, crashed3) := roam_all 0 0 (npcInstances st2) st2 in
    if crashed3 then (st3, out1 ++ out2 ++ out3, true)
    else (st3, out1 ++ out2 ++ out3 ++ behaviors_all k (npcInstances st3) st3,
          false).

End Tick.

(** ** Boot: spawn reconciliation and NPC movement fields *)

(** An entry of a room's [spawns] array. *)
Record Spawn : Type := mkSpawn {
  spawnTypeId : value;
  spawnX : value;
  spawnY : value;
  spawnRespawnAfterSec : option Z
}.

(** An entry of [spawnDefs]:
    { ...sp, zone, roomId, respawnAfterSec: sp.respawnAfterSec || null } *)
Record SpawnDef : Type := mkSpawnDef {
  defTypeId : value;
  defZone : string;
  defRoomId : Z;
  defX : value;
  defY : value;
  defRespawnAfterSec : option Z
}.

Definition spawn_def (zoneKey : string) (rid : Z) (sp : Spawn) : SpawnDef :=
  mkSpawnDef (spawnTypeId sp) zoneKey rid (spawnX sp) (spawnY sp)
             (match spawnRespawnAfterSec sp with
              | Some r => if truthy (VNum r) then Some r else None
              | None => None
              end).

Definition matches_spawn (def : SpawnDef) (i : Obj.t) : bool :=
  strict_eq (Obj.typeId i) (defTypeId def)
  && String.eqb (Obj.zone i) (defZone def)
  && strict_eq (Obj.roomId i) (VNum (defRoomId def))
  && strict_eq (Obj.x i) (defX def)
  && strict_eq (Obj.y i) (defY def).

(** spawnDefs.forEach: every spawn without a live instance gets one;
    [randomId n] is the n-th crypto.randomBytes(8).toString('hex'). *)
Fixpoint ensure_spawns (randomId : nat -> string) (k : nat)
    (defs : list SpawnDef) (instances : list Obj.t) : list Obj.t :=
  match defs with
  | [] => instances
  | def :: rest =>
      if existsb (matches_spawn def) instances
      then ensure_spawns randomId k rest instances
      else ensure_spawns randomId (S k) rest
             (instances ++
              [Obj.mk (randomId k) (defTypeId def) (defZone def)
                      (VNum (defRoomId def)) (defX def) (defY def)
                      None None (defRespawnAfterSec def)])
  end.

(** The instance pushed for a room's NPC definition when the NPC state is
    regenerated (lines 528-539). *)
Definition regenerate_npc (id : string) (template : NpcTemplate)
    (zoneKey : string) (rid defX' defY' : Z) : RawNpc.t :=
  RawNpc.mk id (tmplId template) (tmplName template) (tmplSprite template)
            zoneKey rid defX' defY' (tmplRoam template) 0 None None None.

(** npcInstances.forEach of lines 550-557. *)
Definition ensure_movement (templates : list NpcTemplate) (raw : RawNpc.t)
    : Npc.t :=
  Npc.mk (RawNpc.instanceId raw) (RawNpc.typeId raw) (RawNpc.name raw)
         (RawNpc.sprite raw) (RawNpc.zone raw) (RawNpc.roomId raw)
         (RawNpc.x raw) (RawNpc.y raw) (RawNpc.roam raw)
         (RawNpc.lastRoamTick raw)
         (match RawNpc.movePath raw with Some p => p | None => None end)
         (match RawNpc.moveStartTick raw with Some t => t | None => 0 end)
         (match RawNpc.moveDuration raw with Some d => d | None => 0 end)
         (match find (fun t => strict_eq (tmplId t) (RawNpc.typeId raw))
                     templates with
          | Some tmpl => tmplBehavior tmpl
          | None => None
          end).

(** ** The server as a transition system *)

Inductive Event : Type :=
| EvFirstMessage (salt_bytes : string) (m : FirstMessage)
| EvMessage (id : nat) (raw : option value)
| EvClose (id : nat)
| EvTick (random : nat -> Q)
| EvTimer (instanceId : string).

Definition listener_name (id : nat) (st : State) : option string :=
  map_get Nat.eqb id (listeners st).

(** One callback of the event loop.  Messages and closes reach the
    handlers of an authenticated connection only; an exception that ends
    a tick or a timer callback starts the shutdown of the process. *)
Definition step (pbkdf2Sync : string -> string -> string)
    (zones : list ZoneDef) (ev : Event) (st : State) : State * list Effect :=
  match ev with
  | EvFirstMessage salt_bytes m => on_first_message pbkdf2Sync salt_bytes m st
  | EvMessage id raw =>
      match listener_name id st with
      | Some name => on_message zones id name raw st
      | None => (st, [])
      end
  | EvClose id =>
      match listener_name id st with
      | Some _ => on_close id st
      | None => (st, [])
      end
  | EvTick random => fst (on_tick zones random st)
  | EvTimer instanceId => fst (on_timer instanceId st)
  end.

(** The run of a list of events, with everything sent on the way. *)
Fixpoint run (pbkdf2Sync : string -> string -> string)
    (zones : list ZoneDef) (evs : list Event) (st : State)
    : State * list Effect :=
  match evs with
  | [] => (st, [])
  | ev :: rest =>
      let (st1, out1) := step pbkdf2Sync zones ev st in
      let (st2, out2) := run pbkdf2Sync zones rest st1 in
      (st2, out1 ++ out2)
  end.

(** ** Vocabulary of the claims about the handlers *)


(** A clock whose hour agrees with its tick count. *)
Definition clock_consistent (g : GameTime) : Prop :=
  0 <= tick g /\ hour g = (tick g / 60) mod 24.

Definition is_time_update (e : Effect) : bool :=
  match e with
  | Send _ (MTimeUpdate _) => true
  | _ => false
  end.

(** The parts of the state that neither the respawn cycle nor the NPC
    phases of a tick touch. *)
Definition same_clock_and_clients (st st' : State) : Prop :=
  clientId st' = clientId st /\ clients st' = clients st /\
  positions st' = positions st /\ nameMap st' = nameMap st /\
  listeners st' = listeners st /\ gameTime st' = gameTime st /\
  roomFiles (disk st') = roomFiles (disk st) /\
  playerFiles (disk st') = playerFiles (disk st) /\
  stateFile (disk st') = stateFile (disk st) /\
  writable (disk st') = writable (disk st).

Definition is_npc_start_path (e : Effect) : bool :=
  match e with
  | Send _ (MNpcStartPath _ _ _) => true
  | _ => false
  end.

(** The tile in row [i], column [j] of a grid. *)
Definition cell (g : list (list Tile)) (i j : nat) : option Tile :=
  match nth_error g i with
  | Some row => nth_error row j
  | None => None
  end.

(** Ownership of an instance over one operation: it stays, is taken from
    the world, or returns to the world; it never passes from one player to
    another. *)
Definition owner_step (a b : option string) : Prop :=
  a = b \/ a = None \/ b = None.

(** An instance before and after an operation: the same instance, its
    ownership changed as [owner_step] allows. *)
Definition obj_step (i i' : Obj.t) : Prop :=
  Obj.instanceId i' = Obj.instanceId i /\
  owner_step (Obj.pickedUpBy i) (Obj.pickedUpBy i').

(** A position entry before and after an operation: the same connection
    with the name, privilege and zone it registered with. *)
Definition player_step (e e' : nat * Player.t) : Prop :=
  fst e' = fst e /\
  Player.name (snd e') = Player.name (snd e) /\
  Player.privilege (snd e') = Player.privilege (snd e) /\
  Player.zone (snd e') = Player.zone (snd e).

(** What a message handler may change: positions (as [player_step]
    allows), object instances (as [obj_step] allows) and the disk. *)
Definition message_frame (st st' : State) : Prop :=
  clientId st' = clientId st /\ clients st' = clients st /\
  nameMap st' = nameMap st /\ listeners st' = listeners st /\
  gameTime st' = gameTime st /\ npcInstances st' = npcInstances st /\
  npcTimers st' = npcTimers st /\ nextTimerId st' = nextTimerId st /\
  Forall2 player_step (positions st) (positions st') /\
  Forall2 obj_step (objectInstances st) (objectInstances st').


(** The handler closes the socket: ws.close() alone, or after an error. *)
Definition is_close (e : Effect) : bool :=
  match e with
  | Close _ | CloseUnregistered => true
  | _ => false
  end.

(** A name that stays in the players directory when the path of its file
    is built: no '/', no '\', no NUL byte. *)
Definition plain_name (name : string) : bool :=
  negb (includes name "/") && negb (includes name "\")
  && negb (includes name Ascii.zero).

Definition plain_event (ev : Event) : bool :=
  match ev with
  | EvFirstMessage _ (FirstAuth name _ _) => plain_name name
  | _ => true
  end.

(** The names a state holds, of its connections and of its player files,
    are plain. *)
Definition plain_names (st : State) : Prop :=
  (forall id p, In (id, p) (positions st) ->
                plain_name (Player.name p) = true) /\
  (forall name file, In (name, file) (playerFiles (disk st)) ->
                     plain_name name = true).

(** ** A small world for the examples *)

Definition grass : Tile := mkTile (VStr "grass") VUndef [].

Definition open2x2 : list (list Tile) := [[grass; grass]; [grass; grass]].

Definition sample_room : Room := mkRoom 2 2 open2x2 [].

Definition sample_zones : list ZoneDef := [mkZone "zones/beginning"].

Definition sample_disk : Disk :=
  mkDisk [(("zones/beginning"%string, 0), sample_room)] [] None None None true.

(** Instance I1, unowned in room 0 of zone "0", respawning after 5. *)
Definition sample_obj : Obj.t :=
  Obj.mk "I1" (VStr "bone") "0" (VNum 0) (VNum 2) (VNum 3) None None (Some 5).

Definition sample_player : Player.t :=
  Player.mk "Ava" (VNum 400) (VNum 300) (VNum 0) 10 "red" []
            (VStr "salt") (VStr "hash") "0".

(** Ava is connected as client 0, the clock stands at tick 0. *)
Definition sample_state : State :=
  mkState 1 [(0%nat, true)] [(0%nat, sample_player)] [(0%nat, "Ava"%string)]
          [(0%nat, "Ava"%string)] (mkTime 0 0 0) [sample_obj] [] [] 0
          sample_disk.

Definition pickup_msg : list (string * value) :=
  [("type", VStr "pickup"); ("instanceId", VStr "I1"); ("zone", VNum 0);
   ("roomId", VNum 0)]%string.

Definition sample_pbkdf2 (password salt : string) : string :=
  (salt ++ ":" ++ password)%string.

Definition no_random (n : nat) : Q := 0%Q.

Definition is_object_spawned (e : Effect) : bool :=
  match e with
  | Send _ (MObjectSpawned _) => true
  | _ => false
  end.

(** Bob has a player file (privilege 3, room 2, password "right"); Cy's
    file lacks the salt. *)
Definition bob_file : PlayerFile :=
  Parsed [("name", VStr "Bob"); ("x", VNum 10); ("y", VNum 20);
          ("roomId", VNum 2); ("color", VStr "blue"); ("inventory", VArr []);
          ("privilege", VNum 3); ("salt", VStr "s1");
          ("hash", VStr (sample_pbkdf2 "right" "s1"))]%string.

Definition cy_file : PlayerFile :=
  Parsed [("name", VStr "Cy"); ("hash", VStr "h")]%string.

Definition auth_disk : Disk :=
  mkDisk [(("zones/beginning"%string, 0), sample_room)]
         [("Bob"%string, bob_file); ("Cy"%string, cy_file)] None None None true.

Definition auth_state : State := set_disk auth_disk sample_state.

(** The four failures: wrong password, create of an existing character, a
    record without salt, an unknown character without create. *)
Definition failed_logins : list Event :=
  [EvFirstMessage "r1" (FirstAuth "Bob" "wrong" (VBool false));
   EvFirstMessage "r2" (FirstAuth "Bob" "right" (VBool true));
   EvFirstMessage "r3" (FirstAuth "Cy" "any" (VBool false));
   EvFirstMessage "r4" (FirstAuth "Dee" "any" (VBool false))]%string.

(** An edit-tile request with an empty terrain. *)
Definition empty_terrain_msg : list (string * value) :=
  [("type", VStr "edit-tile"); ("roomId", VNum 0); ("x", VNum 0);
   ("y", VNum 0); ("terrain", VStr "")]%string.

(** An edit-tile request that turns tile (1,0) of room 0 to sand. *)
Definition grass_edit_msg : list (string * value) :=
  [("type", VStr "edit-tile"); ("roomId", VNum 0); ("x", VNum 1);
   ("y", VNum 0); ("terrain", VStr "sand_1")]%string.


(** A server that answers "Invalid room ID format" beyond the safe
    integers. *)
Definition sample_beyond (roomId : value) : Z + string :=
  inr "Invalid room ID format"%string.
(** ** Helpers of server.js outside the handlers *)

(** isValidPlayerData(data), read for its truthiness. *)
Definition isValidPlayerData (data : value) : bool :=
  match data with
  | VObj o =>
      match lookup_field "x" o, lookup_field "y" o, lookup_field "roomX" o,
            lookup_field "roomY" o, lookup_field "color" o,
            lookup_field "name" o, lookup_field "inventory" o with
      | VNum _, VNum _, VNum _, VNum _, VStr _, VStr _, VArr _ => true
      | _, _, _, _, _, _, _ => false
      end
  | _ => false
  end.

(** ** More sample data *)



Definition is_object_dropped (e : Effect) : bool :=
  match e with
  | Send _ (MObjectDropped _) => true
  | _ => false
  end.

Definition is_send (e : Effect) : bool :=
  match e with
  | Send _ _ => true
  | _ => false
  end.

Definition update_msg : list (string * value) :=
  [("type", VStr "update"); ("x", VNum 12); ("y", VNum 34);
   ("roomId", VNum 5)]%string.

(** Ava and Bob connected (clients 0 and 1), Cy's socket (client 2) no
    longer open. *)
Definition crowd_state : State :=
  mkState 3 [(0%nat, true); (1%nat, true); (2%nat, false)]
          [(0%nat, sample_player);
           (1%nat, Player.mk "Bob" (VNum 1) (VNum 1) (VNum 0) 3 "green" []
                             (VStr "s1") (VStr "h1") "0");
           (2%nat, Player.mk "Cy" (VNum 2) (VNum 2) (VNum 0) 0 "blue" []
                             (VStr "s2") (VStr "h2") "0")]
          [(0%nat, "Ava"); (1%nat, "Bob"); (2%nat, "Cy")]%string
          [(0%nat, "Ava"); (1%nat, "Bob"); (2%nat, "Cy")]%string
          (mkTime 0 0 0) [sample_obj] [] [] 0 sample_disk.

(** A state in which Eve's player file does not parse. *)
Definition corrupt_state : State :=
  set_disk (mkDisk [] [("Eve"%string, Unreadable)] None None None true)
           sample_state.

Definition exits_msg : list (string * value) :=
  [("type", VStr "edit-tile-exits"); ("roomId", VNum 0); ("x", VNum 1);
   ("y", VNum 0);
   ("tileExits",
    VObj [("up", VObj [("roomId", VNum 2); ("x", VNum 0); ("y", VNum 5)])])
  ]%string.

Definition resize_msg : list (string * value) :=
  [("type", VStr "resize-room"); ("roomId", VNum 0); ("width", VNum 3);
   ("height", VNum 1)]%string.

(** ** Privilege *)

(** No connection and no player file holds the privilege that the edit
    handlers ask for. *)
Definition all_unprivileged (st : State) : Prop :=
  (forall id p, In (id, p) (positions st) -> Player.privilege p < 10) /\
  (forall name data n,
     In (name, Parsed data) (playerFiles (disk st)) ->
     lookup_field "privilege" data = VNum n -> n < 10).

(** Nobody connected; Bob's and Cy's player files on the disk. *)
Definition village_state : State :=
  mkState 0 [] [] [] [] (mkTime 0 0 0) [sample_obj] [] [] 0 auth_disk.

(** Bob logs in, asks for an edit, a tick passes, Bob leaves. *)
Definition village_day : list Event :=
  [EvFirstMessage "r1" (FirstAuth "Bob" "right" (VBool false));
   EvMessage 0 (Some (VObj grass_edit_msg));
   EvTick no_random;
   EvClose 0]%string.

(** ** The clock over a run *)

Definition is_tick (ev : Event) : bool :=
  match ev with
  | EvTick _ => true
  | _ => false
  end.

(** The number of setInterval callbacks among the events. *)
Definition count_ticks (evs : list Event) : nat :=
  List.length (filter is_tick evs).

(** ** A roaming NPC *)

Definition sample_roam : Roam := mkRoam "random" 100 1 5 2.

(** A cat in slot 0, at tile (0, 0) of room 0 of zone "0". *)
Definition sample_npc : Npc.t :=
  Npc.mk "N1" (VStr "cat") (VStr "Tom") (VStr "cat.png") "0" 0 0 0
         (Some sample_roam) 0 None 0 0 None.

Definition npc_state : State := set_npcInstances [sample_npc] sample_state.

(** Math.random() returning 0, then 3/4 (the last of four tiles). *)
Definition sample_random (n : nat) : Q :=
  match n with
  | 1%nat => (3 # 4)%Q
  | _ => 0%Q
  end.

(** ** Spawn reconciliation *)

(** A value that [===] compares by content. *)
Definition primitive (v : value) : bool :=
  match v with
  | VArr _ | VObj _ => false
  | _ => true
  end.

(** A spawn whose type id and coordinates are primitive values. *)
Definition primitive_def (def : SpawnDef) : bool :=
  primitive (defTypeId def) && primitive (defX def) && primitive (defY def).

(** The instance pushed for a spawn without a live instance. *)
Definition spawned (id : string) (def : SpawnDef) : Obj.t :=
  Obj.mk id (defTypeId def) (defZone def) (VNum (defRoomId def)) (defX def)
         (defY def) None None (defRespawnAfterSec def).

Definition bone_def : SpawnDef :=
  mkSpawnDef (VStr "bone") "0" 0 (VNum 2) (VNum 3) (Some 5).

Definition ball_def : SpawnDef :=
  mkSpawnDef (VStr "ball") "0" 1 (VNum 4) (VNum 4) None.

Definition sample_ids (n : nat) : string :=
  match n with
  | O => "id0"
  | _ => "id1"
  end.

(** ** Messages that only read *)

Definition request_msg : list (string * value) :=
  [("type", VStr "request-objects-and-npcs"); ("zone", VNum 0);
   ("roomId", VNum 0)]%string.

(** The message types whose handlers only read the state. *)
Definition read_only_types : list value :=
  [VStr "request-objects-and-npcs"; VStr "get-context-menu";
   VStr "context-action"]%string.

(** ** The treat *)

(** player.inventory.includes('dog_treat') *)
Definition has_treat (inventory : list value) : bool :=
  existsb (strict_eq (VStr "dog_treat")) inventory.

(** No inventory, of a connection or in a player file, holds the string
    'dog_treat'. *)
Definition no_treat (st : State) : Prop :=
  (forall id p, In (id, p) (positions st) ->
                has_treat (Player.inventory p) = false) /\
  (forall name data inventory,
     In (name, Parsed data) (playerFiles (disk st)) ->
     lookup_field "inventory" data = VArr inventory ->
     has_treat inventory = false).

(** A send that is not a context menu with a visible option flagged
    true. *)
Definition menu_hidden (e : Effect) : bool :=
  match e with
  | Send _ (MContextMenu _ _ options) =>
      forallb (fun o => match optVisible o with
                        | Some true => false
                        | _ => true
                        end) options
  | _ => true
  end.

Definition fido : Npc.t :=
  Npc.mk "F1" (VStr "dog") (VStr "Fido") (VStr "dog.png") "0" 2 5 5 None 0
         None 0 0 (Some Fido).

(** Nobody connected, Fido in room 2, a dog treat lying there. *)
Definition kennel_state : State :=
  mkState 0 [] [] [] [] (mkTime 7 0 0)
          [Obj.mk "T1" (VStr "dog_treat") "0" (VNum 2) (VNum 5) (VNum 6) None
                  None None]
          [fido] [] 0 auth_disk.

(** Bob logs in (room 2), picks up the treat, drops it again and asks for
    Fido's menu. *)
Definition kennel_visit : list Event :=
  [EvFirstMessage "r1" (FirstAuth "Bob" "right" (VBool false));
   EvMessage 0 (Some (VObj [("type", VStr "pickup"); ("instanceId", VStr "T1");
                            ("zone", VNum 0); ("roomId", VNum 2)]));
   EvMessage 0 (Some (VObj [("type", VStr "get-context-menu");
                            ("targetType", VStr "npc");
                            ("instanceId", VStr "F1")]))]%string.

(** ** Routes *)

(** A 2 x 3 room whose middle column is void in the upper row. *)
Definition walled_room : list (list Tile) :=
  [[grass; mkTile (VStr "void") VUndef []; grass];
   [grass; grass; grass]].

(** ** The registry of authenticated connections *)

(** The connections whose handlers are attached are those that have a
    position entry; each has an id below the counter, its login name in
    the name map and in its position entry, and a socket in the
    registry. *)
Definition registered (st : State) : Prop :=
  (forall id name,
     In (id, name) (listeners st) ->
     (id < clientId st)%nat /\
     map_get Nat.eqb id (nameMap st) = Some name /\
     (exists open, map_get Nat.eqb id (clients st) = Some open) /\
     exists p, map_get Nat.eqb id (positions st) = Some p /\
               Player.name p = name) /\
  (forall id p,
     map_get Nat.eqb id (positions st) = Some p ->
     In (id, Player.name p) (listeners st)).

(* ================================================================== *)
(** * Part II: theorems                                                *)
(* ================================================================== *)

(** ** Lists, maps and broadcasts *)

Lemma find_split {A : Type} (p : A -> bool) (l : list A) (a : A) :
  find p l = Some a ->
  exists pre post,
    l = pre ++ a :: post /\ p a = true /\
    (forall b, In b pre -> p b = false) /\
    forall f, update_first p f l = pre ++ f a :: post.
Proof.
  induction l as [|b l IH]; simpl; [discriminate|].
  destruct (p b) eqn:Hb.
  - intros H. injection H as Hba. subst b. exists [], l.
    split; [reflexivity|]. split; [exact Hb|]. split; [intros b []|].
    intros f. reflexivity.
  - intros H. destruct (IH H) as (pre & post & -> & Ha & Hpre & Hupd).
    exists (b :: pre), post. repeat split; auto.
    + intros c [<- | Hc]; auto.
    + intros f. rewrite Hupd. reflexivity.
Qed.

Lemma find_none_update_first {A : Type} (p : A -> bool) (f : A -> A)
    (l : list A) :
  find p l = None -> update_first p f l = l.
Proof.
  induction l as [|b l IH]; simpl; [reflexivity|].
  destruct (p b); [discriminate|]. intros H. rewrite IH; auto.
Qed.


Lemma update_nth_same {A : Type} (f : A -> A) (l : list A) (k : nat) :
  nth_error (update_nth k f l) k = option_map f (nth_error l k).
Proof.
  revert k. induction l as [|a l IH]; intros [|k]; simpl; auto.
Qed.

Lemma update_nth_other {A : Type} (f : A -> A) (l : list A) (k j : nat) :
  k <> j -> nth_error (update_nth k f l) j = nth_error l j.
Proof.
  revert k j. induction l as [|a l IH]; intros [|k] [|j] H; simpl; auto.
  congruence.
Qed.

Lemma update_nth_length {A : Type} (f : A -> A) (l : list A) (k : nat) :
  List.length (update_nth k f l) = List.length l.
Proof.
  revert k. induction l as [|a l IH]; intros [|k]; simpl; auto.
Qed.

Lemma update_nth_map {A B : Type} (g : A -> B) (f : A -> A) (l : list A)
    (k : nat) :
  (forall a, g (f a) = g a) -> map g (update_nth k f l) = map g l.
Proof.
  intros H. revert k. induction l as [|a l IH]; intros [|k]; simpl; auto.
  - rewrite H. reflexivity.
  - rewrite IH. reflexivity.
Qed.

Lemma map_get_set_same {K V : Type} (eqb : K -> K -> bool) (k : K) (v : V)
    (m : list (K * V)) :
  eqb k k = true -> map_get eqb k (map_set eqb k v m) = Some v.
Proof.
  intros Hr. induction m as [|[k' v'] m IH]; simpl.
  - rewrite Hr. reflexivity.
  - destruct (eqb k k') eqn:E; simpl.
    + rewrite Hr. reflexivity.
    + rewrite E. exact IH.
Qed.

Lemma map_get_set_other {K V : Type} (eqb : K -> K -> bool) (k j : K) (v : V)
    (m : list (K * V)) :
  (forall a b, eqb a b = true <-> a = b) -> j <> k ->
  map_get eqb j (map_set eqb k v m) = map_get eqb j m.
Proof.
  intros Heq Hjk.
  assert (Hn : eqb j k = false).
  { destruct (eqb j k) eqn:E; [|reflexivity]. apply Heq in E. contradiction. }
  induction m as [|[k' v'] m IH]; simpl.
  - rewrite Hn. reflexivity.
  - destruct (eqb k k') eqn:E; simpl.
    + apply Heq in E. subst k'. rewrite Hn. reflexivity.
    + destruct (eqb j k'); auto.
Qed.

Lemma map_get_delete_same {K V : Type} (eqb : K -> K -> bool) (k : K)
    (m : list (K * V)) :
  (forall a b, eqb a b = true <-> a = b) ->
  map_get eqb k (map_delete eqb k m) = None.
Proof.
  intros Heq. induction m as [|[k' v'] m IH]; simpl; [reflexivity|].
  destruct (eqb k k') eqn:E; simpl; [exact IH|]. rewrite E. exact IH.
Qed.

Lemma map_get_delete_other {K V : Type} (eqb : K -> K -> bool) (k j : K)
    (m : list (K * V)) :
  (forall a b, eqb a b = true <-> a = b) -> j <> k ->
  map_get eqb j (map_delete eqb k m) = map_get eqb j m.
Proof.
  intros Heq Hjk. induction m as [|[k' v'] m IH]; simpl; [reflexivity|].
  destruct (eqb k k') eqn:E; simpl.
  - apply Heq in E. subst k'.
    destruct (eqb j k) eqn:E'; [apply Heq in E'; contradiction | exact IH].
  - destruct (eqb j k'); auto.
Qed.

Lemma nat_eqb_iff (a b : nat) : (a =? b)%nat = true <-> a = b.
Proof. apply Nat.eqb_eq. Qed.

Lemma string_eqb_iff (a b : string) : String.eqb a b = true <-> a = b.
Proof. apply String.eqb_eq. Qed.

Lemma room_key_eqb_iff (a b : string * Z) : room_key_eqb a b = true <-> a = b.
Proof.
  destruct a as [a1 a2], b as [b1 b2]. unfold room_key_eqb. simpl.
  rewrite andb_true_iff, String.eqb_eq, Z.eqb_eq. split.
  - intros [-> ->]. reflexivity.
  - intros H. inversion H. auto.
Qed.

(** Everything a broadcast sends is the broadcast message. *)
Lemma broadcastToRoom_sends (st : State) (zone : string) (roomId : value)
    (msg : ServerMsg) (e : Effect) :
  In e (broadcastToRoom st zone roomId msg) -> exists to, e = Send to msg.
Proof.
  unfold broadcastToRoom. intros H. apply in_flat_map in H.
  destruct H as ([otherId open] & _ & H).
  destruct (map_get Nat.eqb otherId (positions st)) as [pos|]; [|contradiction].
  destruct (String.eqb (Player.zone pos) zone
            && strict_eq (Player.roomId pos) roomId && open); [|contradiction].
  destruct H as [<- | []]. exists otherId. reflexivity.
Qed.

Lemma sendToAll_sends (st : State) (msg : ServerMsg) (e : Effect) :
  In e (sendToAll st msg) -> exists to, e = Send to msg.
Proof.
  unfold sendToAll. intros H. apply in_flat_map in H.
  destruct H as ([otherId open] & _ & H).
  destruct open; [|contradiction].
  destruct H as [<- | []]. exists otherId. reflexivity.
Qed.


(** Case analysis on the scrutinees of the matches of a hypothesis or of
    the goal, innermost first. *)
Ltac destruct_matches_in H :=
  repeat match type of H with
         | context [match ?x with _ => _ end] =>
             lazymatch x with
             | context [match _ with _ => _ end] => fail
             | _ => destruct x eqn:?
             end
         end.

Ltac destruct_matches :=
  repeat match goal with
         | |- context [match ?x with _ => _ end] =>
             lazymatch x with
             | context [match _ with _ => _ end] => fail
             | _ => destruct x eqn:?
             end
         end.
(** ** Pathfinder *)

Lemma coord_eqb_eq (a b : coord) : coord_eqb a b = true <-> a = b.
Proof.
  destruct a as [ax ay], b as [bx by_]. unfold coord_eqb. simpl.
  rewrite andb_true_iff, !Z.eqb_eq. split.
  - intros [-> ->]. reflexivity.
  - intros H. inversion H. auto.
Qed.

Lemma visited_has_In (v : list coord) (c : coord) :
  visited_has v c = true <-> In c v.
Proof.
  unfold visited_has. rewrite existsb_exists. split.
  - intros [x [Hin Heq]]. apply coord_eqb_eq in Heq. subst. exact Hin.
  - intros Hin. exists c. split; [exact Hin | apply coord_eqb_eq; reflexivity].
Qed.

Lemma visited_has_false (v : list coord) (c : coord) :
  visited_has v c = false <-> ~ In c v.
Proof.
  rewrite <- visited_has_In. destruct (visited_has v c); split; congruence.
Qed.

Lemma visited_has_cons (v : list coord) (n c : coord) :
  visited_has (n :: v) c = coord_eqb c n || visited_has v c.
Proof. reflexivity. Qed.

Lemma path_end_snoc (p : list coord) (n : coord) : path_end (p ++ [n]) = Some n.
Proof. unfold path_end. rewrite rev_app_distr. reflexivity. Qed.

Lemma length_cells_from (C R a : nat) :
  List.length
    (flat_map (fun y => map (fun x => (Z.of_nat x, Z.of_nat y)) (seq 0 C))
              (seq a R)) = (R * C)%nat.
Proof.
  revert a. induction R as [|r IH]; intros a.
  - reflexivity.
  - simpl. rewrite length_app, length_map, length_seq, IH. reflexivity.
Qed.

Section Search.
Variable tiles : list (list Tile).
Variables rows cols : Z.
Variables s g : coord.

Local Abbreviation step := (can_step tiles rows cols).
Local Abbreviation Walk := (walk tiles rows cols s).
Local Abbreviation Closed := (closed tiles rows cols).

Lemma walk_end p e : Walk p e -> path_end p = Some e.
Proof. intros H. destruct H; [reflexivity | apply path_end_snoc]. Qed.

Lemma walk_end_unique p e e' : Walk p e -> Walk p e' -> e = e'.
Proof.
  intros H H'. apply walk_end in H. apply walk_end in H'. congruence.
Qed.

Lemma walk_length p e : Walk p e -> (1 <= List.length p)%nat.
Proof.
  intros H. destruct H; simpl; [lia | rewrite length_app; simpl; lia].
Qed.

Lemma walk_inv w e :
  Walk w e ->
  (w = [s] /\ e = s) \/
  (exists p c, w = p ++ [e] /\ Walk p c /\ step c e = true).
Proof.
  intros H. destruct H.
  - left. auto.
  - right. exists p, c. auto.
Qed.

Lemma closed_mono v v' c :
  incl v v' -> Closed v c -> Closed v' c.
Proof. intros Hi Hc n Hn. apply Hi, Hc, Hn. Qed.

Lemma step_neighbour c n :
  step c n = true ->
  (exists d, In d dirs /\ n = (fst c + fst d, snd c + snd d)) /\
  traversable tiles rows cols n = true.
Proof.
  unfold can_step. rewrite andb_true_iff. intros [Hn Ht]. split; [|exact Ht].
  apply existsb_exists in Hn. destruct Hn as [m [Hin Heq]].
  apply coord_eqb_eq in Heq. subst m.
  unfold neighbours in Hin. apply in_map_iff in Hin.
  destruct Hin as [d [Hd Hin]]. exists d. auto.
Qed.

Lemma neighbour_step c d n :
  In d dirs -> n = (fst c + fst d, snd c + snd d) ->
  traversable tiles rows cols n = true -> step c n = true.
Proof.
  intros Hd -> Ht. unfold can_step. rewrite Ht, andb_true_r.
  apply existsb_exists. exists (fst c + fst d, snd c + snd d). split.
  - unfold neighbours. apply in_map_iff. exists d. auto.
  - apply coord_eqb_eq. reflexivity.
Qed.

(** *** The invariant is established, kept and sufficient *)

Lemma bfs_inv_init :
  bfs_inv tiles rows cols s g 1 [s] [[s]].
Proof.
  constructor.
  - left. reflexivity.
  - intros p [<- | []]. exists s. split; [constructor | left; reflexivity].
  - intros p e w [<- | []] _ Hw. apply (walk_length _ _ Hw).
  - exists [[s]], []. repeat split.
    + intros p [<- | []]. reflexivity.
    + intros p [].
    + discriminate.
  - intros v [<- | []]. right. exists [s]. split; [left; reflexivity | constructor].
  - intros w e Hw Hl. pose proof (walk_length _ _ Hw). lia.
  - intros [<- | []]. exists [s]. split; [left; reflexivity | constructor].
Qed.

Lemma bfs_inv_step L visited p0 rest x y news :
  bfs_inv tiles rows cols s g L visited (p0 :: rest) ->
  Walk p0 (x, y) -> (x, y) <> g ->
  (forall n, In n news ->
     (exists d, In d dirs /\ n = (x + fst d, y + snd d)) /\
     traversable tiles rows cols n = true /\ ~ In n visited) ->
  (forall d, In d dirs ->
     traversable tiles rows cols (x + fst d, y + snd d) = true ->
     In (x + fst d, y + snd d) (rev news ++ visited)) ->
  exists L', bfs_inv tiles rows cols s g L' (rev news ++ visited)
                     (rest ++ map (fun n => p0 ++ [n]) news).
Proof.
  intros [I1 I2 I3 I4 I5 I6 I7] Hp0 Hng Ha Hc.
  set (v' := rev news ++ visited).
  set (q' := rest ++ map (fun n => p0 ++ [n]) news).
  assert (Hincl : incl visited v').
  { intros c Hc'. apply in_or_app. right. exact Hc'. }
  destruct I4 as (A & B & HAB & HA & HB & Hne).
  destruct A as [|a A'].
  { exfalso. apply Hne; [discriminate | reflexivity]. }
  simpl in HAB. injection HAB as Hp0a Hrest. subst a.
  assert (HL : List.length p0 = L) by (apply HA; left; reflexivity).
  assert (Hxclosed : Closed v' (x, y)).
  { intros n Hn. apply step_neighbour in Hn.
    destruct Hn as ((d & Hd & ->) & Ht). simpl in *. apply Hc; assumption. }
  assert (Hreach : forall w e, Walk w e -> (List.length w <= L)%nat ->
                               In e visited).
  { intros w e Hw Hl.
    destruct (walk_inv _ _ Hw) as [[-> ->] | (p & c & -> & Hpc & Hs)];
      [exact I1|].
    apply (I6 p c Hpc); [rewrite length_app in Hl; simpl in Hl; lia | exact Hs]. }
  assert (Hnew : forall n, In n news -> Walk (p0 ++ [n]) n).
  { intros n Hn. destruct (Ha n Hn) as ((d & Hd & Hnd) & Ht & Hv).
    apply walk_step with (c := (x, y)); [exact Hp0|].
    apply neighbour_step with d; auto. }
  assert (Hnewq : forall n, In n news -> In (p0 ++ [n]) q').
  { intros n Hn. apply in_or_app. right. apply in_map_iff. exists n. auto. }
  assert (J1 : In s v') by (apply Hincl, I1).
  assert (J2 : forall p, In p q' -> exists e, Walk p e /\ In e v').
  { intros p Hp. apply in_app_or in Hp. destruct Hp as [Hp | Hp].
    - destruct (I2 p (or_intror Hp)) as (e & He & Hev). exists e. split; auto.
    - apply in_map_iff in Hp. destruct Hp as (n & <- & Hn). exists n.
      split; [apply Hnew, Hn|]. apply in_or_app. left. apply in_rev in Hn.
      exact Hn. }
  assert (J3 : forall p e w, In p q' -> Walk p e -> Walk w e ->
                             (List.length p <= List.length w)%nat).
  { intros p e w Hp Hpe Hw. apply in_app_or in Hp. destruct Hp as [Hp | Hp].
    - apply (I3 p e w); auto. right. exact Hp.
    - apply in_map_iff in Hp. destruct Hp as (n & <- & Hn).
      assert (e = n) by (eapply walk_end_unique; [exact Hpe | apply Hnew, Hn]).
      subst e. rewrite length_app. simpl.
      destruct (Ha n Hn) as (_ & _ & Hnv).
      destruct (Nat.le_gt_cases (List.length w) L) as [Hle | Hgt]; [|lia].
      exfalso. apply Hnv. apply (Hreach w n Hw Hle). }
  assert (J5 : forall v, In v v' ->
             Closed v' v \/ exists p, In p q' /\ Walk p v).
  { intros v Hv. apply in_app_or in Hv. destruct Hv as [Hv | Hv].
    - right. apply in_rev in Hv. exists (p0 ++ [v]). split; auto.
    - destruct (I5 v Hv) as [Hcl | (p & [<- | Hp] & Hpv)].
      + left. eapply closed_mono; eauto.
      + left. assert (v = (x, y)) by (eapply walk_end_unique; eauto).
        subst v. exact Hxclosed.
      + right. exists p. split; [apply in_or_app; left; exact Hp | exact Hpv]. }
  assert (J7 : In g v' -> exists p, In p q' /\ Walk p g).
  { intros Hg. apply in_app_or in Hg. destruct Hg as [Hg | Hg].
    - apply in_rev in Hg. exists (p0 ++ [g]). split; auto.
    - destruct (I7 Hg) as (p & [<- | Hp] & Hpg).
      + exfalso. apply Hng. eapply walk_end_unique; eauto.
      + exists p. split; [apply in_or_app; left; exact Hp | exact Hpg]. }
  destruct A' as [|a' A''].
  - (* the dequeued route was the last of its length *)
    simpl in Hrest. subst rest. exists (S L). constructor; auto.
    + exists q', []. rewrite app_nil_r. split; [reflexivity|].
      split; [|split; [intros p [] | auto]].
      intros p Hp. apply in_app_or in Hp. destruct Hp as [Hp | Hp].
      * apply HB, Hp.
      * apply in_map_iff in Hp. destruct Hp as (n & <- & _).
        rewrite length_app. simpl. lia.
    + intros w e Hw Hl.
      destruct (Nat.eq_dec (List.length w) L) as [HeqL | Hneq].
      * assert (Hev : In e visited) by (apply (Hreach w e Hw); lia).
        destruct (I5 e Hev) as [Hcl | (p & [<- | Hp] & Hpe)].
        -- eapply closed_mono; eauto.
        -- assert (e = (x, y)) by (eapply walk_end_unique; eauto).
           subst e. exact Hxclosed.
        -- exfalso. pose proof (I3 p e w (or_intror Hp) Hpe Hw).
           pose proof (HB p Hp). lia.
      * eapply closed_mono; [exact Hincl|]. apply (I6 w e Hw). lia.
  - (* routes of the same length remain at the head *)
    exists L. constructor; auto.
    + exists (a' :: A''), (B ++ map (fun n => p0 ++ [n]) news).
      split; [|split; [|split]].
      * unfold q'. rewrite Hrest, <- app_assoc. reflexivity.
      * intros p Hp. apply HA. right. exact Hp.
      * intros p Hp. apply in_app_or in Hp. destruct Hp as [Hp | Hp].
        -- apply HB, Hp.
        -- apply in_map_iff in Hp. destruct Hp as (n & <- & _).
           rewrite length_app. simpl. lia.
      * discriminate.
    + intros w e Hw Hl. eapply closed_mono; [exact Hincl|].
      apply (I6 w e Hw Hl).
Qed.

Lemma bfs_inv_empty L visited :
  bfs_inv tiles rows cols s g L visited [] -> forall w, ~ Walk w g.
Proof.
  intros [I1 _ _ _ I5 _ I7] w Hw.
  assert (Hall : forall w e, Walk w e -> In e visited).
  { induction 1 as [|p c n Hpc IH Hs]; [exact I1|].
    destruct (I5 c IH) as [Hcl | (q & [] & _)]. apply Hcl, Hs. }
  destruct (I7 (Hall w g Hw)) as (p & [] & _).
Qed.

End Search.

Section Loop.
Variable tiles : list (list Tile).
Variables rows cols : Z.
Variables s g : coord.

(** *** The termination measure *)

Variables R C : nat.
Hypothesis rows_R : rows = Z.of_nat R.
Hypothesis cols_C : cols = Z.of_nat C.

Lemma in_cells c : in_grid rows cols c = true -> In c (cells R C).
Proof.
  unfold in_grid. rewrite !andb_true_iff, !Z.leb_le, !Z.ltb_lt.
  intros [[[Hx0 Hx1] Hy0] Hy1]. destruct c as [x y]. simpl in *.
  unfold cells. apply in_flat_map. exists (Z.to_nat y). split.
  - apply in_seq. lia.
  - apply in_map_iff. exists (Z.to_nat x). split.
    + f_equal; lia.
    + apply in_seq. lia.
Qed.

Lemma length_cells : List.length (cells R C) = (R * C)%nat.
Proof. apply length_cells_from. Qed.

Lemma filter_has_le (l v : list coord) (n : coord) :
  (List.length (filter (fun c => negb (visited_has (n :: v) c)) l)
   <= List.length (filter (fun c => negb (visited_has v c)) l))%nat.
Proof.
  induction l as [|a l IH]; [simpl; lia|].
  cbn [filter]. rewrite visited_has_cons.
  destruct (coord_eqb a n), (visited_has v a); cbn [orb negb List.length]; lia.
Qed.

Lemma filter_has_lt (l v : list coord) (n : coord) :
  In n l -> ~ In n v ->
  (List.length (filter (fun c => negb (visited_has (n :: v) c)) l)
   < List.length (filter (fun c => negb (visited_has v c)) l))%nat.
Proof.
  intros Hin Hnv. induction l as [|a l IH]; [contradiction|].
  cbn [filter]. rewrite visited_has_cons. destruct Hin as [-> | Hin].
  - assert (E : coord_eqb n n = true) by (apply coord_eqb_eq; reflexivity).
    rewrite E. apply visited_has_false in Hnv. rewrite Hnv.
    cbn [orb negb List.length].
    pose proof (filter_has_le l v n). lia.
  - specialize (IH Hin).
    destruct (coord_eqb a n), (visited_has v a);
      cbn [orb negb List.length]; lia.
Qed.

Lemma unvisited_add v n :
  in_grid rows cols n = true -> ~ In n v ->
  (unvisited R C (n :: v) < unvisited R C v)%nat.
Proof.
  intros Hg Hn. unfold unvisited. apply filter_has_lt; [|exact Hn].
  apply in_cells, Hg.
Qed.

Lemma unvisited_le_cells v : (unvisited R C v <= R * C)%nat.
Proof.
  unfold unvisited. rewrite <- length_cells. apply filter_length_le.
Qed.

(** *** One iteration: the loop over [dirs] *)

Hypothesis grid_ok : forall c,
  in_grid rows cols c = true -> tile_at tiles (fst c) (snd c) <> None.

Lemma expand_spec path x y :
  forall ds visited queue,
  exists news,
    expand tiles rows cols path x y ds visited queue
      = Returns (rev news ++ visited,
                 queue ++ map (fun n => path ++ [n]) news) /\
    (forall n, In n news ->
       (exists d, In d ds /\ n = (x + fst d, y + snd d)) /\
       traversable tiles rows cols n = true /\ ~ In n visited) /\
    (forall d, In d ds ->
       traversable tiles rows cols (x + fst d, y + snd d) = true ->
       In (x + fst d, y + snd d) (rev news ++ visited)) /\
    (unvisited R C (rev news ++ visited) + List.length news
       <= unvisited R C visited)%nat.
Proof.
  induction ds as [|[dx dy] ds IH]; intros visited queue.
  - exists []. simpl. rewrite app_nil_r. repeat split; try tauto; try lia.
  - cbn [expand].
    destruct ((x + dx <? 0) || (y + dy <? 0) || (x + dx >=? cols)
              || (y + dy >=? rows)) eqn:Hout.
    { (* outside the grid *)
      destruct (IH visited queue) as (news & He & Ha & Hc & Hm).
      exists news. split; [exact He|]. split; [|split; [|exact Hm]].
      - intros n Hn. destruct (Ha n Hn) as ((d & Hd & Hnd) & Ht & Hv).
        split; [exists d; split; [right; exact Hd | exact Hnd] | auto].
      - intros d [<- | Hd] Ht; [|apply Hc; assumption].
        exfalso. simpl in Ht. unfold traversable, in_grid in Ht. simpl in Ht.
        rewrite !orb_true_iff, !Z.ltb_lt, !Z.geb_le in Hout.
        rewrite !andb_true_iff, !Z.leb_le, !Z.ltb_lt in Ht. lia. }
    destruct (visited_has visited (x + dx, y + dy)) eqn:Hvis.
    { (* already visited *)
      destruct (IH visited queue) as (news & He & Ha & Hc & Hm).
      exists news. split; [exact He|]. split; [|split; [|exact Hm]].
      - intros n Hn. destruct (Ha n Hn) as ((d & Hd & Hnd) & Ht & Hv).
        split; [exists d; split; [right; exact Hd | exact Hnd] | auto].
      - intros d [<- | Hd] Ht; [|apply Hc; assumption].
        simpl. apply in_or_app. right. apply visited_has_In, Hvis. }
    assert (Hin : in_grid rows cols (x + dx, y + dy) = true).
    { unfold in_grid. simpl.
      rewrite !orb_false_iff, !Z.ltb_ge, !Z.geb_leb, !Z.leb_gt in Hout.
      rewrite !andb_true_iff, !Z.leb_le, !Z.ltb_lt. lia. }
    destruct (tile_at tiles (x + dx) (y + dy)) as [tile|] eqn:Htile.
    2:{ exfalso. apply (grid_ok _ Hin). exact Htile. }
    destruct (is_void tile) eqn:Hvoid.
    { (* impassable *)
      destruct (IH visited queue) as (news & He & Ha & Hc & Hm).
      exists news. split; [exact He|]. split; [|split; [|exact Hm]].
      - intros n Hn. destruct (Ha n Hn) as ((d & Hd & Hnd) & Ht & Hv).
        split; [exists d; split; [right; exact Hd | exact Hnd] | auto].
      - intros d [<- | Hd] Ht; [|apply Hc; assumption].
        exfalso. simpl in Ht. unfold traversable in Ht. simpl in Ht.
        rewrite Htile, Hvoid, andb_false_r in Ht. discriminate. }
    (* a new tile is enqueued *)
    destruct (IH ((x + dx, y + dy) :: visited)
                 (queue ++ [path ++ [(x + dx, y + dy)]]))
      as (news & He & Ha & Hc & Hm).
    apply visited_has_false in Hvis.
    exists ((x + dx, y + dy) :: news).
    cbn [rev]. rewrite <- !app_assoc. cbn [app].
    split; [|split; [|split]].
    + rewrite He. cbn [map]. rewrite <- app_assoc. reflexivity.
    + intros n [<- | Hn].
      * split; [exists (dx, dy); split; [left; reflexivity | reflexivity]|].
        split; [|exact Hvis].
        unfold traversable. simpl. rewrite Hin, Htile, Hvoid. reflexivity.
      * destruct (Ha n Hn) as ((d & Hd & Hnd) & Ht & Hv).
        split; [exists d; split; [right; exact Hd | exact Hnd]|].
        split; [exact Ht|]. intros Hc'. apply Hv. right. exact Hc'.
    + intros d [<- | Hd] Ht; [|apply Hc; assumption].
      simpl. apply in_or_app. right. left. reflexivity.
    + pose proof (unvisited_add visited (x + dx, y + dy) Hin Hvis).
      simpl List.length. unfold coord in *. lia.
Qed.


Lemma bfs_loop_correct :
  forall fuel L visited queue,
    bfs_inv tiles rows cols s g L visited queue ->
    (unvisited R C visited + List.length queue < fuel)%nat ->
    exists r, bfs_loop fuel tiles rows cols g visited queue = Returns r /\
              search_post tiles rows cols s g r.
Proof.
  induction fuel as [|fuel IH]; intros L visited queue Hinv Hm; [lia|].
  destruct queue as [|p0 rest].
  - exists None. split; [reflexivity|]. simpl. eapply bfs_inv_empty; eauto.
  - cbn [bfs_loop].
    destruct (inv_walks _ _ _ _ _ _ _ _ Hinv p0 (or_introl eq_refl))
      as (e & Hp0 & Hev).
    rewrite (walk_end _ _ _ _ _ _ Hp0). destruct e as [x y].
    destruct ((x =? fst g) && (y =? snd g)) eqn:Hgoal.
    + exists (Some p0). split; [reflexivity|].
      assert (Hg : (x, y) = g).
      { apply coord_eqb_eq. exact Hgoal. }
      simpl. rewrite <- Hg. split; [exact Hp0|]. intros w Hw.
      eapply (inv_short _ _ _ _ _ _ _ _ Hinv); eauto. left. reflexivity.
    + destruct (expand_spec p0 x y dirs visited rest)
        as (news & He & Ha & Hc & Hmeas).
      rewrite He.
      assert (Hng : (x, y) <> g).
      { intros Heq. apply coord_eqb_eq in Heq. unfold coord_eqb in Heq.
        simpl in Heq. congruence. }
      destruct (bfs_inv_step tiles rows cols s g L visited p0 rest x y news
                  Hinv Hp0 Hng Ha Hc)
        as (L' & Hinv').
      apply (IH L'); [exact Hinv'|].
      rewrite length_app, length_map. simpl in Hm. lia.
Qed.

End Loop.

(** *** findPath on a rectangular grid *)

Lemma rectangular_grid_ok (tiles : list (list Tile)) :
  rectangular tiles ->
  forall c, in_grid (grid_rows tiles) (grid_cols tiles) c = true ->
            tile_at tiles (fst c) (snd c) <> None.
Proof.
  intros [_ Hlen] [x y]. unfold in_grid, grid_rows, grid_cols, tile_at. simpl.
  rewrite !andb_true_iff, !Z.leb_le, !Z.ltb_lt. intros [[[Hx0 Hx1] Hy0] Hy1].
  destruct (nth_error tiles (Z.to_nat y)) as [row|] eqn:Hrow.
  - apply nth_error_In in Hrow. apply Hlen in Hrow.
    apply nth_error_Some. lia.
  - apply nth_error_None in Hrow. lia.
Qed.

Lemma findPath_loop (start goal : coord) (tiles : list (list Tile)) :
  tiles <> [] ->
  findPath start goal tiles =
  bfs_loop (S (S (List.length tiles * List.length (hd [] tiles)))) tiles
           (grid_rows tiles) (grid_cols tiles) goal [start] [[start]].
Proof. destruct tiles as [|row0 rest]; [congruence | reflexivity]. Qed.

Lemma findPath_total (start goal : coord) (tiles : list (list Tile)) :
  rectangular tiles ->
  exists r, findPath start goal tiles = Returns r /\
            search_post tiles (grid_rows tiles) (grid_cols tiles) start goal r.
Proof.
  intros Hrect. rewrite findPath_loop by apply Hrect.
  apply (bfs_loop_correct tiles (grid_rows tiles) (grid_cols tiles) start goal
           (List.length tiles) (List.length (hd [] tiles))
           eq_refl eq_refl (rectangular_grid_ok tiles Hrect) _ 1%nat).
  - apply bfs_inv_init.
  - pose proof (unvisited_le_cells (List.length tiles)
                  (List.length (hd [] tiles)) [start]).
    simpl List.length. lia.
Qed.

(** *** Routes and the Manhattan distance *)

Lemma step_manhattan (tiles : list (list Tile)) (rows cols : Z)
    (s c n : coord) :
  can_step tiles rows cols c n = true ->
  manhattan s n <= manhattan s c + 1.
Proof.
  intros Hs. apply step_neighbour in Hs. destruct Hs as ((d & Hd & ->) & _).
  unfold manhattan. simpl.
  unfold dirs in Hd. simpl in Hd.
  destruct Hd as [<- | [<- | [<- | [<- | []]]]]; simpl; lia.
Qed.

Lemma walk_manhattan (tiles : list (list Tile)) (rows cols : Z)
    (s : coord) (w : list coord) (e : coord) :
  walk tiles rows cols s w e ->
  manhattan s e <= Z.of_nat (List.length w) - 1.
Proof.
  induction 1 as [|p c n Hpc IH Hs].
  - unfold manhattan. simpl. lia.
  - pose proof (step_manhattan _ _ _ s c n Hs).
    rewrite length_app. simpl. lia.
Qed.

Lemma open_grid_traversable (tiles : list (list Tile)) (c : coord) :
  rectangular tiles -> no_void tiles ->
  in_grid (grid_rows tiles) (grid_cols tiles) c = true ->
  traversable tiles (grid_rows tiles) (grid_cols tiles) c = true.
Proof.
  intros Hrect Hopen Hin. unfold traversable. rewrite Hin. simpl.
  pose proof (rectangular_grid_ok tiles Hrect c Hin) as Hsome.
  unfold tile_at in *.
  destruct (nth_error tiles (Z.to_nat (snd c))) as [row|] eqn:Hrow;
    [|congruence].
  destruct (nth_error row (Z.to_nat (fst c))) as [t|] eqn:Ht; [|congruence].
  apply nth_error_In in Hrow, Ht. rewrite (Hopen row t Hrow Ht). reflexivity.
Qed.

Lemma open_grid_route (tiles : list (list Tile)) (s : coord) :
  rectangular tiles -> no_void tiles ->
  in_grid (grid_rows tiles) (grid_cols tiles) s = true ->
  forall (n : nat) (e : coord),
    in_grid (grid_rows tiles) (grid_cols tiles) e = true ->
    manhattan s e = Z.of_nat n ->
    exists w, walk tiles (grid_rows tiles) (grid_cols tiles) s w e /\
              List.length w = S n.
Proof.
  intros Hrect Hopen Hs. destruct s as [sx sy].
  assert (Hs' := Hs). unfold in_grid in Hs'. simpl in Hs'.
  rewrite !andb_true_iff, !Z.leb_le, !Z.ltb_lt in Hs'.
  induction n as [|n IH]; intros [ex ey] He Hd.
  - unfold manhattan in Hd. simpl in Hd.
    assert (ex = sx /\ ey = sy) as [-> ->] by lia.
    exists [(sx, sy)]. split; [constructor | reflexivity].
  - assert (He' := He). unfold in_grid in He'. simpl in He'.
    rewrite !andb_true_iff, !Z.leb_le, !Z.ltb_lt in He'.
    unfold manhattan in Hd. simpl in Hd.
    assert (Hpred : exists c d, In d dirs /\
              (ex, ey) = (fst c + fst d, snd c + snd d) /\
              in_grid (grid_rows tiles) (grid_cols tiles) c = true /\
              manhattan (sx, sy) c = Z.of_nat n).
    { unfold in_grid, manhattan, dirs.
      destruct (Z.lt_trichotomy sx ex) as [Hlt | [Heq | Hgt]].
      - exists (ex - 1, ey), (1, 0). simpl.
        rewrite !andb_true_iff, !Z.leb_le, !Z.ltb_lt.
        repeat split; try lia; auto. f_equal; lia.
      - destruct (Z.lt_trichotomy sy ey) as [Hlt | [Heq' | Hgt]].
        + exists (ex, ey - 1), (0, 1). simpl.
          rewrite !andb_true_iff, !Z.leb_le, !Z.ltb_lt.
          repeat split; try lia; auto 6. f_equal; lia.
        + lia.
        + exists (ex, ey + 1), (0, -1). simpl.
          rewrite !andb_true_iff, !Z.leb_le, !Z.ltb_lt.
          repeat split; try lia; auto 6. f_equal; lia.
      - exists (ex + 1, ey), (-1, 0). simpl.
        rewrite !andb_true_iff, !Z.leb_le, !Z.ltb_lt.
        repeat split; try lia; auto. f_equal; lia. }
    destruct Hpred as (c & d & Hdin & Hed & Hc & Hcd).
    destruct (IH c Hc Hcd) as (w & Hw & Hlen).
    exists (w ++ [(ex, ey)]). split.
    + apply walk_step with c; [exact Hw|].
      apply neighbour_step with d; auto.
      apply open_grid_traversable; auto.
    + rewrite length_app, Hlen. simpl. lia.
Qed.

(** C4.  findPath is a breadth-first search of the 4-connected grid whose
    traversable tiles are those whose terrain is not "void", expanding
    neighbours in the order +x, -x, +y, -y.  On a rectangular grid it
    always returns: a route from start to end, both included, that no
    other route undercuts, or null exactly when no route exists.  In a room
    without "void" tiles the route between two tiles of the room has as
    many edges as their Manhattan distance. *)
Theorem findPath_bfs_shortest (tiles : list (list Tile)) (start goal : coord)
    (Hrect : rectangular tiles) :
  dirs = [(1, 0); (-1, 0); (0, 1); (0, -1)] /\
  exists r,
    findPath start goal tiles = Returns r /\
    search_post tiles (grid_rows tiles) (grid_cols tiles) start goal r /\
    (no_void tiles ->
     in_grid (grid_rows tiles) (grid_cols tiles) start = true ->
     in_grid (grid_rows tiles) (grid_cols tiles) goal = true ->
     exists p, r = Some p /\
               Z.of_nat (List.length p) - 1 = manhattan start goal).
Proof.
  split; [reflexivity|].
  destruct (findPath_total start goal tiles Hrect) as (r & Hr & Hpost).
  exists r. split; [exact Hr|]. split; [exact Hpost|].
  intros Hopen Hs Hg.
  assert (Hn : 0 <= manhattan start goal) by (unfold manhattan; lia).
  destruct (open_grid_route tiles start Hrect Hopen Hs
              (Z.to_nat (manhattan start goal)) goal Hg)
    as (w & Hw & Hlen); [lia|].
  destruct r as [p|]; simpl in Hpost.
  - exists p. split; [reflexivity|]. destruct Hpost as [Hp Hmin].
    pose proof (Hmin w Hw). pose proof (walk_manhattan _ _ _ _ _ _ Hp). lia.
  - exfalso. apply (Hpost w Hw).
Qed.

Lemma open2x2_rectangular : rectangular open2x2.
Proof.
  split; [discriminate|].
  intros row [<- | [<- | []]]; reflexivity.
Qed.
(** ** Pickup *)



(** ** The respawn cycle *)

Lemma respawn_due_iff (now : Z) (inst : Obj.t) :
  respawn_due now inst = true <->
  exists owner r removed,
    Obj.pickedUpBy inst = Some owner /\
    Obj.respawnAfterSec inst = Some r /\ Obj.removedAt inst = Some removed /\
    r <> 0 /\ removed <> 0 /\ now - removed >= r.
Proof.
  unfold respawn_due, truthy. split.
  - destruct (Obj.pickedUpBy inst) as [owner|]; [|discriminate].
    destruct (Obj.respawnAfterSec inst) as [r|]; [|discriminate].
    destruct (Obj.removedAt inst) as [removed|]; [|discriminate].
    rewrite !andb_true_iff, !negb_true_iff, !Z.eqb_neq, Z.geb_le.
    intros [[Hr Hrem] Hel]. exists owner, r, removed. repeat split; auto. lia.
  - intros (owner & r & removed & -> & -> & -> & Hr & Hrem & Hel).
    rewrite !andb_true_iff, !negb_true_iff, !Z.eqb_neq, Z.geb_le.
    repeat split; auto. lia.
Qed.

(** A removal stamped at tick 0 is never due. *)
Lemma respawn_due_removed_at_0 (now : Z) (inst : Obj.t) :
  Obj.removedAt inst = Some 0 -> respawn_due now inst = false.
Proof.
  intros H. unfold respawn_due. rewrite H.
  destruct (Obj.pickedUpBy inst), (Obj.respawnAfterSec inst); try reflexivity.
  simpl. rewrite andb_false_r. reflexivity.
Qed.

(** What the sweep does to the registry, whether or not a write fails:
    every entry stays in its slot, as it was or respawned. *)
Lemma respawn_sweep_shape (now : Z) :
  forall todo before st st' out crashed,
    respawn_sweep now before todo st = (st', out, crashed) ->
    objectInstances st = before ++ todo ->
    exists todo',
      objectInstances st' = before ++ todo' /\
      Forall2 (fun i i' => i' = i \/
                           (respawn_due now i = true /\ i' = respawned i))
              todo todo'.
Proof.
  induction todo as [|inst rest IH]; intros before st st' out crashed Hrun Hst.
  - simpl in Hrun. injection Hrun as <- _ _. exists []. split; auto.
  - cbn [respawn_sweep] in Hrun.
    destruct (respawn_due now inst) eqn:Hdue.
    + unfold saveObjectsState in Hrun.
      destruct (writable _) eqn:Hw.
      * destruct (respawn_sweep now (before ++ [respawned inst]) rest _)
          as [[st3 out3] c3] eqn:Hrest.
        injection Hrun as <- _ _.
        destruct (IH _ _ _ _ _ Hrest) as (todo' & Hobjs & Hall).
        { simpl. rewrite <- app_assoc. reflexivity. }
        exists (respawned inst :: todo'). split.
        -- rewrite Hobjs, <- app_assoc. reflexivity.
        -- constructor; auto.
      * injection Hrun as <- _ _. exists (respawned inst :: rest). split.
        -- reflexivity.
        -- constructor; auto. clear. induction rest; constructor; auto.
    + destruct (IH _ _ _ _ _ Hrun) as (todo' & Hobjs & Hall).
      { rewrite Hst, <- app_assoc. reflexivity. }
      exists (inst :: todo'). split.
      * rewrite Hobjs, <- app_assoc. reflexivity.
      * constructor; auto.
Qed.

(** On a writable disk the sweep respawns exactly the instances that are
    due, writes the registry, and broadcasts one object-spawned per
    respawn to the room of the instance. *)
Lemma respawn_sweep_writable (now : Z) :
  forall todo before st,
    writable (disk st) = true ->
    exists st',
      respawn_sweep now before todo st
        = (st',
           flat_map (fun i => if respawn_due now i
                              then broadcastToRoom st (Obj.zone i)
                                     (Obj.roomId i)
                                     (MObjectSpawned (respawned i))
                              else []) todo,
           false) /\
      (existsb (respawn_due now) todo = true ->
       objectInstances st'
         = before ++ map (fun i => if respawn_due now i then respawned i
                                   else i) todo) /\
      (existsb (respawn_due now) todo = false -> st' = st) /\
      clients st' = clients st /\ positions st' = positions st /\
      writable (disk st') = true.
Proof.
  induction todo as [|inst rest IH]; intros before st Hw.
  - exists st. simpl. repeat split; auto. discriminate.
  - cbn [respawn_sweep flat_map existsb map].
    destruct (respawn_due now inst) eqn:Hdue.
    + unfold saveObjectsState. cbn [set_objectInstances disk]. rewrite Hw.
      set (st2 := set_disk _ _).
      destruct (IH (before ++ [respawned inst]) st2 Hw)
        as (st' & Hrun & Hyes & Hno & Hc & Hp & Hw').
      exists st'. rewrite Hrun. split; [|split; [|split; [discriminate|]]].
      * reflexivity.
      * intros _. cbn [orb].
        destruct (existsb (respawn_due now) rest) eqn:Hex.
        -- rewrite (Hyes eq_refl), <- app_assoc. reflexivity.
        -- rewrite (Hno eq_refl). unfold st2. simpl.
           f_equal. f_equal. clear - Hex.
           induction rest as [|a rest IH]; [reflexivity|].
           simpl in Hex. apply orb_false_iff in Hex. destruct Hex as [Ha Hr].
           simpl. rewrite Ha, <- IH; auto.
      * repeat split; auto.
    + destruct (IH (before ++ [inst]) st Hw)
        as (st' & Hrun & Hyes & Hno & Hc & Hp & Hw').
      exists st'. rewrite Hrun. split; [reflexivity|].
      split; [|split; [|auto]].
      * cbn [orb]. intros Hex. rewrite (Hyes Hex), <- app_assoc. reflexivity.
      * cbn [orb]. exact Hno.
Qed.

(** C2 (the code departs from the claim).  I1 respawns after 5; Ava picks
    it up while the clock stands at tick 0, so the removal is stamped 0.
    Ten ticks later tick - removedAt = 10 >= 5, yet the instance is still
    hers and no object-spawned was sent: the sweep tests [inst.removedAt]
    for truthiness, and 0 is falsy. *)
Theorem respawn_skips_removal_stamped_at_tick_0 :
  let events :=
    EvMessage 0 (Some (VObj pickup_msg)) :: repeat (EvTick no_random) 10 in
  let result := run sample_pbkdf2 sample_zones events sample_state in
  map Obj.respawnAfterSec (objectInstances sample_state) = [Some 5] /\
  tick (gameTime (fst result)) = 10 /\
  map Obj.removedAt (objectInstances (fst result)) = [Some 0] /\
  map Obj.pickedUpBy (objectInstances (fst result)) = [Some "Ava"%string] /\
  existsb is_object_spawned (snd result) = false /\
  forall now inst,
    Obj.removedAt inst = Some 0 -> respawn_due now inst = false.
Proof.
  cbv zeta. repeat split; try (vm_compute; reflexivity).
  apply respawn_due_removed_at_0.
Qed.

(** The same pickup one tick later is stamped 1 and respawns at tick 6,
    the first tick with tick - removedAt >= 5, with one object-spawned. *)
Lemma respawn_after_removal_stamped_at_tick_1 :
  let events n :=
    EvTick no_random :: EvMessage 0 (Some (VObj pickup_msg))
    :: repeat (EvTick no_random) n in
  let result n := run sample_pbkdf2 sample_zones (events n) sample_state in
  map Obj.pickedUpBy (objectInstances (fst (result 4%nat)))
    = [Some "Ava"%string] /\
  map Obj.pickedUpBy (objectInstances (fst (result 5%nat))) = [None] /\
  filter is_object_spawned (snd (result 5%nat))
    = [Send 0%nat (MObjectSpawned sample_obj)] /\
  filter is_object_spawned (snd (result 9%nat))
    = [Send 0%nat (MObjectSpawned sample_obj)].
Proof. cbv zeta. repeat split; vm_compute; reflexivity. Qed.
(** ** The tick: frames of its phases *)

Lemma same_clock_and_clients_refl (st : State) : same_clock_and_clients st st.
Proof. unfold same_clock_and_clients. repeat split. Qed.

Lemma same_clock_and_clients_trans (a b c : State) :
  same_clock_and_clients a b -> same_clock_and_clients b c ->
  same_clock_and_clients a c.
Proof.
  unfold same_clock_and_clients.
  intros (A1 & A2 & A3 & A4 & A5 & A6 & A7 & A8 & A9 & A10)
         (B1 & B2 & B3 & B4 & B5 & B6 & B7 & B8 & B9 & B10).
  repeat split; congruence.
Qed.

Lemma filter_none {A : Type} (f : A -> bool) (l : list A) :
  (forall a, In a l -> f a = false) -> filter f l = [].
Proof.
  induction l as [|a l IH]; intros H; [reflexivity|].
  simpl. rewrite (H a (or_introl eq_refl)). apply IH.
  intros b Hb. apply H. right. exact Hb.
Qed.

Lemma filter_all {A : Type} (f : A -> bool) (l : list A) :
  (forall a, In a l -> f a = true) -> filter f l = l.
Proof.
  induction l as [|a l IH]; intros H; [reflexivity|].
  simpl. rewrite (H a (or_introl eq_refl)). f_equal. apply IH.
  intros b Hb. apply H. right. exact Hb.
Qed.

Lemma respawn_sweep_frame (now : Z) :
  forall todo before st st' out crashed,
    respawn_sweep now before todo st = (st', out, crashed) ->
    same_clock_and_clients st st' /\
    npcInstances st' = npcInstances st /\ npcTimers st' = npcTimers st /\
    (forall e, In e out -> is_object_spawned e = true).
Proof.
  induction todo as [|inst rest IH]; intros before st st' out crashed Hrun.
  - simpl in Hrun. injection Hrun as <- <- _.
    split; [apply same_clock_and_clients_refl|].
    split; [reflexivity|]. split; [reflexivity|]. intros e [].
  - cbn [respawn_sweep] in Hrun.
    destruct (respawn_due now inst).
    + unfold saveObjectsState in Hrun. destruct (writable _) eqn:Hw.
      * destruct (respawn_sweep now (before ++ [respawned inst]) rest _)
          as [[st3 out3] c3] eqn:Hrest.
        injection Hrun as <- <- _.
        destruct (IH _ _ _ _ _ Hrest) as (Hsame & Hn & Ht & Hout).
        split; [|split; [exact Hn | split; [exact Ht|]]].
        -- eapply same_clock_and_clients_trans; [|exact Hsame].
           unfold same_clock_and_clients. repeat split.
        -- intros e He. apply in_app_or in He. destruct He as [He | He].
           ++ apply broadcastToRoom_sends in He. destruct He as [to ->].
              reflexivity.
           ++ apply Hout, He.
      * injection Hrun as <- <- _.
        split; [unfold same_clock_and_clients; repeat split|].
        split; [reflexivity|]. split; [reflexivity|]. intros e [].
    + apply (IH _ _ _ _ _ Hrun).
Qed.

Section TickFrames.
Variable zones : list ZoneDef.
Variable random : nat -> Q.

Lemma startNpcMovementTimer_frame (instanceId : string) (npcSlot : nat)
    (target : coord) (delay : Z) (st : State) :
  let st' := startNpcMovementTimer instanceId npcSlot target delay st in
  same_clock_and_clients st st' /\
  objectInstances st' = objectInstances st /\
  npcInstances st' = npcInstances st /\
  objectsStateFile (disk st') = objectsStateFile (disk st) /\
  npcStateFile (disk st') = npcStateFile (disk st).
Proof.
  unfold startNpcMovementTimer, clearNpcMovementTimer.
  destruct (map_get String.eqb instanceId (npcTimers st));
    unfold same_clock_and_clients; repeat split.
Qed.

Lemma roam_npc_frame (k npcSlot : nat) (npc : Npc.t) (st st' : State)
    (out : list Effect) (k' : nat) (crashed : bool) :
  roam_npc zones random k npcSlot npc st = (st', out, k', crashed) ->
  same_clock_and_clients st st' /\
  objectInstances st' = objectInstances st /\
  npcInstances st' = npcInstances st /\
  objectsStateFile (disk st') = objectsStateFile (disk st) /\
  npcStateFile (disk st') = npcStateFile (disk st) /\
  (forall e, In e out -> is_npc_start_path e = true).
Proof.
  unfold roam_npc. intros Hrun.
  repeat match type of Hrun with
         | context [match ?x with _ => _ end] => destruct x eqn:?
         end;
    injection Hrun as <- <- <- <-;
    first
      [ solve [split; [apply same_clock_and_clients_refl|];
               split; [reflexivity|]; split; [reflexivity|];
               split; [reflexivity|]; split; [reflexivity|]; intros e []]
      | idtac ].
  all: match goal with
       | |- context [startNpcMovementTimer ?a ?b ?c ?d ?e] =>
           destruct (startNpcMovementTimer_frame a b c d e)
             as (H1 & H2 & H3 & H4 & H5)
       end.
  all: split; [exact H1|]; split; [exact H2|]; split; [exact H3|];
       split; [exact H4|]; split; [exact H5|].
  all: intros e He; apply broadcastToRoom_sends in He; destruct He as [to ->];
       reflexivity.
Qed.

Lemma roam_all_frame :
  forall npcs k npcSlot st st' out k' crashed,
    roam_all zones random k npcSlot npcs st = (st', out, k', crashed) ->
    same_clock_and_clients st st' /\
    objectInstances st' = objectInstances st /\
    npcInstances st' = npcInstances st /\
    objectsStateFile (disk st') = objectsStateFile (disk st) /\
    npcStateFile (disk st') = npcStateFile (disk st) /\
    (forall e, In e out -> is_npc_start_path e = true).
Proof.
  induction npcs as [|npc rest IH]; intros k npcSlot st st' out k' crashed Hrun.
  - simpl in Hrun. injection Hrun as <- <- _ _.
    split; [apply same_clock_and_clients_refl|].
    split; [reflexivity|]. split; [reflexivity|].
    split; [reflexivity|]. split; [reflexivity|]. intros e [].
  - cbn [roam_all] in Hrun.
    destruct (roam_npc zones random k npcSlot npc st)
      as [[[st1 out1] k1] c1] eqn:Hone.
    apply roam_npc_frame in Hone.
    destruct Hone as (A1 & A2 & A3 & A4 & A5 & A6).
    destruct c1.
    + injection Hrun as <- <- _ _. auto 10.
    + destruct (roam_all zones random k1 (S npcSlot) rest st1)
        as [[[st2 out2] k2] c2] eqn:Hrest.
      injection Hrun as <- <- _ _.
      destruct (IH _ _ _ _ _ _ _ Hrest) as (B1 & B2 & B3 & B4 & B5 & B6).
      split; [eapply same_clock_and_clients_trans; eauto|].
      split; [congruence|]. split; [congruence|].
      split; [congruence|]. split; [congruence|].
      intros e He. apply in_app_or in He. destruct He; auto.
Qed.

Lemma behavior_onTick_sends (b : BehaviorModule) (toss : Q) (npc : Npc.t)
    (st : State) (e : Effect) :
  In e (behavior_onTick b toss npc st) -> is_time_update e = false.
Proof.
  unfold behavior_onTick. intros He.
  repeat match type of He with
         | context [match ?x with _ => _ end] => destruct x
         end;
    try contradiction;
    repeat (apply in_app_or in He; destruct He as [He | He]);
    apply broadcastToRoom_sends in He; destruct He as [to ->]; reflexivity.
Qed.

Lemma behaviors_all_sends :
  forall npcs k st e,
    In e (behaviors_all random k npcs st) -> is_time_update e = false.
Proof.
  induction npcs as [|npc rest IH]; intros k st e He; [contradiction|].
  simpl in He. destruct (Npc.behavior npc).
  - apply in_app_or in He. destruct He as [He | He].
    + eapply behavior_onTick_sends; eauto.
    + eapply IH; eauto.
  - eapply IH; eauto.
Qed.

End TickFrames.

Lemma spawned_not_time (e : Effect) :
  is_object_spawned e = true -> is_time_update e = false.
Proof. destruct e as [to [] | |]; simpl; congruence. Qed.

Lemma start_path_not_time (e : Effect) :
  is_npc_start_path e = true -> is_time_update e = false.
Proof. destruct e as [to [] | |]; simpl; congruence. Qed.

(** The state and the sends of a whole tick, as far as the clock goes. *)
Lemma on_tick_clock (zones : list ZoneDef) (random : nat -> Q) (st : State) :
  let result := on_tick zones random st in
  same_clock_and_clients (fst (tick_clock st)) (fst (fst result)) /\
  filter is_time_update (snd (fst result)) = snd (tick_clock st) /\
  filter is_time_update (snd (tick_clock st)) = snd (tick_clock st).
Proof.
  cbv zeta. unfold on_tick.
  destruct (tick_clock st) as [st1 out1] eqn:Hclock.
  assert (Hout1 : filter is_time_update out1 = out1).
  { unfold tick_clock in Hclock.
    destruct (Z.rem _ 60 =? 0); injection Hclock as <- <-; [|reflexivity].
    apply filter_all. intros e He. apply sendToAll_sends in He.
    destruct He as [to ->]. reflexivity. }
  unfold tick_respawn.
  destruct (respawn_sweep _ _ _ st1) as [[st2 out2] c2] eqn:Hsweep.
  apply respawn_sweep_frame in Hsweep.
  destruct Hsweep as (A1 & A2 & A3 & A4).
  assert (Hout2 : filter is_time_update out2 = []).
  { apply filter_none. intros e He. apply spawned_not_time, A4, He. }
  destruct c2.
  { simpl. rewrite filter_app, Hout1, Hout2, app_nil_r. auto. }
  destruct (roam_all zones random 0 0 (npcInstances st2) st2)
    as [[[st3 out3] k] c3] eqn:Hroam.
  apply roam_all_frame in Hroam.
  destruct Hroam as (B1 & B2 & B3 & B4 & B5 & B6).
  assert (Hout3 : filter is_time_update out3 = []).
  { apply filter_none. intros e He. apply start_path_not_time, B6, He. }
  destruct c3; simpl.
  - rewrite !filter_app, Hout1, Hout2, Hout3, !app_nil_r.
    split; [eapply same_clock_and_clients_trans; eauto | auto].
  - rewrite !filter_app, Hout1, Hout2, Hout3.
    rewrite (filter_none is_time_update (behaviors_all random k _ st3)).
    + rewrite !app_nil_r.
      split; [eapply same_clock_and_clients_trans; eauto | auto].
    + intros e He. eapply behaviors_all_sends; eauto.
Qed.
(** ** The clock *)

Lemma advance_clock_tick (g : GameTime) : tick (advance_clock g) = tick g + 1.
Proof.
  unfold advance_clock.
  destruct (Z.rem (tick g + 1) 60 =? 0); [|reflexivity].
  destruct (Z.rem (hour g + 1) 24 =? 0); reflexivity.
Qed.

Lemma rollover_hour (g : GameTime) :
  clock_consistent g -> (tick g + 1) mod (60 * 24) = 0 ->
  Z.rem (tick g + 1) 60 = 0 /\ Z.rem (hour g + 1) 24 = 0.
Proof.
  intros [Hpos Hhour] Hroll. rewrite Hhour.
  rewrite !Z.rem_mod_nonneg; try lia.
  - Z.to_euclidean_division_equations. lia.
  - pose proof (Z.mod_pos_bound (tick g / 60) 24). lia.
Qed.

(** C6.  Every tick increments the tick counter.  On every 60th tick the
    hour is incremented, the clock is written to disk and a time-update
    goes to all connections; an incremented hour that is a multiple of 24
    increments the day once and resets the hour to 0.  Otherwise hour, day
    and the clock file stay and no time-update is sent.  So when, from a
    consistent clock, the tick count reaches a multiple of 60 * 24, the day
    increments once, the hour is 0, and the one time-update broadcast to
    all connections carries the new day and hour 0. *)
Theorem tick_advances_clock (zones : list ZoneDef) (random : nat -> Q)
    (st : State) :
  let st' := fst (fst (on_tick zones random st)) in
  let out := snd (fst (on_tick zones random st)) in
  let g := gameTime st in
  let g' := gameTime st' in
  tick g' = tick g + 1 /\
  (Z.rem (tick g + 1) 60 = 0 ->
   (Z.rem (hour g + 1) 24 = 0 -> hour g' = 0 /\ day g' = day g + 1) /\
   (Z.rem (hour g + 1) 24 <> 0 -> hour g' = hour g + 1 /\ day g' = day g) /\
   (writable (disk st) = true -> stateFile (disk st') = Some g') /\
   filter is_time_update out
     = sendToAll st (MTimeUpdate (getFormattedTimeMessage g'))) /\
  (Z.rem (tick g + 1) 60 <> 0 ->
   hour g' = hour g /\ day g' = day g /\
   stateFile (disk st') = stateFile (disk st) /\
   filter is_time_update out = []) /\
  (clock_consistent g -> (tick g + 1) mod (60 * 24) = 0 ->
   day g' = day g + 1 /\ hour g' = 0 /\
   exists t,
     filter is_time_update out = sendToAll st (MTimeUpdate t) /\
     msgDay t = day g + 1 /\ hourGlyph t = Some (Moon, 0) /\
     hourPM t = false).
Proof.
  cbv zeta.
  destruct (on_tick_clock zones random st) as (Hsame & Hout & _).
  cbv zeta in Hsame, Hout.
  destruct Hsame as (_ & _ & _ & _ & _ & Hg & _ & _ & Hfile & _).
  rewrite Hg, Hout, Hfile. clear Hg Hout Hfile.
  assert (Hclock :
    gameTime (fst (tick_clock st)) = advance_clock (gameTime st)).
  { unfold tick_clock. destruct (Z.rem _ 60 =? 0); [|reflexivity].
    simpl. destruct (writable (disk st)); reflexivity. }
  rewrite Hclock.
  assert (H60 : Z.rem (tick (gameTime st) + 1) 60 = 0 ->
    (Z.rem (hour (gameTime st) + 1) 24 = 0 ->
     hour (advance_clock (gameTime st)) = 0 /\
     day (advance_clock (gameTime st)) = day (gameTime st) + 1) /\
    (Z.rem (hour (gameTime st) + 1) 24 <> 0 ->
     hour (advance_clock (gameTime st)) = hour (gameTime st) + 1 /\
     day (advance_clock (gameTime st)) = day (gameTime st)) /\
    (writable (disk st) = true ->
     stateFile (disk (fst (tick_clock st)))
       = Some (advance_clock (gameTime st))) /\
    snd (tick_clock st)
      = sendToAll st (MTimeUpdate
                        (getFormattedTimeMessage (advance_clock (gameTime st))))).
  { intros H. unfold tick_clock. rewrite advance_clock_tick.
    unfold advance_clock. apply Z.eqb_eq in H. rewrite H.
    split; [|split; [|split]].
    - intros H24. apply Z.eqb_eq in H24. rewrite H24. auto.
    - intros H24. apply Z.eqb_neq in H24. rewrite H24. auto.
    - intros Hw. simpl. rewrite Hw. reflexivity.
    - reflexivity. }
  split; [apply advance_clock_tick|]. split; [exact H60|]. split.
  - intros H. unfold tick_clock. rewrite advance_clock_tick.
    unfold advance_clock. apply Z.eqb_neq in H. rewrite H. auto.
  - intros Hcons Hroll.
    destruct (rollover_hour _ Hcons Hroll) as [R60 R24].
    destruct (H60 R60) as (Hyes & _ & _ & Hsend).
    destruct (Hyes R24) as [Hh Hd].
    split; [exact Hd|]. split; [exact Hh|].
    exists (getFormattedTimeMessage (advance_clock (gameTime st))).
    split; [exact Hsend|].
    unfold getFormattedTimeMessage. rewrite Hh, Hd. auto.
Qed.
(** ** Authentication failures *)

(** Every branch that sends an error and closes has, before it, taken a
    connection id and registered the socket and the name under it, and
    leaves both entries behind; no position is registered and no handler
    is attached. *)
Lemma auth_failure_registers (pbkdf2Sync : string -> string -> string)
    (salt_bytes name password : string) (create : value) (st : State)
    (st' : State) (out : list Effect) :
  on_first_message pbkdf2Sync salt_bytes (FirstAuth name password create) st
    = (st', out) ->
  In (Close (clientId st)) out ->
  (exists message, out = [Send (clientId st) (MError message);
                          Close (clientId st)]) /\
  clientId st' = S (clientId st) /\
  map_get Nat.eqb (clientId st) (clients st') = Some false /\
  map_get Nat.eqb (clientId st) (nameMap st') = Some name /\
  positions st' = positions st /\ listeners st' = listeners st.
Proof.
  unfold on_first_message.
  destruct (negb (truthy (VStr name)) || negb (truthy (VStr password))).
  { intros H Hin. injection H as <- <-. destruct Hin as [Hin | []].
    discriminate Hin. }
  destruct (check_credentials _ _ _ _ _ _ _) as [message | [init' st2]].
  - intros H _. injection H as <- <-.
    split; [exists message; reflexivity|]. split; [reflexivity|].
    split; [|split; [|split; reflexivity]].
    + simpl. apply map_get_set_same. apply Nat.eqb_refl.
    + simpl. apply map_get_set_same. apply Nat.eqb_refl.
  - intros H Hin. injection H as <- <-. exfalso. unfold welcome in Hin.
    simpl in Hin.
    repeat (destruct Hin as [Hin | Hin]; [discriminate|]).
    unfold sendToOthers in Hin. apply in_flat_map in Hin.
    destruct Hin as ([i o] & _ & Hin).
    destruct (negb (i =? clientId st)%nat && o); [|contradiction].
    destruct Hin as [Hin | []]. discriminate.
Qed.

(** The failures of the specification and the errors they send. *)
Lemma auth_failure_causes (pbkdf2Sync : string -> string -> string)
    (salt_bytes name password : string) (create : value)
    (init : InitialPos.t) (st : State) :
  let known := map_get String.eqb name (playerFiles (disk st)) in
  (forall data, known = Some (Parsed data) ->
     truthy (lookup_field "salt" data) = false \/
     truthy (lookup_field "hash" data) = false ->
     check_credentials pbkdf2Sync salt_bytes name password create init st
       = inl "Missing password data."%string) /\
  (forall data, known = Some (Parsed data) ->
     truthy (lookup_field "salt" data) = true ->
     truthy (lookup_field "hash" data) = true ->
     truthy create = true ->
     check_credentials pbkdf2Sync salt_bytes name password create init st
       = inl "Character already exists."%string) /\
  (forall data s, known = Some (Parsed data) ->
     lookup_field "salt" data = VStr s ->
     truthy (lookup_field "salt" data) = true ->
     truthy (lookup_field "hash" data) = true ->
     truthy create = false ->
     strict_eq (lookup_field "hash" data) (VStr (pbkdf2Sync password s))
       = false ->
     check_credentials pbkdf2Sync salt_bytes name password create init st
       = inl "Incorrect password."%string) /\
  (known = None -> truthy create = false ->
     check_credentials pbkdf2Sync salt_bytes name password create init st
       = inl "Character not found."%string).
Proof.
  cbv zeta. unfold check_credentials. repeat split.
  - intros data -> [H | H]; rewrite H; simpl; [reflexivity|].
    rewrite orb_true_r. reflexivity.
  - intros data -> Hs Hh Hc. rewrite Hs, Hh, Hc. reflexivity.
  - intros data s -> Hsalt Hs Hh Hc Hbad. rewrite Hs, Hh, Hc. simpl.
    unfold verifyPassword. rewrite Hsalt, Hbad. reflexivity.
  - intros -> Hc. rewrite Hc. reflexivity.
Qed.

(** C3 (the code departs from the claim).  Four logins fail, one for each
    failure of the specification.  Each gets its error and is closed, but
    each has taken a connection id (the counter went from 1 to 5) and has
    left its socket in [clients] and its name in [nameMap]; the close
    handler that would delete them is attached on success only, so the
    close events of these sockets find no handler and the entries stay. *)
Theorem failed_logins_stay_registered :
  let after := run sample_pbkdf2 sample_zones failed_logins auth_state in
  let later :=
    run sample_pbkdf2 sample_zones
        [EvClose 1; EvClose 2; EvClose 3; EvClose 4] (fst after) in
  snd after =
    [Send 1%nat (MError "Incorrect password."); Close 1;
     Send 2%nat (MError "Character already exists."); Close 2;
     Send 3%nat (MError "Missing password data."); Close 3;
     Send 4%nat (MError "Character not found."); Close 4] /\
  clientId auth_state = 1%nat /\ clientId (fst after) = 5%nat /\
  clients auth_state = [(0%nat, true)] /\
  clients (fst after) =
    [(0%nat, true); (1%nat, false); (2%nat, false); (3%nat, false);
     (4%nat, false)] /\
  nameMap (fst after) =
    [(0%nat, "Ava"); (1%nat, "Bob"); (2%nat, "Bob"); (3%nat, "Cy");
     (4%nat, "Dee")]%string /\
  map fst (positions (fst after)) = [0%nat] /\
  clients (fst later) = clients (fst after) /\
  nameMap (fst later) = nameMap (fst after).
Proof. cbv zeta. repeat split; vm_compute; reflexivity. Qed.
(** ** World edits *)

Lemma dispatch_edit_tile (zones : list ZoneDef) (id : nat) (name : string)
    (msg : list (string * value)) (st : State) :
  lookup_field "type" msg = VStr "edit-tile" ->
  dispatch zones id name msg st = handle_edit_tile zones id msg st.
Proof. intros H. unfold dispatch. rewrite H. reflexivity. Qed.

Lemma dispatch_edit_tile_exits (zones : list ZoneDef) (id : nat)
    (name : string) (msg : list (string * value)) (st : State) :
  lookup_field "type" msg = VStr "edit-tile-exits" ->
  dispatch zones id name msg st = handle_edit_tile_exits zones id msg st.
Proof. intros H. unfold dispatch. rewrite H. reflexivity. Qed.

Lemma dispatch_resize_room (zones : list ZoneDef) (id : nat) (name : string)
    (msg : list (string * value)) (st : State) :
  lookup_field "type" msg = VStr "resize-room" ->
  dispatch zones id name msg st = handle_resize_room zones id msg st.
Proof. intros H. unfold dispatch. rewrite H. reflexivity. Qed.

(** The privilege gate: a caller without a position or with privilege
    below 10 is refused by the three handlers alike. *)
Lemma load_for_edit_privilege (zones : list ZoneDef) (id : nat)
    (msg : list (string * value)) (extra : Validation) (st : State) :
  match map_get Nat.eqb id (positions st) with
  | Some player => Player.privilege player < 10
  | None => True
  end ->
  load_for_edit zones id msg extra st = inl "Insufficient privileges"%string.
Proof.
  unfold load_for_edit.
  destruct (map_get Nat.eqb id (positions st)) as [player|]; [|reflexivity].
  intros H. apply Z.ltb_lt in H. rewrite H. reflexivity.
Qed.

(** Whatever the three handlers reject (the privilege gate, validateRoomId,
    validateTileExits, validateResizeRequest, validateEditRequest, an
    unknown zone, an unreadable room file, a failed write) is answered
    with one error to the requester, and the state, disk included, is as
    before. *)
Lemma edit_rejections_change_nothing (zones : list ZoneDef) (id : nat)
    (msg : list (string * value)) (st : State) :
  (forall error,
     load_for_edit zones id msg Valid st = inl error ->
     handle_edit_tile zones id msg st = (st, [Send id (MError error)], false))
  /\
  (forall roomId key roomJson error,
     load_for_edit zones id msg Valid st = inr (roomId, key, roomJson) ->
     validateEditRequest msg roomJson = Invalid error ->
     handle_edit_tile zones id msg st = (st, [Send id (MError error)], false))
  /\
  (forall error,
     load_for_edit zones id msg
                   (validateTileExits (lookup_field "tileExits" msg)) st
       = inl error ->
     handle_edit_tile_exits zones id msg st
       = (st, [Send id (MError error)], false))
  /\
  (forall roomId key roomJson error,
     load_for_edit zones id msg
                   (validateTileExits (lookup_field "tileExits" msg)) st
       = inr (roomId, key, roomJson) ->
     validateEditRequest msg roomJson = Invalid error ->
     handle_edit_tile_exits zones id msg st
       = (st, [Send id (MError error)], false))
  /\
  (forall error,
     load_for_edit zones id msg (validateResizeRequest msg) st = inl error ->
     handle_resize_room zones id msg st
       = (st, [Send id (MError error)], false))
  /\
  (writable (disk st) = false ->
   exists e1 e2 e3,
     handle_edit_tile zones id msg st = (st, [Send id (MError e1)], false) /\
     handle_edit_tile_exits zones id msg st
       = (st, [Send id (MError e2)], false) /\
     handle_resize_room zones id msg st = (st, [Send id (MError e3)], false)).
Proof.
  unfold handle_edit_tile, handle_edit_tile_exits, handle_resize_room,
    reply_error, done.
  split; [intros error ->; reflexivity|].
  split; [intros roomId key roomJson error -> ->; reflexivity|].
  split; [intros error ->; reflexivity|].
  split; [intros roomId key roomJson error -> ->; reflexivity|].
  split; [intros error ->; reflexivity|].
  intros Hw. unfold write_room. rewrite Hw.
  destruct (load_for_edit zones id msg Valid st) as [e1 | [[r1 k1] j1]];
    destruct (load_for_edit zones id msg (validateTileExits _) st)
      as [e2 | [[r2 k2] j2]];
    destruct (load_for_edit zones id msg (validateResizeRequest msg) st)
      as [e3 | [[r3 k3] j3]];
    try destruct (validateEditRequest msg j1);
    try destruct (validateEditRequest msg j2);
    do 3 eexists; repeat split.
Qed.

(** A terrain that is not a string, or a non-empty string outside
    [A-Za-z0-9_-]+, is rejected. *)
Lemma malformed_truthy_terrain_rejected (msg : list (string * value))
    (roomJson : Room) :
  truthy (lookup_field "terrain" msg) = true ->
  match lookup_field "terrain" msg with
  | VStr s => terrain_regex s = false
  | _ => True
  end ->
  exists error, validateEditRequest msg roomJson = Invalid error.
Proof.
  intros Ht Hbad. unfold validateEditRequest.
  destruct (as_integer (lookup_field "x" msg)); [|eexists; reflexivity].
  destruct (as_integer (lookup_field "y" msg)); [|eexists; reflexivity].
  destruct ((z <? 0) || (z0 <? 0)); [eexists; reflexivity|].
  destruct (nth_error (tiles roomJson) (Z.to_nat z0)); [|eexists; reflexivity].
  destruct (nth_error l (Z.to_nat z)); [|eexists; reflexivity].
  rewrite Ht. destruct (lookup_field "terrain" msg);
    try (eexists; reflexivity).
  rewrite Hbad. eexists. reflexivity.
Qed.

(** C5 (the code departs from the claim).  The empty string does not
    match [A-Za-z0-9_-]+, but validateEditRequest tests the terrain only
    when it is truthy.  Ava (privilege 10) sends edit-tile with terrain ""
    for tile (0,0) of room 0: no error is sent, the room file is rewritten
    with the empty terrain, and room-updated goes to all connections. *)
Theorem empty_terrain_passes_validation :
  let result :=
    on_message sample_zones 0 "Ava" (Some (VObj empty_terrain_msg))
               sample_state in
  terrain_regex "" = false /\
  validateEditRequest empty_terrain_msg sample_room = Valid /\
  snd result = [Send 0%nat (MRoomUpdated 0 (VObj empty_terrain_msg))] /\
  option_map (fun r => cell (tiles r) 0 0)
             (map_get room_key_eqb ("zones/beginning"%string, 0)
                      (roomFiles (disk sample_state)))
    = Some (Some grass) /\
  option_map (fun r => cell (tiles r) 0 0)
             (map_get room_key_eqb ("zones/beginning"%string, 0)
                      (roomFiles (disk (fst result))))
    = Some (Some (mkTile (VStr "") VUndef [])).
Proof. cbv zeta. repeat split; vm_compute; reflexivity. Qed.

Lemma cell_update (g : list (list Tile)) (f : Tile -> Tile) (i j i' j' : nat) :
  cell (update_nth i (update_nth j f) g) i' j' =
  if ((i' =? i) && (j' =? j))%nat then option_map f (cell g i j)
  else cell g i' j'.
Proof.
  unfold cell. destruct (Nat.eqb_spec i' i) as [-> | Hi].
  - rewrite update_nth_same. destruct (nth_error g i) as [row|]; simpl.
    + destruct (Nat.eqb_spec j' j) as [-> | Hj].
      * apply update_nth_same.
      * apply update_nth_other. congruence.
    + destruct (j' =? j)%nat; reflexivity.
  - simpl. rewrite update_nth_other by congruence. reflexivity.
Qed.

Lemma validateEditRequest_valid (msg : list (string * value))
    (roomJson : Room) :
  validateEditRequest msg roomJson = Valid ->
  exists mx my t,
    lookup_field "x" msg = VNum mx /\ lookup_field "y" msg = VNum my /\
    0 <= mx /\ 0 <= my /\
    cell (tiles roomJson) (Z.to_nat my) (Z.to_nat mx) = Some t.
Proof.
  unfold validateEditRequest, as_integer, cell.
  destruct (lookup_field "x" msg) as [| | |mx| | |]; try discriminate.
  destruct (lookup_field "y" msg) as [| | |my| | |]; try discriminate.
  destruct ((mx <? 0) || (my <? 0)) eqn:Hneg; [discriminate|].
  apply orb_false_iff in Hneg. destruct Hneg as [Hx Hy].
  apply Z.ltb_ge in Hx, Hy.
  destruct (nth_error (tiles roomJson) (Z.to_nat my)) as [row|] eqn:Hrow;
    [|discriminate].
  destruct (nth_error row (Z.to_nat mx)) as [t|] eqn:Ht; [|discriminate].
  intros _. exists mx, my, t. rewrite Hrow, Ht. repeat split; auto.
Qed.

(** C7.  An edit-tile request that passes the privilege gate and the
    validation and whose write succeeds: reading the room file again gives
    the room in which tile (x, y) has the submitted terrain and its other
    fields as before, and every other tile and every room attribute is as
    before; the other room files are untouched. *)
Theorem edit_tile_round_trip (zones : list ZoneDef) (id : nat)
    (msg : list (string * value)) (st : State) (roomId : Z)
    (key : string * Z) (roomJson : Room) (s : string)
    (Hload : load_for_edit zones id msg Valid st = inr (roomId, key, roomJson))
    (Hvalid : validateEditRequest msg roomJson = Valid)
    (Hterrain : lookup_field "terrain" msg = VStr s)
    (Hdisk : writable (disk st) = true) :
  exists st' room' mx my t,
    lookup_field "x" msg = VNum mx /\ lookup_field "y" msg = VNum my /\
    handle_edit_tile zones id msg st
      = (st', sendToAll st' (MRoomUpdated roomId (VObj msg)), false) /\
    map_get room_key_eqb key (roomFiles (disk st)) = Some roomJson /\
    map_get room_key_eqb key (roomFiles (disk st')) = Some room' /\
    cell (tiles roomJson) (Z.to_nat my) (Z.to_nat mx) = Some t /\
    cell (tiles room') (Z.to_nat my) (Z.to_nat mx)
      = Some (mkTile (VStr s) (tileExits t) (tileOther t)) /\
    (forall i j, (i, j) <> (Z.to_nat my, Z.to_nat mx) ->
                 cell (tiles room') i j = cell (tiles roomJson) i j) /\
    width room' = width roomJson /\ height room' = height roomJson /\
    roomOther room' = roomOther roomJson /\
    (forall key', key' <> key ->
       map_get room_key_eqb key' (roomFiles (disk st'))
       = map_get room_key_eqb key' (roomFiles (disk st))).
Proof.
  destruct (validateEditRequest_valid msg roomJson Hvalid)
    as (mx & my & t & Hx & Hy & Hx0 & Hy0 & Hcell).
  set (room' := edit_tile_at msg (set_terrain (lookup_field "terrain" msg))
                             roomJson).
  set (st' := set_disk (with_roomFiles
                          (map_set room_key_eqb key room'
                                   (roomFiles (disk st))) (disk st)) st).
  exists st', room', mx, my, t.
  split; [exact Hx|]. split; [exact Hy|]. split.
  { unfold handle_edit_tile. rewrite Hload, Hvalid. unfold write_room.
    rewrite Hdisk. reflexivity. }
  split.
  { unfold load_for_edit in Hload.
    repeat match type of Hload with
           | context [match ?x with _ => _ end] => destruct x eqn:?
           end; try discriminate.
    injection Hload as <- <- <-. assumption. }
  split.
  { simpl. apply map_get_set_same. apply room_key_eqb_iff. reflexivity. }
  split; [exact Hcell|].
  assert (Htiles : forall i j,
            cell (tiles room') i j =
            if ((i =? Z.to_nat my) && (j =? Z.to_nat mx))%nat
            then option_map (set_terrain (VStr s))
                            (cell (tiles roomJson) (Z.to_nat my) (Z.to_nat mx))
            else cell (tiles roomJson) i j).
  { intros i j. unfold room', edit_tile_at. simpl.
    rewrite Hx, Hy, Hterrain. simpl. apply cell_update. }
  split.
  { rewrite Htiles, !Nat.eqb_refl, Hcell. reflexivity. }
  split.
  { intros i j Hne. rewrite Htiles.
    destruct (Nat.eqb_spec i (Z.to_nat my)) as [-> | Hi]; [|reflexivity].
    destruct (Nat.eqb_spec j (Z.to_nat mx)) as [-> | Hj]; [|reflexivity].
    congruence. }
  split; [reflexivity|]. split; [reflexivity|]. split; [reflexivity|].
  intros key' Hne. simpl.
  apply map_get_set_other; [apply room_key_eqb_iff | exact Hne].
Qed.
(** ** What the handlers leave alone *)

Lemma Forall2_refl {A : Type} (R : A -> A -> Prop) (l : list A) :
  (forall a, R a a) -> Forall2 R l l.
Proof. intros H. induction l; constructor; auto. Qed.

Lemma owner_step_refl (a : option string) : owner_step a a.
Proof. left. reflexivity. Qed.

Lemma obj_step_refl (i : Obj.t) : obj_step i i.
Proof. split; [reflexivity | apply owner_step_refl]. Qed.

Lemma player_step_refl (e : nat * Player.t) : player_step e e.
Proof. repeat split. Qed.

Lemma message_frame_refl (st : State) : message_frame st st.
Proof.
  unfold message_frame. repeat split;
    apply Forall2_refl; [apply player_step_refl | apply obj_step_refl].
Qed.

Lemma update_first_step {A : Type} (R : A -> A -> Prop) (p : A -> bool)
    (f : A -> A) (l : list A) (a : A) :
  (forall b, R b b) -> find p l = Some a -> R a (f a) ->
  Forall2 R l (update_first p f l).
Proof.
  intros Hrefl Hfind Hstep.
  destruct (find_split p l a Hfind) as (pre & post & -> & _ & _ & Hupd).
  rewrite Hupd. apply Forall2_app; [apply Forall2_refl, Hrefl|].
  constructor; [exact Hstep | apply Forall2_refl, Hrefl].
Qed.

Lemma update_nth_step {A : Type} (R : A -> A -> Prop) (k : nat) (f : A -> A)
    (l : list A) :
  (forall a, R a a) -> (forall a, R a (f a)) -> Forall2 R l (update_nth k f l).
Proof.
  intros Hrefl Hf. revert k.
  induction l as [|a l IH]; intros [|k]; simpl; constructor; auto.
  apply Forall2_refl, Hrefl.
Qed.

Lemma map_set_step (id : nat) (p p' : Player.t) (m : list (nat * Player.t)) :
  map_get Nat.eqb id m = Some p ->
  player_step (id, p) (id, p') ->
  Forall2 player_step m (map_set Nat.eqb id p' m).
Proof.
  intros Hget Hstep. induction m as [|[k v] m IH]; simpl in *; [discriminate|].
  destruct (Nat.eqb_spec id k) as [-> | Hne].
  - injection Hget as ->. constructor; [exact Hstep|].
    apply Forall2_refl, player_step_refl.
  - constructor; [apply player_step_refl | apply IH, Hget].
Qed.

Lemma find_In {A : Type} (p : A -> bool) (l : list A) (a : A) :
  find p l = Some a -> In a l /\ p a = true.
Proof. apply find_some. Qed.

Ltac frame_fields :=
  unfold message_frame; simpl;
  repeat match goal with
         | |- _ /\ _ => split
         | |- _ = _ => reflexivity
         | |- Forall2 player_step ?l ?l =>
             apply Forall2_refl, player_step_refl
         | |- Forall2 obj_step ?l ?l => apply Forall2_refl, obj_step_refl
         end.

Lemma handle_update_frame (id : nat) (msg : list (string * value))
    (st : State) :
  message_frame st (fst (fst (handle_update id msg st))).
Proof.
  unfold handle_update.
  destruct (map_get Nat.eqb id (positions st)) as [player|] eqn:Hp.
  - frame_fields. eapply map_set_step; [exact Hp|]. repeat split.
  - destruct (existsb _ _); apply message_frame_refl.
Qed.

Lemma handle_pickup_frame (id : nat) (name : string)
    (msg : list (string * value)) (st : State) :
  message_frame st (fst (fst (handle_pickup id name msg st))).
Proof.
  unfold handle_pickup.
  destruct (toString _) as [zoneKey| |]; try apply message_frame_refl.
  destruct (find _ _) as [inst|] eqn:Hfind; [|apply message_frame_refl].
  destruct (unowned inst && _ && _) eqn:Hready; [|apply message_frame_refl].
  assert (Hstep : Forall2 obj_step (objectInstances st)
            (update_first (instance_is (lookup_field "instanceId" msg))
                          (pick name (tick (gameTime st)))
                          (objectInstances st))).
  { apply update_first_step with inst; [apply obj_step_refl | exact Hfind |].
    split; [reflexivity|]. right. left.
    rewrite !andb_true_iff in Hready. destruct Hready as [[Hu _] _].
    unfold unowned in Hu. destruct (Obj.pickedUpBy inst); congruence. }
  unfold saveObjectsState. simpl.
  destruct (writable (disk st)); frame_fields; exact Hstep.
Qed.

Lemma handle_drop_frame (id : nat) (name : string)
    (msg : list (string * value)) (st : State) :
  message_frame st (fst (fst (handle_drop id name msg st))).
Proof.
  unfold handle_drop.
  destruct (toString _) as [zoneKey| |]; try apply message_frame_refl.
  destruct (find _ _) as [inst|] eqn:Hfind; [|apply message_frame_refl].
  destruct (owned_by name inst) eqn:Howned; [|apply message_frame_refl].
  assert (Hstep : Forall2 obj_step (objectInstances st)
            (update_first (instance_is (lookup_field "instanceId" msg))
                          (put_down zoneKey msg) (objectInstances st))).
  { apply update_first_step with inst; [apply obj_step_refl | exact Hfind |].
    split; [reflexivity|]. right. right. reflexivity. }
  unfold saveObjectsState. simpl.
  destruct (writable (disk st)) eqn:Hw; [|frame_fields; exact Hstep].
  simpl.
  destruct (map_get Nat.eqb id (positions st)) as [playerData|] eqn:Hp;
    [|frame_fields; exact Hstep].
  unfold savePlayerData. simpl. rewrite Hw. frame_fields; try exact Hstep.
  eapply map_set_step; [exact Hp|]. repeat split.
Qed.

Ltac crush_frame :=
  repeat match goal with
         | |- context [match ?x with _ => _ end] => destruct x
         end;
  try apply message_frame_refl; frame_fields.

Lemma handle_request_frame (id : nat) (msg : list (string * value))
    (st : State) :
  message_frame st (fst (fst (handle_request id msg st))).
Proof. unfold handle_request. crush_frame. Qed.

Lemma handle_get_context_menu_frame (id : nat) (msg : list (string * value))
    (st : State) :
  message_frame st (fst (fst (handle_get_context_menu id msg st))).
Proof. unfold handle_get_context_menu. crush_frame. Qed.

Lemma handle_context_action_frame (id : nat) (msg : list (string * value))
    (st : State) :
  message_frame st (fst (fst (handle_context_action id msg st))).
Proof. unfold handle_context_action. crush_frame. Qed.

Section EditFrames.
Variable zones : list ZoneDef.

Lemma write_room_frame (key : string * Z) (roomJson : Room) (st st' : State) :
  write_room key roomJson st = Some st' -> message_frame st st'.
Proof.
  unfold write_room. destruct (writable (disk st)); [|discriminate].
  intros H. injection H as <-. frame_fields.
Qed.

Lemma handle_edit_tile_frame (id : nat) (msg : list (string * value))
    (st : State) :
  message_frame st (fst (fst (handle_edit_tile zones id msg st))).
Proof.
  unfold handle_edit_tile, reply_error, done.
  destruct (load_for_edit zones id msg Valid st) as [e | [[r k] j]];
    [apply message_frame_refl|].
  destruct (validateEditRequest msg j); [|apply message_frame_refl].
  destruct (write_room k _ st) eqn:Hw; [|apply message_frame_refl].
  apply (write_room_frame _ _ _ _ Hw).
Qed.

Lemma handle_edit_tile_exits_frame (id : nat) (msg : list (string * value))
    (st : State) :
  message_frame st (fst (fst (handle_edit_tile_exits zones id msg st))).
Proof.
  unfold handle_edit_tile_exits, reply_error, done.
  destruct (load_for_edit zones id msg _ st) as [e | [[r k] j]];
    [apply message_frame_refl|].
  destruct (validateEditRequest msg j); [|apply message_frame_refl].
  destruct (write_room k _ st) eqn:Hw; [|apply message_frame_refl].
  apply (write_room_frame _ _ _ _ Hw).
Qed.

Lemma handle_resize_room_frame (id : nat) (msg : list (string * value))
    (st : State) :
  message_frame st (fst (fst (handle_resize_room zones id msg st))).
Proof.
  unfold handle_resize_room, reply_error, done.
  destruct (load_for_edit zones id msg _ st) as [e | [[r k] j]];
    [apply message_frame_refl|].
  destruct (write_room k _ st) eqn:Hw; [|apply message_frame_refl].
  apply (write_room_frame _ _ _ _ Hw).
Qed.

Lemma dispatch_frame (id : nat) (name : string) (msg : list (string * value))
    (st : State) :
  message_frame st (fst (fst (dispatch zones id name msg st))).
Proof.
  unfold dispatch.
  repeat match goal with
         | |- context [if ?c then _ else _] => destruct c
         end.
  - apply handle_update_frame.
  - apply handle_pickup_frame.
  - apply handle_drop_frame.
  - apply handle_request_frame.
  - apply handle_get_context_menu_frame.
  - apply handle_context_action_frame.
  - apply handle_edit_tile_frame.
  - apply handle_edit_tile_exits_frame.
  - apply handle_resize_room_frame.
  - apply message_frame_refl.
Qed.

Lemma on_message_frame (id : nat) (name : string) (raw : option value)
    (st : State) :
  message_frame st (fst (on_message zones id name raw st)).
Proof.
  unfold on_message.
  destruct raw as [[| | | | | |msg]|]; try apply message_frame_refl.
  pose proof (dispatch_frame id name msg st) as H.
  destruct (dispatch zones id name msg st) as [[st' out] threw].
  exact H.
Qed.

End EditFrames.

(** *** The other events *)

Lemma check_credentials_frame (pbkdf2Sync : string -> string -> string)
    (salt_bytes name password : string) (create : value)
    (init init' : InitialPos.t) (st st' : State) :
  check_credentials pbkdf2Sync salt_bytes name password create init st
    = inr (init', st') ->
  clientId st' = clientId st /\ clients st' = clients st /\
  positions st' = positions st /\ nameMap st' = nameMap st /\
  listeners st' = listeners st /\ gameTime st' = gameTime st /\
  objectInstances st' = objectInstances st /\
  npcInstances st' = npcInstances st /\ npcTimers st' = npcTimers st /\
  nextTimerId st' = nextTimerId st.
Proof.
  unfold check_credentials, savePlayerData. intros H.
  destruct_matches_in H;
    try discriminate; injection H as _ <-; repeat split.
Qed.

Lemma on_first_message_frame (pbkdf2Sync : string -> string -> string)
    (salt_bytes : string) (m : FirstMessage) (st : State) :
  let st' := fst (on_first_message pbkdf2Sync salt_bytes m st) in
  objectInstances st' = objectInstances st /\
  npcInstances st' = npcInstances st /\ npcTimers st' = npcTimers st /\
  (clientId st <= clientId st')%nat /\
  (positions st' = positions st \/
   exists pos, clientId st' = S (clientId st) /\
               positions st'
               = map_set Nat.eqb (clientId st) pos (positions st)).
Proof.
  cbv zeta. unfold on_first_message.
  destruct m as [| | |name password create]; [simpl; auto 6 ..|].
  destruct (negb (truthy (VStr name)) || negb (truthy (VStr password)));
    [simpl; auto 6|].
  destruct (check_credentials _ _ _ _ _ _ _) as [message | [init' st2]] eqn:Hc.
  - simpl. repeat split; auto.
  - apply check_credentials_frame in Hc. simpl in Hc.
    destruct Hc as (C1 & C2 & C3 & C4 & C5 & C6 & C7 & C8 & C9 & C10).
    simpl. rewrite C1, C3, C7, C8, C9.
    repeat split; auto. right. eexists. split; reflexivity.
Qed.

Lemma on_close_frame (id : nat) (st : State) :
  let st' := fst (on_close id st) in
  objectInstances st' = objectInstances st /\
  npcInstances st' = npcInstances st /\ npcTimers st' = npcTimers st /\
  clientId st' = clientId st /\
  positions st' = map_delete Nat.eqb id (positions st).
Proof.
  cbv zeta. unfold on_close, savePlayerData.
  destruct (map_get Nat.eqb id (positions st)); [|simpl; auto].
  destruct (writable (disk st)); simpl; auto.
Qed.

Lemma move_to_movePath (target : coord) (npc : Npc.t) :
  Npc.movePath (move_to target npc) = Npc.movePath npc.
Proof. reflexivity. Qed.

Lemma on_timer_frame (instanceId : string) (st : State) :
  let st' := fst (fst (on_timer instanceId st)) in
  objectInstances st' = objectInstances st /\
  positions st' = positions st /\ clientId st' = clientId st /\
  map Npc.movePath (npcInstances st') = map Npc.movePath (npcInstances st) /\
  map Npc.instanceId (npcInstances st')
    = map Npc.instanceId (npcInstances st).
Proof.
  cbv zeta. unfold on_timer.
  destruct (map_get String.eqb instanceId (npcTimers st)) as [t|];
    [|simpl; auto].
  unfold saveNpcState. simpl.
  destruct (writable (disk st)); simpl;
    repeat split; apply update_nth_map; reflexivity.
Qed.

Lemma respawned_step (i : Obj.t) : obj_step i (respawned i).
Proof. split; [reflexivity|]. right. right. reflexivity. Qed.

Lemma on_tick_frame (zones : list ZoneDef) (random : nat -> Q) (st : State) :
  let st' := fst (fst (on_tick zones random st)) in
  Forall2 obj_step (objectInstances st) (objectInstances st') /\
  npcInstances st' = npcInstances st /\
  positions st' = positions st /\ clientId st' = clientId st.
Proof.
  cbv zeta. unfold on_tick.
  destruct (tick_clock st) as [st1 out1] eqn:Hclock.
  assert (H1 : objectInstances st1 = objectInstances st /\
               npcInstances st1 = npcInstances st /\
               positions st1 = positions st /\ clientId st1 = clientId st).
  { unfold tick_clock in Hclock.
    destruct (Z.rem _ 60 =? 0); [|injection Hclock as <- _; auto].
    simpl in Hclock. destruct (writable (disk st));
      injection Hclock as <- _; auto. }
  destruct H1 as (O1 & N1 & P1 & I1).
  unfold tick_respawn.
  destruct (respawn_sweep _ _ _ st1) as [[st2 out2] c2] eqn:Hsweep.
  pose proof (respawn_sweep_frame _ _ _ _ _ _ _ Hsweep)
    as ((I2 & _ & P2 & _) & N2 & _ & _).
  destruct (respawn_sweep_shape _ _ _ _ _ _ _ Hsweep eq_refl)
    as (todo' & Hobjs & Hall).
  simpl in Hobjs.
  assert (O2 : Forall2 obj_step (objectInstances st) (objectInstances st2)).
  { rewrite Hobjs, <- O1. eapply Forall2_impl; [|exact Hall].
    intros a b [-> | [_ ->]]; [apply obj_step_refl | apply respawned_step]. }
  destruct c2; [simpl; repeat split; congruence|].
  destruct (roam_all zones random 0 0 (npcInstances st2) st2)
    as [[[st3 out3] k] c3] eqn:Hroam.
  apply roam_all_frame in Hroam.
  destruct Hroam as ((I3 & _ & P3 & _) & O3 & N3 & _).
  destruct c3; simpl; rewrite O3; repeat split; congruence.
Qed.

(** Every event keeps every object instance in its slot, its ownership
    changed as [owner_step] allows, and keeps the movePath of every NPC. *)
Lemma step_frame (pbkdf2Sync : string -> string -> string)
    (zones : list ZoneDef) (ev : Event) (st : State) :
  let st' := fst (step pbkdf2Sync zones ev st) in
  Forall2 obj_step (objectInstances st) (objectInstances st') /\
  map Npc.movePath (npcInstances st') = map Npc.movePath (npcInstances st) /\
  map Npc.instanceId (npcInstances st')
    = map Npc.instanceId (npcInstances st).
Proof.
  cbv zeta. destruct ev as [salt m | id raw | id | random | instanceId];
    simpl.
  - destruct (on_first_message_frame pbkdf2Sync salt m st) as (O & N & _).
    rewrite O, N. repeat split. apply Forall2_refl, obj_step_refl.
  - destruct (listener_name id st) as [name|].
    + destruct (on_message_frame zones id name raw st)
        as (_ & _ & _ & _ & _ & N & _ & _ & _ & O).
      rewrite N. auto.
    + simpl. repeat split. apply Forall2_refl, obj_step_refl.
  - destruct (listener_name id st) as [name|].
    + destruct (on_close_frame id st) as (O & N & _).
      rewrite O, N. repeat split. apply Forall2_refl, obj_step_refl.
    + simpl. repeat split. apply Forall2_refl, obj_step_refl.
  - destruct (on_tick_frame zones random st) as (O & N & _).
    rewrite N. auto.
  - destruct (on_timer_frame instanceId st) as (O & _ & _ & M & I).
    rewrite O. repeat split; auto. apply Forall2_refl, obj_step_refl.
Qed.
(** ** Object instances are cycled, never removed *)

Lemma obj_step_ids (l l' : list Obj.t) :
  Forall2 obj_step l l' -> map Obj.instanceId l' = map Obj.instanceId l.
Proof.
  induction 1 as [|a b l l' [Hid _] _ IH]; [reflexivity|].
  simpl. rewrite Hid, IH. reflexivity.
Qed.

Lemma run_instance_ids (pbkdf2Sync : string -> string -> string)
    (zones : list ZoneDef) (evs : list Event) :
  forall st,
    map Obj.instanceId (objectInstances (fst (run pbkdf2Sync zones evs st)))
    = map Obj.instanceId (objectInstances st).
Proof.
  induction evs as [|ev evs IH]; intros st; [reflexivity|].
  cbn [run].
  pose proof (step_frame pbkdf2Sync zones ev st) as (Hobj & _).
  destruct (step pbkdf2Sync zones ev st) as [st1 out1].
  specialize (IH st1).
  destruct (run pbkdf2Sync zones evs st1) as [st2 out2].
  simpl in *. rewrite IH. apply obj_step_ids, Hobj.
Qed.

Lemma ensure_spawns_appends (randomId : nat -> string) :
  forall defs k instances,
    exists news,
      ensure_spawns randomId k defs instances = instances ++ news /\
      Forall (fun i => Obj.pickedUpBy i = None) news.
Proof.
  induction defs as [|def rest IH]; intros k instances.
  - exists []. rewrite app_nil_r. auto.
  - cbn [ensure_spawns]. destruct (existsb (matches_spawn def) instances).
    + apply IH.
    + destruct (IH (S k) (instances ++
                 [Obj.mk (randomId k) (defTypeId def) (defZone def)
                         (VNum (defRoomId def)) (defX def) (defY def)
                         None None (defRespawnAfterSec def)]))
        as (news & Heq & Hall).
      eexists. rewrite Heq, <- app_assoc. split; [reflexivity|].
      constructor; [reflexivity | exact Hall].
Qed.

(** C8.  No operation removes an object instance: boot reconciliation
    only appends unowned instances to the registry; every event (pickup,
    drop, respawn sweep and all others) keeps every instance in its slot,
    and over any run the registry lists the same instance ids.  An
    instance is at every instant unowned or held by one player, never
    both, and no single operation passes it from one player to another. *)
Theorem instances_are_never_removed
    (pbkdf2Sync : string -> string -> string) (zones : list ZoneDef) :
  (forall randomId k defs instances,
     exists news,
       ensure_spawns randomId k defs instances = instances ++ news /\
       Forall (fun i => Obj.pickedUpBy i = None) news) /\
  (forall ev st,
     Forall2 obj_step (objectInstances st)
             (objectInstances (fst (step pbkdf2Sync zones ev st)))) /\
  (forall id name msg st,
     Forall2 obj_step (objectInstances st)
             (objectInstances (fst (fst (handle_pickup id name msg st)))) /\
     Forall2 obj_step (objectInstances st)
             (objectInstances (fst (fst (handle_drop id name msg st)))) /\
     Forall2 obj_step (objectInstances st)
             (objectInstances (fst (fst (tick_respawn st))))) /\
  (forall evs st,
     map Obj.instanceId (objectInstances (fst (run pbkdf2Sync zones evs st)))
     = map Obj.instanceId (objectInstances st)) /\
  (forall i : Obj.t,
     (Obj.pickedUpBy i = None /\ forall n, Obj.pickedUpBy i <> Some n) \/
     (exists n, Obj.pickedUpBy i = Some n /\ Obj.pickedUpBy i <> None /\
                forall m, Obj.pickedUpBy i = Some m -> m = n)).
Proof.
  split; [intros; apply ensure_spawns_appends|].
  split; [intros ev st; apply (step_frame pbkdf2Sync zones ev st)|].
  split.
  { intros id name msg st. split; [|split].
    - apply (handle_pickup_frame id name msg st).
    - apply (handle_drop_frame id name msg st).
    - unfold tick_respawn.
      destruct (respawn_sweep _ _ _ st) as [[st' out] c] eqn:Hsweep.
      destruct (respawn_sweep_shape _ _ _ _ _ _ _ Hsweep eq_refl)
        as (todo' & Hobjs & Hall).
      simpl in *. rewrite Hobjs. eapply Forall2_impl; [|exact Hall].
      intros a b [-> | [_ ->]]; [apply obj_step_refl | apply respawned_step]. }
  split; [intros evs st; apply run_instance_ids|].
  intros i. destruct (Obj.pickedUpBy i) as [n|].
  - right. exists n. repeat split; congruence.
  - left. split; congruence.
Qed.
(** ** movePath is never assigned *)

Lemma run_movePath (pbkdf2Sync : string -> string -> string)
    (zones : list ZoneDef) (evs : list Event) :
  forall st,
    map Npc.movePath (npcInstances (fst (run pbkdf2Sync zones evs st)))
    = map Npc.movePath (npcInstances st).
Proof.
  induction evs as [|ev evs IH]; intros st; [reflexivity|].
  cbn [run].
  pose proof (step_frame pbkdf2Sync zones ev st) as (_ & Hpath & _).
  destruct (step pbkdf2Sync zones ev st) as [st1 out1].
  specialize (IH st1).
  destruct (run pbkdf2Sync zones evs st1) as [st2 out2].
  simpl in *. congruence.
Qed.

Lemma filter_key_delete {V : Type} (k : string) (m : list (string * V)) :
  filter (fun e => String.eqb k (fst e)) (map_delete String.eqb k m) = [].
Proof.
  induction m as [|[k' v'] m IH]; simpl; [reflexivity|].
  destruct (String.eqb k k') eqn:E; [exact IH|].
  simpl. rewrite E. exact IH.
Qed.

Lemma filter_key_set {V : Type} (k : string) (v : V) (m : list (string * V)) :
  filter (fun e => String.eqb k (fst e)) m = [] ->
  filter (fun e => String.eqb k (fst e)) (map_set String.eqb k v m) = [(k, v)].
Proof.
  induction m as [|[k' v'] m IH]; simpl.
  - rewrite String.eqb_refl. reflexivity.
  - destruct (String.eqb k k') eqn:E; [discriminate|].
    intros H. simpl. rewrite E. apply IH, H.
Qed.

Lemma filter_key_none {V : Type} (k : string) (m : list (string * V)) :
  map_get String.eqb k m = None ->
  filter (fun e => String.eqb k (fst e)) m = [].
Proof.
  induction m as [|[k' v'] m IH]; simpl; [reflexivity|].
  destruct (String.eqb k k'); [discriminate | exact IH].
Qed.

(** A new walk leaves one pending timer for the NPC, the new one. *)
Lemma startNpcMovementTimer_replaces (instanceId : string) (npcSlot : nat)
    (target : coord) (delay : Z) (st : State) :
  let st' := startNpcMovementTimer instanceId npcSlot target delay st in
  filter (fun e => String.eqb instanceId (fst e)) (npcTimers st')
    = [(instanceId, mkTimer (nextTimerId st) npcSlot target delay)] /\
  forall other, other <> instanceId ->
    map_get String.eqb other (npcTimers st')
    = map_get String.eqb other (npcTimers st).
Proof.
  cbv zeta. unfold startNpcMovementTimer, clearNpcMovementTimer.
  destruct (map_get String.eqb instanceId (npcTimers st)) as [t|] eqn:Hget;
    simpl.
  - split.
    + apply filter_key_set, filter_key_delete.
    + intros other Hne.
      rewrite map_get_set_other by (auto using string_eqb_iff).
      apply map_get_delete_other; auto using string_eqb_iff.
  - split.
    + apply filter_key_set, filter_key_none, Hget.
    + intros other Hne.
      apply map_get_set_other; auto using string_eqb_iff.
Qed.

(** C9.  movePath is null on every NPC that boot regenerates (a loaded
    NPC keeps the field it was saved with), and no event assigns it, the
    acceptance of a roam path included: over any run the movePath of every
    NPC is what it was.  So with all of them null, they stay null, the
    guard of the roam loop never returns early (the roll of a roaming NPC
    is always drawn; only a non-null movePath, which no state of a run
    has, would skip it), and a new walk of an NPC is reconciled with a
    pending one only by the timer registry: the pending timer of that
    instance id is dropped and the new one is the only one left. *)
Theorem movePath_is_never_assigned
    (pbkdf2Sync : string -> string -> string) (zones : list ZoneDef) :
  (forall templates id template zoneKey rid defX' defY',
     Npc.movePath
       (ensure_movement templates
          (regenerate_npc id template zoneKey rid defX' defY')) = None) /\
  (forall ev st,
     map Npc.movePath (npcInstances (fst (step pbkdf2Sync zones ev st)))
     = map Npc.movePath (npcInstances st)) /\
  (forall random k npcSlot npc st,
     npcInstances (fst (fst (fst (roam_npc zones random k npcSlot npc st))))
     = npcInstances st) /\
  (forall evs st,
     Forall (fun n => Npc.movePath n = None) (npcInstances st) ->
     Forall (fun n => Npc.movePath n = None)
            (npcInstances (fst (run pbkdf2Sync zones evs st)))) /\
  (forall random k npcSlot npc st roam,
     Npc.movePath npc = None -> Npc.roam npc = Some roam ->
     roamType roam = "random"%string ->
     (k < snd (fst (roam_npc zones random k npcSlot npc st)))%nat) /\
  (forall random k npcSlot npc st roam path,
     Npc.movePath npc = Some path -> Npc.roam npc = Some roam ->
     roamType roam = "random"%string ->
     roam_npc zones random k npcSlot npc st = (st, [], k, false)) /\
  (forall instanceId npcSlot target delay st,
     let st' := startNpcMovementTimer instanceId npcSlot target delay st in
     filter (fun e => String.eqb instanceId (fst e)) (npcTimers st')
       = [(instanceId, mkTimer (nextTimerId st) npcSlot target delay)] /\
     forall other, other <> instanceId ->
       map_get String.eqb other (npcTimers st')
       = map_get String.eqb other (npcTimers st)).
Proof.
  split; [reflexivity|].
  split; [intros ev st; apply (step_frame pbkdf2Sync zones ev st)|].
  split.
  { intros random k npcSlot npc st.
    destruct (roam_npc zones random k npcSlot npc st)
      as [[[st' out] k'] c] eqn:Hrun.
    apply roam_npc_frame in Hrun. simpl. apply Hrun. }
  split.
  { intros evs st Hall.
    pose proof (run_movePath pbkdf2Sync zones evs st) as Hmap.
    apply Forall_forall. intros n Hn.
    apply (in_map Npc.movePath) in Hn. rewrite Hmap in Hn.
    apply in_map_iff in Hn. destruct Hn as (n0 & <- & Hn0).
    rewrite Forall_forall in Hall. apply Hall, Hn0. }
  split.
  { intros random k npcSlot npc st roam Hpath Hroam Htype.
    unfold roam_npc. rewrite Hroam, Htype, Hpath. simpl.
    destruct_matches; simpl; lia. }
  split.
  { intros random k npcSlot npc st roam path Hpath Hroam Htype.
    unfold roam_npc. rewrite Hroam, Htype, Hpath. reflexivity. }
  intros. apply startNpcMovementTimer_replaces.
Qed.
(** ** The init snapshot and the position entry *)

Lemma player_step_get (m m' : list (nat * Player.t)) (i : nat)
    (p' : Player.t) :
  Forall2 player_step m m' -> map_get Nat.eqb i m' = Some p' ->
  exists p, map_get Nat.eqb i m = Some p /\
            Player.privilege p' = Player.privilege p.
Proof.
  induction 1 as [|[k v] [k' v'] m m' (Hk & _ & Hp & _) _ IH]; simpl;
    [discriminate|].
  simpl in Hk, Hp. subst k'. destruct (i =? k)%nat.
  - intros H. injection H as <-. exists v. auto.
  - exact IH.
Qed.

Lemma map_get_delete (k j : nat) (m : list (nat * Player.t)) (p : Player.t) :
  map_get Nat.eqb j (map_delete Nat.eqb k m) = Some p ->
  map_get Nat.eqb j m = Some p.
Proof.
  destruct (Nat.eq_dec j k) as [-> | Hne].
  - rewrite map_get_delete_same by apply nat_eqb_iff. discriminate.
  - rewrite map_get_delete_other by (auto using nat_eqb_iff). auto.
Qed.

(** Over one event a position entry keeps its privilege, unless the event
    is the login that takes the id the counter stands at. *)
Lemma step_positions (pbkdf2Sync : string -> string -> string)
    (zones : list ZoneDef) (ev : Event) (st : State) (i : nat)
    (p' : Player.t) :
  map_get Nat.eqb i (positions (fst (step pbkdf2Sync zones ev st))) = Some p' ->
  (exists p, map_get Nat.eqb i (positions st) = Some p /\
             Player.privilege p' = Player.privilege p) \/
  i = clientId st.
Proof.
  destruct ev as [salt m | id raw | id | random | instanceId]; simpl.
  - destruct (on_first_message_frame pbkdf2Sync salt m st)
      as (_ & _ & _ & _ & [Hsame | (pos & _ & Hset)]).
    + rewrite Hsame. intros H. left. exists p'. auto.
    + rewrite Hset. destruct (Nat.eq_dec i (clientId st)) as [-> | Hne];
        [auto|].
      rewrite map_get_set_other by (auto using nat_eqb_iff).
      intros H. left. exists p'. auto.
  - destruct (listener_name id st) as [name|].
    + destruct (on_message_frame zones id name raw st)
        as (_ & _ & _ & _ & _ & _ & _ & _ & P & _).
      intros H. left. eapply player_step_get; eauto.
    + simpl. intros H. left. exists p'. auto.
  - destruct (listener_name id st) as [name|].
    + destruct (on_close_frame id st) as (_ & _ & _ & _ & P).
      rewrite P. intros H. left. exists p'. split; [|reflexivity].
      eapply map_get_delete; eauto.
    + simpl. intros H. left. exists p'. auto.
  - destruct (on_tick_frame zones random st) as (_ & _ & P & _).
    rewrite P. intros H. left. exists p'. auto.
  - destruct (on_timer_frame instanceId st) as (_ & P & _).
    rewrite P. intros H. left. exists p'. auto.
Qed.

Lemma step_counter (pbkdf2Sync : string -> string -> string)
    (zones : list ZoneDef) (ev : Event) (st : State) :
  (clientId st <= clientId (fst (step pbkdf2Sync zones ev st)))%nat.
Proof.
  destruct ev as [salt m | id raw | id | random | instanceId]; simpl.
  - apply (on_first_message_frame pbkdf2Sync salt m st).
  - destruct (listener_name id st) as [name|]; [|simpl; lia].
    destruct (on_message_frame zones id name raw st) as (C & _). lia.
  - destruct (listener_name id st) as [name|]; [|simpl; lia].
    destruct (on_close_frame id st) as (_ & _ & _ & C & _). lia.
  - destruct (on_tick_frame zones random st) as (_ & _ & _ & C). lia.
  - destruct (on_timer_frame instanceId st) as (_ & _ & C & _). lia.
Qed.

Lemma run_keeps_privilege (pbkdf2Sync : string -> string -> string)
    (zones : list ZoneDef) (id : nat) (p : Z) (evs : list Event) :
  forall st,
    (id < clientId st)%nat ->
    (forall pos, map_get Nat.eqb id (positions st) = Some pos ->
                 Player.privilege pos = p) ->
    forall pos',
      map_get Nat.eqb id (positions (fst (run pbkdf2Sync zones evs st)))
        = Some pos' ->
      Player.privilege pos' = p.
Proof.
  induction evs as [|ev evs IH]; intros st Hlt Hpriv pos'; [apply Hpriv|].
  cbn [run].
  pose proof (step_counter pbkdf2Sync zones ev st) as Hc.
  pose proof (fun q => step_positions pbkdf2Sync zones ev st id q) as Hp.
  destruct (step pbkdf2Sync zones ev st) as [st1 out1].
  specialize (IH st1).
  destruct (run pbkdf2Sync zones evs st1) as [st2 out2].
  simpl in *. apply IH; [lia|].
  intros pos Hpos. destruct (Hp pos Hpos) as [(q & Hq & Heq) | Heq]; [|lia].
  rewrite Heq. apply Hpriv, Hq.
Qed.

Lemma map_set_In {V : Type} (k : nat) (v : V) (m : list (nat * V)) :
  In (k, v) (map_set Nat.eqb k v m).
Proof.
  induction m as [|[k' v'] m IH]; simpl; [auto|].
  destruct (k =? k')%nat; simpl; auto.
Qed.

Lemma broadcastToRoom_reaches (st : State) (id : nat) (pos : Player.t)
    (zone : string) (roomId : value) (msg : ServerMsg) :
  In (id, true) (clients st) ->
  map_get Nat.eqb id (positions st) = Some pos ->
  Player.zone pos = zone -> strict_eq (Player.roomId pos) roomId = true ->
  In (Send id msg) (broadcastToRoom st zone roomId msg).
Proof.
  intros Hc Hp Hz Hr. unfold broadcastToRoom. apply in_flat_map.
  exists (id, true). split; [exact Hc|].
  rewrite Hp, Hz, Hr, String.eqb_refl. simpl. auto.
Qed.

Lemma broadcastToRoom_skips (st : State) (id : nat) (pos : Player.t)
    (zone : string) (roomId : value) (msg : ServerMsg) :
  map_get Nat.eqb id (positions st) = Some pos ->
  strict_eq (Player.roomId pos) roomId = false ->
  ~ In (Send id msg) (broadcastToRoom st zone roomId msg).
Proof.
  intros Hp Hr Hin. unfold broadcastToRoom in Hin. apply in_flat_map in Hin.
  destruct Hin as ([i o] & _ & Hin).
  destruct (map_get Nat.eqb i (positions st)) as [q|] eqn:Hq; [|contradiction].
  destruct (String.eqb (Player.zone q) zone
            && strict_eq (Player.roomId q) roomId && o) eqn:Hcond;
    [|contradiction].
  destruct Hin as [Hin | []]. injection Hin as ->.
  rewrite Hp in Hq. injection Hq as <-.
  rewrite Hr, andb_false_r in Hcond. discriminate.
Qed.

Lemma login_with_record (pbkdf2Sync : string -> string -> string)
    (salt_bytes name password : string) (create : value) (st : State)
    (data : list (string * value)) (s : string) (init : InitialPos.t) :
  map_get String.eqb name (playerFiles (disk st)) = Some (Parsed data) ->
  lookup_field "salt" data = VStr s -> truthy (VStr s) = true ->
  lookup_field "hash" data = VStr (pbkdf2Sync password s) ->
  truthy (VStr (pbkdf2Sync password s)) = true ->
  truthy create = false ->
  check_credentials pbkdf2Sync salt_bytes name password create init st
    = inr (fill_from_record data init, st).
Proof.
  intros Hfile Hsalt Hst Hhash Hht Hcreate. unfold check_credentials.
  rewrite Hfile, Hsalt, Hhash, Hst, Hht, Hcreate. simpl.
  rewrite String.eqb_refl. reflexivity.
Qed.

Lemma check_credentials_values (pbkdf2Sync : string -> string -> string)
    (salt_bytes name password : string) (create : value)
    (init init' : InitialPos.t) (st st' : State) :
  check_credentials pbkdf2Sync salt_bytes name password create init st
    = inr (init', st') ->
  (forall data,
     map_get String.eqb name (playerFiles (disk st)) = Some (Parsed data) ->
     verifyPassword pbkdf2Sync password (lookup_field "salt" data)
                    (lookup_field "hash" data) = Returns true ->
     init' = fill_from_record data init) /\
  ((forall data,
      map_get String.eqb name (playerFiles (disk st)) = Some (Parsed data) ->
      verifyPassword pbkdf2Sync password (lookup_field "salt" data)
                     (lookup_field "hash" data) <> Returns true) ->
   InitialPos.roomId init' = InitialPos.roomId init /\
   InitialPos.privilege init' = InitialPos.privilege init).
Proof.
  unfold check_credentials.
  destruct (map_get String.eqb name (playerFiles (disk st)))
    as [[data|]|] eqn:Hfile.
  - destruct (negb (truthy (lookup_field "salt" data))
              || negb (truthy (lookup_field "hash" data))); [discriminate|].
    destruct (truthy create); [discriminate|].
    destruct (verifyPassword pbkdf2Sync password (lookup_field "salt" data)
                             (lookup_field "hash" data))
      as [[|]| |] eqn:Hv; intros H; try discriminate H;
      injection H as <- <-; split.
    + intros data' Hd _. injection Hd as <-. reflexivity.
    + intros Hno. exfalso. exact (Hno data eq_refl Hv).
    + intros data' Hd Hv'. injection Hd as <-. congruence.
    + intros _. split; reflexivity.
    + intros data' Hd Hv'. injection Hd as <-. congruence.
    + intros _. split; reflexivity.
  - intros H. injection H as <- <-. split; [discriminate|].
    intros _. split; reflexivity.
  - destruct (truthy create); [|discriminate].
    destruct (savePlayerData _ _ _); intros H; injection H as <- <-;
      (split; [discriminate | intros _; split; reflexivity]).
Qed.

(** C10.  Every connection the handler admits (it sent credentials and
    nothing closed the socket) is sent an init snapshot that says roomId 0
    and privilege 10, while the position entry registered for it holds a
    room [r] and a privilege [p] of its own: the roomId and privilege of
    the stored record when the password was verified against one (a field
    that is no number leaves the default 0), and 0 and 0 for a new
    character and for a connection admitted after a caught exception.
    The privilege gate of the edit handlers reads the entry (with [p]
    below 10 every edit is refused), room broadcasts go by the entry's
    room (the connection is reached in room [r], and not in room 0 unless
    [r] is 0), and over any later run the entry, as long as it exists,
    keeps privilege [p]. *)
Theorem init_reports_room_0_and_privilege_10
    (pbkdf2Sync : string -> string -> string) (zones : list ZoneDef)
    (salt_bytes name password : string) (create : value) (st : State)
    (Hopen :
       existsb is_close
         (snd (on_first_message pbkdf2Sync salt_bytes
                 (FirstAuth name password create) st)) = false) :
  let id := clientId st in
  let result :=
    on_first_message pbkdf2Sync salt_bytes (FirstAuth name password create)
                     st in
  let st' := fst result in
  let stored := map_get String.eqb name (playerFiles (disk st)) in
  let verified data :=
    verifyPassword pbkdf2Sync password (lookup_field "salt" data)
                   (lookup_field "hash" data) = Returns true in
  exists mx my rest pos r p,
    snd result = Send id (MInit id (positions st') mx my 0 10) :: rest /\
    map_get Nat.eqb id (positions st') = Some pos /\
    Player.roomId pos = VNum r /\ Player.privilege pos = p /\
    (forall data, stored = Some (Parsed data) -> verified data ->
       r = match lookup_field "roomId" data with VNum n => n | _ => 0 end /\
       p = match lookup_field "privilege" data with
           | VNum n => n | _ => 0 end) /\
    ((forall data, stored = Some (Parsed data) -> ~ verified data) ->
     r = 0 /\ p = 0) /\
    (p < 10 -> forall msg extra,
       load_for_edit zones id msg extra st'
       = inl "Insufficient privileges"%string) /\
    (forall msg, In (Send id msg) (broadcastToRoom st' "0" (VNum r) msg)) /\
    (r <> 0 -> forall msg,
       ~ In (Send id msg) (broadcastToRoom st' "0" (VNum 0) msg)) /\
    (forall evs pos',
       map_get Nat.eqb id
               (positions (fst (run pbkdf2Sync zones evs st'))) = Some pos' ->
       Player.privilege pos' = p).
Proof.
  cbv zeta. revert Hopen. unfold on_first_message.
  destruct (negb (truthy (VStr name)) || negb (truthy (VStr password)));
    [discriminate|].
  match goal with
  | |- context [check_credentials _ _ _ _ _ ?i ?s1] =>
      pose proof (fun i' s' =>
                    check_credentials_values pbkdf2Sync salt_bytes name
                      password create i i' s1 s') as Hv;
      pose proof (fun i' s' =>
                    check_credentials_frame pbkdf2Sync salt_bytes name
                      password create i i' s1 s') as Hf;
      destruct (check_credentials pbkdf2Sync salt_bytes name password create
                                  i s1) as [message | [init' st2]]
  end; [discriminate|].
  intros _.
  destruct (Hv init' st2 eq_refl) as [Hrec Hdef].
  destruct (Hf init' st2 eq_refl) as (Hcid & Hcl & _).
  clear Hv Hf. cbn [disk clientId clients] in Hrec, Hdef, Hcid, Hcl.
  cbn [fst snd].
  set (pos := Player.mk _ _ _ _ _ _ _ _ _ _).
  set (st' := mkState _ _ (map_set Nat.eqb (clientId st) pos _) _ _ _ _ _ _ _
      _).
  assert (Hget : map_get Nat.eqb (clientId st) (positions st') = Some pos).
  { apply map_get_set_same, Nat.eqb_refl. }
  exists (InitialPos.x init'), (InitialPos.y init'),
    (tl (welcome (clientId st) name init' st')), pos,
    (InitialPos.roomId init'), (InitialPos.privilege init').
  split; [reflexivity|]. split; [exact Hget|].
  split; [reflexivity|]. split; [reflexivity|].
  split.
  { intros data Hd Hver. rewrite (Hrec data Hd Hver). split; reflexivity. }
  split; [exact Hdef|].
  split.
  { intros Hlt msg extra. apply load_for_edit_privilege. rewrite Hget.
    exact Hlt. }
  split.
  { intros msg. apply broadcastToRoom_reaches with pos.
    - cbn [clients st']. rewrite Hcl. apply map_set_In.
    - exact Hget.
    - reflexivity.
    - simpl. apply Z.eqb_refl. }
  split.
  { intros Hr msg. apply broadcastToRoom_skips with pos; [exact Hget|].
    simpl. apply Z.eqb_neq. exact Hr. }
  intros evs pos'.
  apply (run_keeps_privilege pbkdf2Sync zones (clientId st)
           (InitialPos.privilege init') evs st').
  - cbn [clientId st']. rewrite Hcid. lia.
  - intros q Hq. rewrite Hget in Hq. injection Hq as <-. reflexivity.
Qed.
(** ** Player records *)

Lemma json_obj_skip (k k' : string) (v : value) (l : list (string * value)) :
  String.eqb k k' = false ->
  lookup_field k (json_obj ((k', v) :: l)) = lookup_field k (json_obj l).
Proof.
  intros E. unfold json_obj. cbn [filter snd].
  destruct v; cbn [lookup_field]; rewrite ?E; reflexivity.
Qed.

Lemma player_record_privilege (name : string) (x y roomId : value)
    (color : string) (inventory : list value) (privilege : Z)
    (salt hash : value) :
  lookup_field "privilege"
    (player_record name x y roomId color inventory privilege salt hash)
  = VNum privilege.
Proof.
  unfold player_record. rewrite !json_obj_skip by reflexivity. reflexivity.
Qed.

Lemma json_obj_head (k : string) (v : value) (l : list (string * value)) :
  lookup_field k (json_obj ((k, v) :: l))
  = match v with
    | VUndef => lookup_field k (json_obj l)
    | _ => v
    end.
Proof.
  unfold json_obj. cbn [filter snd].
  destruct v; cbn [lookup_field]; rewrite ?String.eqb_refl; reflexivity.
Qed.

(** Reading a field of the record that savePlayerData writes gives what
    was written; a field written as undefined is absent and reads
    undefined. *)
Lemma player_record_fields (name : string) (x y roomId : value)
    (color : string) (inventory : list value) (privilege : Z)
    (salt hash : value) :
  let record :=
    player_record name x y roomId color inventory privilege salt hash in
  lookup_field "name" record = VStr name /\
  lookup_field "x" record = x /\ lookup_field "y" record = y /\
  lookup_field "roomId" record = roomId /\
  lookup_field "color" record = VStr color /\
  lookup_field "inventory" record = VArr inventory /\
  lookup_field "privilege" record = VNum privilege /\
  lookup_field "salt" record = salt /\ lookup_field "hash" record = hash.
Proof.
  cbv zeta. unfold player_record.
  repeat split;
    rewrite ?json_obj_skip by reflexivity;
    rewrite json_obj_head;
    first
      [ reflexivity
      | match goal with
        | |- context [match ?v with _ => _ end] =>
            destruct v; try reflexivity;
            rewrite ?json_obj_skip by reflexivity; reflexivity
        end ].
Qed.

(** ** Drop, and how pickup and drop compose *)





(** ** Positions, broadcasts and the end of a connection *)

Lemma dispatch_update (zones : list ZoneDef) (id : nat) (name : string)
    (msg : list (string * value)) (st : State) :
  lookup_field "type" msg = VStr "update" ->
  dispatch zones id name msg st = handle_update id msg st.
Proof. intros H. unfold dispatch. rewrite H. reflexivity. Qed.

Lemma sendToOthers_not_self (st : State) (id : nat) (m m' : ServerMsg) :
  ~ In (Send id m') (sendToOthers st id m).
Proof.
  unfold sendToOthers. intros H. apply in_flat_map in H.
  destruct H as ([i o] & _ & H).
  destruct (Nat.eqb_spec i id) as [-> | Hne]; [contradiction|].
  simpl in H. destruct o; [|contradiction].
  destruct H as [H | []]. congruence.
Qed.

(** X3.  An update message of a connection that has a position: x, y and
    roomId of the entry become what the message carries (whatever it
    carries); name, privilege, color, inventory, credentials and zone
    stay; no other entry changes; the new position goes to every other
    open connection and never back to the sender. *)
Theorem update_overwrites_position (zones : list ZoneDef) (id : nat)
    (name : string) (msg : list (string * value)) (st : State)
    (player : Player.t)
    (Htype : lookup_field "type" msg = VStr "update")
    (Hplayer : map_get Nat.eqb id (positions st) = Some player) :
  let result := on_message zones id name (Some (VObj msg)) st in
  let player' :=
    Player.mk (Player.name player) (lookup_field "x" msg)
              (lookup_field "y" msg) (lookup_field "roomId" msg)
              (Player.privilege player) (Player.color player)
              (Player.inventory player) (Player.salt player)
              (Player.hash player) (Player.zone player) in
  fst result = set_positions (map_set Nat.eqb id player' (positions st)) st /\
  map_get Nat.eqb id (positions (fst result)) = Some player' /\
  (forall other, other <> id ->
     map_get Nat.eqb other (positions (fst result))
     = map_get Nat.eqb other (positions st)) /\
  snd result
    = sendToOthers st id
        (MUpdate id (lookup_field "x" msg) (lookup_field "y" msg)
                 (lookup_field "roomId" msg) (Player.name player)
                 (Player.privilege player)) /\
  (forall m, ~ In (Send id m) (snd result)).
Proof.
  cbv zeta. unfold on_message.
  rewrite (dispatch_update zones id name msg st Htype).
  unfold handle_update. rewrite Hplayer. unfold done. cbv beta iota.
  rewrite app_nil_r. cbn [fst snd].
  split; [reflexivity|]. split.
  { simpl. apply map_get_set_same, Nat.eqb_refl. }
  split.
  { intros other Hne. simpl.
    apply map_get_set_other; auto using nat_eqb_iff. }
  split; [reflexivity|].
  intros m. apply sendToOthers_not_self.
Qed.

Lemma map_get_none_not_in {V : Type} (k : nat) (v : V) (m : list (nat * V)) :
  map_get Nat.eqb k m = None -> ~ In (k, v) m.
Proof.
  induction m as [|[k' v'] m IH]; simpl; [tauto|].
  destruct (Nat.eqb_spec k k') as [-> | Hne]; [discriminate|].
  intros Hget [Heq | Hin]; [congruence | exact (IH Hget Hin)].
Qed.

(** X4.  The close handler of a connection: its id leaves [clients],
    [positions] and [nameMap], every other entry of the three maps stays,
    leave goes to every socket still registered and open and never to the
    closed one, and, when the connection had a position and the disk is
    writable, the player file of its name then holds its name, position,
    room, color, privilege, salt and hash. *)
Theorem close_deregisters (id : nat) (st : State) :
  let st' := fst (on_close id st) in
  map_get Nat.eqb id (clients st') = None /\
  map_get Nat.eqb id (positions st') = None /\
  map_get Nat.eqb id (nameMap st') = None /\
  (forall other, other <> id ->
     map_get Nat.eqb other (clients st') = map_get Nat.eqb other (clients st) /\
     map_get Nat.eqb other (positions st')
       = map_get Nat.eqb other (positions st) /\
     map_get Nat.eqb other (nameMap st')
       = map_get Nat.eqb other (nameMap st)) /\
  snd (on_close id st) = sendToAll st' (MLeave id) /\
  (forall m, ~ In (Send id m) (snd (on_close id st))) /\
  (forall data,
     map_get Nat.eqb id (positions st) = Some data ->
     writable (disk st) = true ->
     exists record,
       map_get String.eqb (Player.name data) (playerFiles (disk st'))
       = Some (Parsed record) /\
       lookup_field "name" record = VStr (Player.name data) /\
       lookup_field "x" record = Player.x data /\
       lookup_field "y" record = Player.y data /\
       lookup_field "roomId" record = Player.roomId data /\
       lookup_field "color" record = VStr (Player.color data) /\
       lookup_field "privilege" record = VNum (Player.privilege data) /\
       lookup_field "salt" record = Player.salt data /\
       lookup_field "hash" record = Player.hash data) /\
  objectInstances st' = objectInstances st /\
  npcInstances st' = npcInstances st /\ gameTime st' = gameTime st.
Proof.
  cbv zeta.
  assert (Hmaps :
    clients (fst (on_close id st)) = map_delete Nat.eqb id (clients st) /\
    positions (fst (on_close id st)) = map_delete Nat.eqb id (positions st) /\
    nameMap (fst (on_close id st)) = map_delete Nat.eqb id (nameMap st) /\
    objectInstances (fst (on_close id st)) = objectInstances st /\
    npcInstances (fst (on_close id st)) = npcInstances st /\
    gameTime (fst (on_close id st)) = gameTime st).
  { unfold on_close, savePlayerData.
    destruct (map_get Nat.eqb id (positions st)); [|simpl; auto 6].
    destruct (writable (disk st)); simpl; auto 6. }
  destruct Hmaps as (Hc & Hp & Hn & Ho & Hnpc & Hg).
  rewrite Hc, Hp, Hn.
  split; [apply map_get_delete_same, nat_eqb_iff|].
  split; [apply map_get_delete_same, nat_eqb_iff|].
  split; [apply map_get_delete_same, nat_eqb_iff|].
  split.
  { intros other Hne.
    repeat split; apply map_get_delete_other; auto using nat_eqb_iff. }
  split; [reflexivity|].
  split.
  { intros m Hin. simpl in Hin. unfold sendToAll in Hin.
    apply in_flat_map in Hin. destruct Hin as ([i o] & Hio & Hin).
    destruct o; [|contradiction]. destruct Hin as [Hin | []].
    injection Hin as Hi _. subst i.
    assert (Hget : map_get Nat.eqb id (clients (fst (on_close id st))) = None).
    { rewrite Hc. apply map_get_delete_same, nat_eqb_iff. }
    exact (map_get_none_not_in _ _ _ Hget Hio). }
  split; [|auto].
  intros data Hdata Hw. exists (player_file_of data). split.
  { unfold on_close, savePlayerData.
    rewrite Hdata, Hw. simpl. apply map_get_set_same, String.eqb_refl. }
  unfold player_file_of.
  destruct (player_record_fields (Player.name data) (Player.x data)
              (Player.y data) (Player.roomId data) (Player.color data)
              (Player.inventory data) (Player.privilege data)
              (Player.salt data) (Player.hash data))
    as (F1 & F2 & F3 & F4 & F5 & _ & F7 & F8 & F9).
  auto 10.
Qed.

Lemma sendToOthers_sends (st : State) (id : nat) (msg : ServerMsg)
    (e : Effect) :
  In e (sendToOthers st id msg) -> exists to, e = Send to msg.
Proof.
  unfold sendToOthers. intros H. apply in_flat_map in H.
  destruct H as ([i o] & _ & H).
  destruct (negb (i =? id)%nat && o); [|contradiction].
  destruct H as [<- | []]. exists i. reflexivity.
Qed.

Lemma sendToPlayer_sends (st : State) (id : nat) (msg : ServerMsg)
    (e : Effect) :
  In e (sendToPlayer st id msg) -> e = Send id msg.
Proof.
  unfold sendToPlayer.
  destruct (map_get Nat.eqb id (clients st)) as [[|]|]; try contradiction.
  intros [<- | []]. reflexivity.
Qed.

Ltac only_sends H :=
  repeat first
    [ contradiction
    | apply broadcastToRoom_sends in H; destruct H as [? ->]; reflexivity
    | apply sendToAll_sends in H; destruct H as [? ->]; reflexivity
    | apply sendToOthers_sends in H; destruct H as [? ->]; reflexivity
    | apply sendToPlayer_sends in H; rewrite H; reflexivity
    | destruct H as [<- | H]; [reflexivity|]
    | apply in_app_or in H; destruct H as [H | H] ].

Lemma dispatch_sends (zones : list ZoneDef) (id : nat) (name : string)
    (msg : list (string * value)) (st : State) (e : Effect) :
  In e (snd (fst (dispatch zones id name msg st))) -> is_send e = true.
Proof.
  unfold dispatch, handle_update, handle_pickup, handle_drop, handle_request,
    handle_get_context_menu, handle_context_action, handle_edit_tile,
    handle_edit_tile_exits, handle_resize_room, reply_error, done, thrown.
  intros H.
  destruct_matches_in H; cbn [fst snd] in H; only_sends H.
Qed.

(** X5.  Whatever a connection sends after its login (bytes that do not
    parse included), the handler only sends: it closes no socket; and it
    leaves the connection counter, the socket registry, the names, the
    attached handlers, the clock, the NPCs and the walk timers as they
    are. *)
Theorem messages_never_close_or_deregister (zones : list ZoneDef) (id : nat)
    (name : string) (raw : option value) (st : State) :
  let result := on_message zones id name raw st in
  (forall e, In e (snd result) -> is_send e = true) /\
  clientId (fst result) = clientId st /\ clients (fst result) = clients st /\
  nameMap (fst result) = nameMap st /\ listeners (fst result) = listeners st /\
  gameTime (fst result) = gameTime st /\
  npcInstances (fst result) = npcInstances st /\
  npcTimers (fst result) = npcTimers st /\
  map fst (positions (fst result)) = map fst (positions st).
Proof.
  cbv zeta.
  destruct (on_message_frame zones id name raw st)
    as (F1 & F2 & F3 & F4 & F5 & F6 & F7 & _ & F9 & _).
  split; [|repeat (split; [assumption|])].
  - unfold on_message. intros e He.
    assert (Hcatch : forall s : State,
              In e match map_get Nat.eqb id (clients s) with
                   | Some true => [Send id (MError "Invalid message format")]
                   | _ => []
                   end -> is_send e = true).
    { intros s H. destruct (map_get Nat.eqb id (clients s)) as [[|]|];
        only_sends H. }
    destruct raw as [v|]; [|exact (Hcatch st He)].
    destruct v as [| | | | | |msg];
      try exact (Hcatch st He); try contradiction.
    pose proof (dispatch_sends zones id name msg st e) as Hd.
    destruct (dispatch zones id name msg st) as [[st' out] threw].
    cbn [fst snd] in *. apply in_app_or in He.
    destruct He as [He | He]; [auto|].
    destruct threw; [exact (Hcatch st' He) | contradiction].
  - clear - F9. induction F9 as [|a b l l' (Hk & _) _ IH]; [reflexivity|].
    simpl. rewrite Hk, IH. reflexivity.
Qed.

(** X6.  A room broadcast reaches exactly the connections whose socket is
    open and whose position entry lies in that zone and room, and sends
    nothing but the broadcast message. *)
Theorem broadcastToRoom_recipients (st : State) (zone : string)
    (roomId : value) (msg : ServerMsg) (e : Effect) :
  In e (broadcastToRoom st zone roomId msg) <->
  exists to pos,
    e = Send to msg /\ In (to, true) (clients st) /\
    map_get Nat.eqb to (positions st) = Some pos /\
    Player.zone pos = zone /\ strict_eq (Player.roomId pos) roomId = true.
Proof.
  unfold broadcastToRoom. rewrite in_flat_map. split.
  - intros ([i o] & Hio & H).
    destruct (map_get Nat.eqb i (positions st)) as [pos|] eqn:Hp;
      [|contradiction].
    destruct (String.eqb_spec (Player.zone pos) zone) as [Hz | Hz];
      [|contradiction].
    destruct (strict_eq (Player.roomId pos) roomId) eqn:Hr; [|contradiction].
    destruct o; [|contradiction]. destruct H as [<- | []].
    exists i, pos. auto.
  - intros (to & pos & -> & Hc & Hp & Hz & Hr).
    exists (to, true). split; [exact Hc|].
    rewrite Hp, Hz, Hr, String.eqb_refl. simpl. auto.
Qed.
(** ** Registration, login and the unreadable record *)

Lemma welcome_sends (id : nat) (name : string) (init : InitialPos.t)
    (st : State) (e : Effect) :
  In e (welcome id name init st) -> is_send e = true.
Proof. unfold welcome. intros H. only_sends H. Qed.

Lemma register_credentials (pbkdf2Sync : string -> string -> string)
    (salt_bytes name password : string) (init : InitialPos.t) (st : State) :
  map_get String.eqb name (playerFiles (disk st)) = None ->
  writable (disk st) = true ->
  let init' :=
    InitialPos.mk (InitialPos.name init) (InitialPos.x init)
                  (InitialPos.y init) (InitialPos.roomId init)
                  (InitialPos.color init) (InitialPos.privilege init)
                  (InitialPos.inventory init) (VStr salt_bytes)
                  (VStr (pbkdf2Sync password salt_bytes)) in
  check_credentials pbkdf2Sync salt_bytes name password (VBool true) init st
  = inr (init',
         set_disk (with_playerFiles
                     (map_set String.eqb name (Parsed (initial_record init'))
                              (playerFiles (disk st))) (disk st)) st).
Proof.
  intros Hnew Hw. cbv zeta. unfold check_credentials, savePlayerData.
  rewrite Hnew, Hw. reflexivity.
Qed.

Lemma nonempty_truthy (s : string) :
  s <> EmptyString -> truthy (VStr s) = true.
Proof.
  intros H. simpl. destruct (String.eqb_spec s EmptyString); [contradiction|].
  reflexivity.
Qed.

(** X7.  Registration and login fit together.  Creating a character under
    a name that has no player file, on a writable disk (name and password
    not empty, the name a plain file name), logs the connection in
    (nothing is closed) with privilege 0 in room 0 and writes a record
    carrying the salt and the hash of the password.  Against that record a
    login with the same password is admitted, a login with a password
    that hashes differently is answered "Incorrect password." and closed,
    and a second creation is answered "Character already exists." and
    closed. *)
Theorem registration_then_login (pbkdf2Sync : string -> string -> string)
    (salt_bytes name password : string) (st : State)
    (Hname : name <> EmptyString) (Hpassword : password <> EmptyString)
    (Hplain : plain_name name = true)
    (Hnew : map_get String.eqb name (playerFiles (disk st)) = None)
    (Hdisk : writable (disk st) = true)
    (Hsalt : truthy (VStr salt_bytes) = true)
    (Hhash : truthy (VStr (pbkdf2Sync password salt_bytes)) = true) :
  let result :=
    on_first_message pbkdf2Sync salt_bytes
                     (FirstAuth name password (VBool true)) st in
  let st1 := fst result in
  let again salt2 password' create :=
    on_first_message pbkdf2Sync salt2 (FirstAuth name password' create) st1 in
  (forall e, In e (snd result) -> is_send e = true) /\
  (exists pos,
     map_get Nat.eqb (clientId st) (positions st1) = Some pos /\
     Player.name pos = name /\ Player.privilege pos = 0 /\
     Player.roomId pos = VNum 0) /\
  (exists record,
     map_get String.eqb name (playerFiles (disk st1)) = Some (Parsed record) /\
     lookup_field "salt"%string record = VStr salt_bytes /\
     lookup_field "hash"%string record = VStr (pbkdf2Sync password
         salt_bytes)) /\
  (forall salt2,
     (forall e, In e (snd (again salt2 password (VBool false))) ->
                is_send e = true) /\
     exists pos,
       map_get Nat.eqb (clientId st1)
               (positions (fst (again salt2 password (VBool false))))
       = Some pos /\
       Player.name pos = name /\ Player.privilege pos = 0) /\
  (forall salt2 password',
     password' <> EmptyString ->
     pbkdf2Sync password' salt_bytes <> pbkdf2Sync password salt_bytes ->
     snd (again salt2 password' (VBool false))
     = [Send (clientId st1) (MError "Incorrect password."); Close (clientId
         st1)]) /\
  (forall salt2 password',
     password' <> EmptyString ->
     snd (again salt2 password' (VBool true))
     = [Send (clientId st1) (MError "Character already exists.");
        Close (clientId st1)]).
Proof.
  cbv zeta.
  pose proof (nonempty_truthy _ Hname) as Tn.
  pose proof (nonempty_truthy _ Hpassword) as Tp.
  set (result := on_first_message pbkdf2Sync salt_bytes
                   (FirstAuth name password (VBool true)) st).
  assert (Hres :
    (forall e, In e (snd result) -> is_send e = true) /\
    (exists pos,
       map_get Nat.eqb (clientId st) (positions (fst result)) = Some pos /\
       Player.name pos = name /\ Player.privilege pos = 0 /\
       Player.roomId pos = VNum 0) /\
    (exists record,
       map_get String.eqb name (playerFiles (disk (fst result)))
       = Some (Parsed record) /\
       lookup_field "salt"%string record = VStr salt_bytes /\
       lookup_field "hash"%string record
       = VStr (pbkdf2Sync password salt_bytes) /\
       lookup_field "privilege"%string record = VNum 0)).
  { subst result. unfold on_first_message. rewrite Tn, Tp. cbn [negb orb].
    match goal with
    | |- context [check_credentials _ _ _ _ _ ?i ?s1] =>
        rewrite (register_credentials pbkdf2Sync salt_bytes name password i
                   s1 Hnew Hdisk)
    end.
    cbn [fst snd].
    split; [intros e; apply welcome_sends|].
    split.
    { eexists. split; [simpl; apply map_get_set_same, Nat.eqb_refl|].
      repeat split. }
    eexists. split; [simpl; apply map_get_set_same, String.eqb_refl|].
    repeat split. }
  destruct Hres as (Hsends & Hpos & record & Hfile & Hs & Hh & Hp).
  split; [exact Hsends|]. split; [exact Hpos|].
  split; [exists record; auto|].
  clear Hsends Hpos. generalize dependent (fst result). intros st1 Hfile.
  assert (Hst : truthy (lookup_field "salt" record) = true)
    by (rewrite Hs; exact Hsalt).
  assert (Hht : truthy (lookup_field "hash" record) = true)
    by (rewrite Hh; exact Hhash).
  split.
  { intros salt2. unfold on_first_message. rewrite Tn, Tp. cbn [negb orb].
    match goal with
    | |- context [check_credentials _ _ _ _ _ ?i ?s1] =>
        rewrite (login_with_record pbkdf2Sync salt2 name password
                   (VBool false) s1 record salt_bytes i Hfile Hs Hsalt Hh
                   Hhash eq_refl)
    end.
    cbn [fst snd]. split; [intros e; apply welcome_sends|].
    eexists. split; [simpl; apply map_get_set_same, Nat.eqb_refl|].
    split; [reflexivity|].
    unfold fill_from_record.
    cbn [Player.privilege InitialPos.privilege]. rewrite Hp. reflexivity. }
  split.
  { intros salt2 password' Hpw' Hdiff.
    pose proof (nonempty_truthy _ Hpw') as Tp'.
    assert (Hne : strict_eq (lookup_field "hash" record)
                            (VStr (pbkdf2Sync password' salt_bytes)) = false).
    { rewrite Hh. simpl. apply String.eqb_neq. intros E. apply Hdiff.
      symmetry. exact E. }
    unfold on_first_message. rewrite Tn, Tp'. cbn [negb orb].
    match goal with
    | |- context [check_credentials _ _ _ _ _ ?i ?s1] =>
        pose proof (auth_failure_causes pbkdf2Sync salt2 name password'
                      (VBool false) i s1) as Hc
    end.
    cbv zeta in Hc. destruct Hc as (_ & _ & Hbad & _).
    rewrite (Hbad record salt_bytes Hfile Hs Hst Hht eq_refl Hne).
    reflexivity. }
  intros salt2 password' Hpw'.
  pose proof (nonempty_truthy _ Hpw') as Tp'.
  unfold on_first_message. rewrite Tn, Tp'. cbn [negb orb].
  match goal with
  | |- context [check_credentials _ _ _ _ _ ?i ?s1] =>
      pose proof (auth_failure_causes pbkdf2Sync salt2 name password'
                    (VBool true) i s1) as Hc
  end.
  cbv zeta in Hc. destruct Hc as (_ & Hexists & _).
  rewrite (Hexists record Hfile Hst Hht eq_refl). reflexivity.
Qed.

(** X8.  A player file that cannot be read or parsed does not stop a
    login: the exception is caught and logged, no password is checked, and
    the connection is registered under that name with the default
    position (400, 300) in room 0, privilege 0, an empty inventory and no
    salt or hash, whatever the password and the create flag, as long as
    name and password are not empty. *)
Theorem unreadable_record_admits_any_password
    (pbkdf2Sync : string -> string -> string)
    (salt_bytes name password : string) (create : value) (st : State)
    (Hname : name <> EmptyString) (Hpassword : password <> EmptyString)
    (Hfile : map_get String.eqb name (playerFiles (disk st))
             = Some Unreadable) :
  let result :=
    on_first_message pbkdf2Sync salt_bytes (FirstAuth name password create)
                     st in
  (forall e, In e (snd result) -> is_send e = true) /\
  map_get Nat.eqb (clientId st) (positions (fst result))
  = Some (Player.mk name (VNum 400) (VNum 300) (VNum 0) 0
                    (nth (clientId st mod List.length colors) colors
                         EmptyString)
                    [] VUndef VUndef "0") /\
  In (clientId st, name) (listeners (fst result)) /\
  disk (fst result) = disk st.
Proof.
  cbv zeta. unfold on_first_message, check_credentials.
  rewrite (nonempty_truthy _ Hname), (nonempty_truthy _ Hpassword).
  cbn [negb orb disk].
  rewrite Hfile. cbn [fst snd].
  split; [intros e; apply welcome_sends|].
  split; [simpl; apply map_get_set_same, Nat.eqb_refl|].
  split; [simpl; apply in_or_app; right; left; reflexivity | reflexivity].
Qed.
(** ** The validators *)

Lemma read_digits_acc (d : Decimal.uint) (acc : positive) :
  read_digits (Some (Z.pos acc)) (NilEmpty.string_of_uint d)
  = Some (Z.pos (Pos.of_uint_acc d acc)).
Proof.
  revert acc.
  induction d; intros acc; cbn [NilEmpty.string_of_uint read_digits
      Pos.of_uint_acc];
    try reflexivity;
    match goal with
    | |- context [is_digit ?c] => change (is_digit c) with true
    end; cbv iota; unfold digit_value; cbn [nat_of_ascii];
    rewrite <- IHd; f_equal; f_equal; vm_compute Z.of_nat; lia.
Qed.

Lemma read_digits_zero (d : Decimal.uint) :
  read_digits (Some 0) (NilEmpty.string_of_uint d)
  = Some (Z.of_N (Pos.of_uint d)).
Proof.
  induction d; cbn [NilEmpty.string_of_uint read_digits Pos.of_uint];
    try reflexivity;
    match goal with
    | |- context [is_digit ?c] => change (is_digit c) with true
    end; cbv iota; unfold digit_value;
    match goal with
    | |- context [Z.of_nat (nat_of_ascii ?c)] =>
        let n := eval vm_compute in (Z.of_nat (nat_of_ascii c)) in
        change (Z.of_nat (nat_of_ascii c)) with n
    end; cbn [Z.mul Z.add Z.sub Z.opp Z.pos_sub Pos.pred_double Z.succ_double
              Z.pred_double Z.double];
    solve [exact IHd | apply read_digits_acc].
Qed.

Lemma read_digits_none (d : Decimal.uint) :
  d <> Decimal.Nil ->
  read_digits None (NilEmpty.string_of_uint d)
  = Some (Z.of_N (Pos.of_uint d)).
Proof.
  intros Hd. rewrite <- read_digits_zero.
  destruct d; [congruence | reflexivity ..].
Qed.

Lemma digits_only (d : Decimal.uint) :
  all_chars is_digit (NilEmpty.string_of_uint d) = true.
Proof. induction d; simpl; auto. Qed.

Lemma digits_head (d : Decimal.uint) :
  d <> Decimal.Nil ->
  exists c s, NilEmpty.string_of_uint d = String c s /\ is_digit c = true.
Proof.
  intros Hd. destruct d; [congruence | ..]; simpl; eauto.
Qed.

Lemma Z_to_string_digits (n : Z) :
  0 <= n -> all_chars is_digit (Z_to_string n) = true.
Proof.
  intros Hn. unfold Z_to_string.
  destruct n as [|p|p]; [reflexivity | | lia].
  cbn [Z.to_int NilZero.string_of_int]. unfold NilZero.string_of_uint.
  destruct (Pos.to_uint p) eqn:E; try reflexivity;
    rewrite <- E; apply digits_only.
Qed.

Lemma digits_exclude (s : string) (c : ascii) :
  all_chars is_digit s = true -> is_digit c = false -> includes s c = false.
Proof.
  intros Hs Hc. induction s as [|c' s IH]; [reflexivity|].
  simpl in *. apply andb_true_iff in Hs. destruct Hs as [Hc' Hs].
  rewrite (IH Hs), orb_false_r.
  destruct (Ascii.eqb_spec c c') as [-> | _]; [congruence | reflexivity].
Qed.

Lemma skip_spaces_digit (c : ascii) (rest : string) :
  is_digit c = true -> skip_spaces (String c rest) = String c rest.
Proof.
  intros Hc.
  destruct c as [[] [] [] [] [] [] [] []]; try discriminate Hc;
    destruct rest as [|c2 [|c3 s3]]; reflexivity.
Qed.

Lemma skip_spaces_minus (rest : string) :
  skip_spaces (String "-" rest) = String "-" rest.
Proof. destruct rest as [|c2 [|c3 s3]]; reflexivity. Qed.

Lemma parseInt_digits (s : string) (c : ascii) (rest : string) :
  s = String c rest -> is_digit c = true ->
  (match skip_spaces s with
   | String "-" s' => option_map Z.opp (read_digits None s')
   | String "+" s' => read_digits None s'
   | s0 => read_digits None s0
   end) = read_digits None s.
Proof.
  intros -> Hc. rewrite (skip_spaces_digit c rest Hc).
  destruct c as [[] [] [] [] [] [] [] []]; try discriminate Hc; reflexivity.
Qed.

Lemma parseInt_pos (p : positive) :
  parseInt (VStr (NilEmpty.string_of_uint (Pos.to_uint p))) = Some (Z.pos p).
Proof.
  unfold parseInt. cbn [js_string].
  destruct (digits_head _ (DecimalPos.Unsigned.to_uint_nonnil p))
    as (c & rest & Hs & Hc).
  rewrite (parseInt_digits _ c rest Hs Hc).
  rewrite read_digits_none by apply DecimalPos.Unsigned.to_uint_nonnil.
  rewrite DecimalPos.Unsigned.of_to. reflexivity.
Qed.

Lemma Z_to_string_pos (p : positive) :
  Z_to_string (Z.pos p) = NilEmpty.string_of_uint (Pos.to_uint p).
Proof.
  unfold Z_to_string. cbn [Z.to_int NilZero.string_of_int].
  unfold NilZero.string_of_uint.
  destruct (Pos.to_uint p) eqn:E; try reflexivity.
  exfalso. exact (DecimalPos.Unsigned.to_uint_nonnil p E).
Qed.

Lemma parseInt_Z_to_string (n : Z) : parseInt (VStr (Z_to_string n)) = Some n.
Proof.
  destruct n as [|p|p]; [reflexivity | |].
  - rewrite Z_to_string_pos. apply parseInt_pos.
  - unfold Z_to_string. cbn [Z.to_int NilZero.string_of_int].
    unfold parseInt. cbn [js_string]. rewrite skip_spaces_minus.
    change (NilZero.string_of_uint (Pos.to_uint p))
      with (Z_to_string (Z.pos p)).
    rewrite Z_to_string_pos.
    rewrite read_digits_none by apply DecimalPos.Unsigned.to_uint_nonnil.
    rewrite DecimalPos.Unsigned.of_to. reflexivity.
Qed.


(** X10.  For the integers up to Number.MAX_SAFE_INTEGER in size, parseInt
    reads back what Number.prototype.toString prints, so validateRoomId
    accepts every non-negative one unchanged, given as a number or as its
    decimal string, and rejects every negative one. *)
Theorem validateRoomId_integers (n : Z)
    (Hsafe : Z.abs n <= MAX_SAFE_INTEGER) :
  parseInt (VNum n) = Some n /\
  validateRoomId (VNum n)
  = (if n <? 0 then inr "Invalid room ID"%string else inl n) /\
  validateRoomId (VStr (Z_to_string n)) = validateRoomId (VNum n).
Proof.
  assert (Hp : parseInt (VNum n) = Some n) by apply parseInt_Z_to_string.
  assert (Hv : validateRoomId (VNum n)
               = (if n <? 0 then inr "Invalid room ID"%string else inl n)).
  { unfold validateRoomId. rewrite Hp.
    destruct (Z.ltb_spec n 0) as [Hneg | Hpos]; [reflexivity|].
    destruct (Z.gtb_spec n MAX_SAFE_INTEGER) as [Hbig | _]; [lia|].
    pose proof (Z_to_string_digits n Hpos) as Hd.
    rewrite !(digits_exclude _ _ Hd) by reflexivity. reflexivity. }
  split; [exact Hp|]. split; [exact Hv|].
  rewrite Hv. unfold validateRoomId. rewrite parseInt_Z_to_string.
  destruct (Z.ltb_spec n 0) as [Hneg | Hpos]; [reflexivity|].
  destruct (Z.gtb_spec n MAX_SAFE_INTEGER) as [Hbig | _]; [lia|].
  pose proof (Z_to_string_digits n Hpos) as Hd.
  rewrite !(digits_exclude _ _ Hd) by reflexivity. reflexivity.
Qed.
(** ** The other two privileged edits *)

Lemma load_for_edit_inr (zones : list ZoneDef) (id : nat)
    (msg : list (string * value)) (extra : Validation) (st : State)
    (roomId : Z) (key : string * Z) (roomJson : Room) :
  load_for_edit zones id msg extra st = inr (roomId, key, roomJson) ->
  extra = Valid /\
  validateRoomId (lookup_field "roomId" msg) = inl roomId /\
  snd key = roomId /\
  map_get room_key_eqb key (roomFiles (disk st)) = Some roomJson /\
  exists player, map_get Nat.eqb id (positions st) = Some player /\
                 10 <= Player.privilege player.
Proof.
  unfold load_for_edit. intros H.
  destruct (map_get Nat.eqb id (positions st)) as [player|]; [|discriminate].
  destruct (Z.ltb_spec (Player.privilege player) 10); [discriminate|].
  destruct (validateRoomId _) as [r|]; [|discriminate].
  destruct extra; [|discriminate].
  destruct (zone_at _ _) as [zoneDef|]; [|discriminate].
  destruct (map_get room_key_eqb _ _) as [room|] eqn:Hroom; [|discriminate].
  injection H as <- <- <-. repeat split; eauto.
Qed.

(** X11.  An edit-tile-exits request that passes the privilege gate and
    the validation and whose write succeeds: reading the room file again
    gives the room in which tile (x, y) carries the submitted exits (none
    when the request sent null) and its terrain and other fields as
    before; every other tile, the room attributes and the other room
    files are as before, and every client is told of the edit. *)
Theorem edit_tile_exits_round_trip (zones : list ZoneDef) (id : nat)
    (msg : list (string * value)) (st : State) (roomId : Z)
    (key : string * Z) (roomJson : Room)
    (Hload : load_for_edit zones id msg
               (validateTileExits (lookup_field "tileExits" msg)) st
             = inr (roomId, key, roomJson))
    (Hvalid : validateEditRequest msg roomJson = Valid)
    (Hdisk : writable (disk st) = true) :
  exists st' room' mx my t,
    lookup_field "x" msg = VNum mx /\ lookup_field "y" msg = VNum my /\
    handle_edit_tile_exits zones id msg st
      = (st', sendToAll st' (MRoomUpdated roomId (VObj msg)), false) /\
    map_get room_key_eqb key (roomFiles (disk st')) = Some room' /\
    cell (tiles roomJson) (Z.to_nat my) (Z.to_nat mx) = Some t /\
    cell (tiles room') (Z.to_nat my) (Z.to_nat mx)
      = Some (mkTile (terrain t)
                     (match lookup_field "tileExits" msg with
                      | VNull => VUndef
                      | exits => exits
                      end)
                     (tileOther t)) /\
    (forall i j, (i, j) <> (Z.to_nat my, Z.to_nat mx) ->
                 cell (tiles room') i j = cell (tiles roomJson) i j) /\
    width room' = width roomJson /\ height room' = height roomJson /\
    roomOther room' = roomOther roomJson /\
    (forall key', key' <> key ->
       map_get room_key_eqb key' (roomFiles (disk st'))
       = map_get room_key_eqb key' (roomFiles (disk st))).
Proof.
  destruct (validateEditRequest_valid msg roomJson Hvalid)
    as (mx & my & t & Hx & Hy & Hx0 & Hy0 & Hcell).
  set (exits := match lookup_field "tileExits" msg with
                | VNull => VUndef
                | v => v
                end).
  set (room' := edit_tile_at msg (set_tileExits exits) roomJson).
  set (st' := set_disk (with_roomFiles
                          (map_set room_key_eqb key room'
                                   (roomFiles (disk st))) (disk st)) st).
  exists st', room', mx, my, t.
  split; [exact Hx|]. split; [exact Hy|]. split.
  { unfold handle_edit_tile_exits. rewrite Hload, Hvalid. unfold write_room.
    rewrite Hdisk. reflexivity. }
  split.
  { simpl. apply map_get_set_same. apply room_key_eqb_iff. reflexivity. }
  split; [exact Hcell|].
  assert (Htiles : forall i j,
            cell (tiles room') i j =
            if ((i =? Z.to_nat my) && (j =? Z.to_nat mx))%nat
            then option_map (set_tileExits exits)
                            (cell (tiles roomJson) (Z.to_nat my) (Z.to_nat mx))
            else cell (tiles roomJson) i j).
  { intros i j. unfold room', edit_tile_at. simpl.
    rewrite Hx, Hy. simpl. apply cell_update. }
  split.
  { rewrite Htiles, !Nat.eqb_refl, Hcell. reflexivity. }
  split.
  { intros i j Hne. rewrite Htiles.
    destruct (Nat.eqb_spec i (Z.to_nat my)) as [-> | Hi]; [|reflexivity].
    destruct (Nat.eqb_spec j (Z.to_nat mx)) as [-> | Hj]; [|reflexivity].
    congruence. }
  split; [reflexivity|]. split; [reflexivity|]. split; [reflexivity|].
  intros key' Hne. simpl.
  apply map_get_set_other; [apply room_key_eqb_iff | exact Hne].
Qed.

(** *** Resizing *)

(** A list stretched with [d] or cut to the length [new], as the resize
    does with each row and with the rows. *)
Lemma fit_nth_error {A : Type} (l : list A) (d : A) (old new : Z) (k : nat) :
  0 <= old -> 0 <= new -> List.length l = Z.to_nat old ->
  nth_error (if new >? old then l ++ repeat d (Z.to_nat (new - old))
             else if new <? old then firstn (Z.to_nat new) l
             else l) k
  = if (k <? Z.to_nat new)%nat
    then Some (match nth_error l k with Some a => a | None => d end)
    else None.
Proof.
  intros Hold Hnew Hlen.
  destruct (Z.gtb_spec new old) as [Hgt | Hle].
  - destruct (Nat.ltb_spec k (List.length l)) as [Hk | Hk].
    + rewrite nth_error_app1 by exact Hk.
      destruct (nth_error l k) eqn:E;
        [|apply nth_error_None in E; lia].
      destruct (Nat.ltb_spec k (Z.to_nat new)); [reflexivity | lia].
    + rewrite nth_error_app2 by exact Hk.
      replace (nth_error l k) with (@None A)
        by (symmetry; apply nth_error_None; exact Hk).
      destruct (Nat.ltb_spec k (Z.to_nat new)) as [Hn | Hn].
      * apply nth_error_repeat. lia.
      * apply nth_error_None. rewrite repeat_length. lia.
  - destruct (Z.ltb_spec new old) as [Hlt | Hge].
    + destruct (Nat.ltb_spec k (Z.to_nat new)) as [Hn | Hn].
      * rewrite nth_error_firstn.
        destruct (Nat.ltb_spec k (Z.to_nat new)); [|lia].
        destruct (nth_error l k) eqn:E; [reflexivity|].
        apply nth_error_None in E. lia.
      * apply nth_error_None. rewrite length_firstn. lia.
    + assert (new = old) by lia. subst new.
      destruct (Nat.ltb_spec k (Z.to_nat old)) as [Hn | Hn].
      * destruct (nth_error l k) eqn:E; [reflexivity|].
        apply nth_error_None in E. lia.
      * apply nth_error_None. lia.
Qed.

Lemma fit_length {A : Type} (l : list A) (d : A) (old new : Z) :
  0 <= old -> 0 <= new -> List.length l = Z.to_nat old ->
  List.length (if new >? old then l ++ repeat d (Z.to_nat (new - old))
               else if new <? old then firstn (Z.to_nat new) l
               else l)
  = Z.to_nat new.
Proof.
  intros Hold Hnew Hlen.
  destruct (Z.gtb_spec new old) as [Hgt | Hle].
  - rewrite length_app, repeat_length. lia.
  - destruct (Z.ltb_spec new old) as [Hlt | Hge].
    + rewrite length_firstn. lia.
    + assert (new = old) by lia. subst new. exact Hlen.
Qed.

Lemma resize_cell (newW newH : Z) (roomJson : Room) (i j : nat) :
  0 <= width roomJson -> 0 <= height roomJson ->
  0 <= newW -> 0 <= newH ->
  List.length (tiles roomJson) = Z.to_nat (height roomJson) ->
  Forall (fun row => List.length row = Z.to_nat (width roomJson))
         (tiles roomJson) ->
  cell (tiles (resize newW newH roomJson)) i j
  = if ((i <? Z.to_nat newH) && (j <? Z.to_nat newW))%nat
    then Some (match cell (tiles roomJson) i j with
               | Some t => t
               | None => void_tile
               end)
    else None.
Proof.
  intros Hw Hh HnW HnH Hrows Hcols. unfold resize, cell. cbn [tiles].
  rewrite (fit_nth_error _ _ (height roomJson) newH i Hh HnH)
    by (rewrite length_map; exact Hrows).
  destruct (Nat.ltb_spec i (Z.to_nat newH)) as [Hi | Hi]; [|reflexivity].
  cbn [andb]. rewrite nth_error_map.
  destruct (nth_error (tiles roomJson) i) as [row|] eqn:Hrow; cbn [option_map].
  - assert (Hlen : List.length row = Z.to_nat (width roomJson)).
    { rewrite Forall_forall in Hcols. apply Hcols.
      eapply nth_error_In. exact Hrow. }
    exact (fit_nth_error row void_tile (width roomJson) newW j Hw HnW Hlen).
  - destruct (Nat.ltb_spec j (Z.to_nat newW)) as [Hj | Hj].
    + apply nth_error_repeat. exact Hj.
    + apply nth_error_None. rewrite repeat_length. exact Hj.
Qed.

Lemma resize_shape (newW newH : Z) (roomJson : Room) :
  0 <= width roomJson -> 0 <= height roomJson ->
  0 <= newW -> 0 <= newH ->
  List.length (tiles roomJson) = Z.to_nat (height roomJson) ->
  Forall (fun row => List.length row = Z.to_nat (width roomJson))
         (tiles roomJson) ->
  List.length (tiles (resize newW newH roomJson)) = Z.to_nat newH /\
  Forall (fun row => List.length row = Z.to_nat newW)
         (tiles (resize newW newH roomJson)).
Proof.
  intros Hw Hh HnW HnH Hrows Hcols. unfold resize. cbn [tiles].
  set (f := fun row : list Tile => _).
  assert (Hmap : Forall (fun row => List.length row = Z.to_nat newW)
                        (map f (tiles roomJson))).
  { apply Forall_map. eapply Forall_impl; [|exact Hcols].
    intros row Hlen. exact (fit_length row void_tile _ newW Hw HnW Hlen). }
  split.
  - apply fit_length; [exact Hh | exact HnH |].
    rewrite length_map. exact Hrows.
  - destruct (newH >? height roomJson).
    + apply Forall_app. split; [exact Hmap|].
      apply Forall_forall. intros row Hin. apply repeat_spec in Hin.
      subst row. apply repeat_length.
    + destruct (newH <? height roomJson); [|exact Hmap].
      rewrite <- (firstn_skipn (Z.to_nat newH) (map f (tiles roomJson)))
        in Hmap.
      apply Forall_app in Hmap. exact (proj1 Hmap).
Qed.

(** X12.  A resize-room request that passes the privilege gate and the
    validation, on a room file whose tile grid has [height] rows of
    [width] tiles, and whose write succeeds: the dimensions asked for are
    between 1 and 100, and the room read back has them as its width and
    height, a grid of exactly that shape, every tile that lies inside both
    the old and the new bounds as it was and a void tile without exits
    everywhere else; the other room files are untouched and every client
    is told the new size. *)
Theorem resize_room_round_trip (zones : list ZoneDef) (id : nat)
    (msg : list (string * value)) (st : State) (roomId : Z)
    (key : string * Z) (roomJson : Room)
    (Hload : load_for_edit zones id msg (validateResizeRequest msg) st
             = inr (roomId, key, roomJson))
    (Hdisk : writable (disk st) = true)
    (Hw : 0 <= width roomJson) (Hh : 0 <= height roomJson)
    (Hrows : List.length (tiles roomJson) = Z.to_nat (height roomJson))
    (Hcols : Forall (fun row => List.length row = Z.to_nat (width roomJson))
                    (tiles roomJson)) :
  exists st' room' newW newH,
    lookup_field "width" msg = VNum newW /\
    lookup_field "height" msg = VNum newH /\
    1 <= newW <= 100 /\ 1 <= newH <= 100 /\
    handle_resize_room zones id msg st
      = (st', sendToAll st' (MRoomResized roomId newW newH), false) /\
    map_get room_key_eqb key (roomFiles (disk st')) = Some room' /\
    width room' = newW /\ height room' = newH /\
    roomOther room' = roomOther roomJson /\
    List.length (tiles room') = Z.to_nat newH /\
    Forall (fun row => List.length row = Z.to_nat newW) (tiles room') /\
    (forall i j,
       cell (tiles room') i j
       = if ((i <? Z.to_nat newH) && (j <? Z.to_nat newW))%nat
         then Some (match cell (tiles roomJson) i j with
                    | Some t => t
                    | None => void_tile
                    end)
         else None) /\
    (forall key', key' <> key ->
       map_get room_key_eqb key' (roomFiles (disk st'))
       = map_get room_key_eqb key' (roomFiles (disk st))).
Proof.
  destruct (load_for_edit_inr _ _ _ _ _ _ _ _ Hload) as (Hval & _).
  unfold validateResizeRequest, as_integer in Hval.
  destruct (lookup_field "width" msg) as [| | |newW| | |] eqn:HW;
    try discriminate.
  destruct (lookup_field "height" msg) as [| | |newH| | |] eqn:HH;
    try discriminate.
  destruct (Z.ltb_spec newW 1); [discriminate|].
  destruct (Z.ltb_spec newH 1); [discriminate|].
  destruct (Z.gtb_spec newW 100); [discriminate|].
  destruct (Z.gtb_spec newH 100); [discriminate|].
  set (room' := resize newW newH roomJson).
  set (st' := set_disk (with_roomFiles
                          (map_set room_key_eqb key room'
                                   (roomFiles (disk st))) (disk st)) st).
  exists st', room', newW, newH.
  split; [reflexivity|]. split; [reflexivity|].
  split; [lia|]. split; [lia|]. split.
  { unfold handle_resize_room. rewrite Hload, HW, HH. unfold write_room.
    rewrite Hdisk. reflexivity. }
  split.
  { simpl. apply map_get_set_same. apply room_key_eqb_iff. reflexivity. }
  split; [reflexivity|]. split; [reflexivity|]. split; [reflexivity|].
  destruct (resize_shape newW newH roomJson Hw Hh ltac:(lia) ltac:(lia)
              Hrows Hcols) as [Hlen Hall].
  split; [exact Hlen|]. split; [exact Hall|]. split.
  { intros i j. apply resize_cell; try assumption; lia. }
  intros key' Hne. simpl.
  apply map_get_set_other; [apply room_key_eqb_iff | exact Hne].
Qed.
(** ** Privilege is never gained *)

Lemma In_map_set {K V : Type} (eqb : K -> K -> bool) (k : K) (v : V)
    (m : list (K * V)) (e : K * V) :
  In e (map_set eqb k v m) -> e = (k, v) \/ In e m.
Proof.
  induction m as [|[k' v'] m IH]; simpl.
  - intros [<- | []]. auto.
  - destruct (eqb k k'); simpl; intros [<- | H]; auto.
    destruct (IH H); auto.
Qed.

Lemma In_map_delete {K V : Type} (eqb : K -> K -> bool) (k : K)
    (m : list (K * V)) (e : K * V) :
  In e (map_delete eqb k m) -> In e m.
Proof.
  induction m as [|[k' v'] m IH]; simpl; [auto|].
  destruct (eqb k k'); simpl; intros H; auto.
  destruct H; auto.
Qed.

Lemma map_get_In {K V : Type} (eqb : K -> K -> bool) (k : K) (v : V)
    (m : list (K * V)) :
  (forall a b, eqb a b = true -> a = b) ->
  map_get eqb k m = Some v -> In (k, v) m.
Proof.
  intros Heq. induction m as [|[k' v'] m IH]; simpl; [discriminate|].
  destruct (eqb k k') eqn:E.
  - intros [= ->]. left. rewrite (Heq _ _ E). reflexivity.
  - auto.
Qed.

Lemma unprivileged_same (st st' : State) :
  positions st' = positions st ->
  playerFiles (disk st') = playerFiles (disk st) ->
  all_unprivileged st -> all_unprivileged st'.
Proof. unfold all_unprivileged. intros -> ->. auto. Qed.

Lemma unprivileged_get (st : State) (id : nat) (p : Player.t) :
  all_unprivileged st -> map_get Nat.eqb id (positions st) = Some p ->
  Player.privilege p < 10.
Proof.
  intros [Hpos _] Hget. apply (Hpos id).
  apply (map_get_In Nat.eqb); [|exact Hget].
  intros a b. apply Nat.eqb_eq.
Qed.

Lemma unprivileged_set (st : State) (id : nat) (p : Player.t) :
  all_unprivileged st -> Player.privilege p < 10 ->
  all_unprivileged (set_positions (map_set Nat.eqb id p (positions st)) st).
Proof.
  intros [Hpos Hfiles] Hp. split; [|exact Hfiles].
  intros id' p' Hin. cbn [positions set_positions] in Hin.
  apply In_map_set in Hin. destruct Hin as [[= -> ->] | Hin]; eauto.
Qed.

Lemma savePlayerData_unprivileged (name : string)
    (record : list (string * value)) (q : Z) (st st' : State) :
  all_unprivileged st ->
  lookup_field "privilege" record = VNum q -> q < 10 ->
  savePlayerData name record st = Returns st' ->
  all_unprivileged st' /\ roomFiles (disk st') = roomFiles (disk st).
Proof.
  unfold savePlayerData. intros [Hpos Hfiles] Hrec Hq.
  destruct (writable (disk st)); [|discriminate].
  intros [= <-]. split; [|reflexivity]. split; [exact Hpos|].
  intros name' data n Hin Hn. simpl in Hin. apply In_map_set in Hin.
  destruct Hin as [[= -> <-] | Hin]; [congruence | eauto].
Qed.

Lemma saveObjectsState_same (st st' : State) :
  saveObjectsState st = Returns st' ->
  positions st' = positions st /\
  playerFiles (disk st') = playerFiles (disk st) /\
  roomFiles (disk st') = roomFiles (disk st).
Proof.
  unfold saveObjectsState. destruct (writable (disk st)); [|discriminate].
  intros [= <-]. auto.
Qed.

Section Unprivileged.

Variable pbkdf2Sync : string -> string -> string.
Variable zones : list ZoneDef.

Local Abbreviation keeps st st' :=
  (all_unprivileged st' /\ roomFiles (disk st') = roomFiles (disk st)).

Lemma handle_update_unprivileged (id : nat) (msg : list (string * value))
    (st : State) :
  all_unprivileged st -> keeps st (fst (fst (handle_update id msg st))).
Proof.
  intros H. unfold handle_update.
  destruct (map_get Nat.eqb id (positions st)) as [player|] eqn:Hp.
  - split; [|reflexivity]. apply unprivileged_set; [exact H|].
    exact (unprivileged_get st id player H Hp).
  - destruct (existsb _ _); split; auto.
Qed.

Lemma handle_pickup_unprivileged (id : nat) (name : string)
    (msg : list (string * value)) (st : State) :
  all_unprivileged st -> keeps st (fst (fst (handle_pickup id name msg st))).
Proof.
  intros H. unfold handle_pickup.
  destruct (toString _) as [zoneKey| |]; try (split; [exact H | reflexivity]).
  destruct (find _ _) as [inst|]; [|split; [exact H | reflexivity]].
  destruct (_ && _); [|split; [exact H | reflexivity]].
  destruct (saveObjectsState _) as [st2| |] eqn:Hsave;
    try (split; [exact H | reflexivity]).
  destruct (saveObjectsState_same _ _ Hsave) as (P & F & R).
  split; [|exact R]. exact (unprivileged_same _ _ P F H).
Qed.

Lemma handle_drop_unprivileged (id : nat) (name : string)
    (msg : list (string * value)) (st : State) :
  all_unprivileged st -> keeps st (fst (fst (handle_drop id name msg st))).
Proof.
  intros H. unfold handle_drop.
  destruct (toString _) as [zoneKey| |]; try (split; [exact H | reflexivity]).
  destruct (find _ _) as [inst|]; [|split; [exact H | reflexivity]].
  destruct (owned_by name inst); [|split; [exact H | reflexivity]].
  destruct (saveObjectsState _) as [st2| |] eqn:Hsave;
    try (split; [exact H | reflexivity]).
  destruct (saveObjectsState_same _ _ Hsave) as (P & F & R).
  assert (H2 : all_unprivileged st2) by exact (unprivileged_same _ _ P F H).
  destruct (map_get Nat.eqb id (positions st2)) as [playerData|] eqn:Hp;
    [|split; [exact H2 | exact R]].
  pose proof (unprivileged_get st2 id playerData H2 Hp) as Hlow.
  match goal with
  | |- context [savePlayerData ?n ?r ?s] =>
      assert (H3 : all_unprivileged s)
        by (apply unprivileged_set; [exact H2 | exact Hlow]);
      destruct (savePlayerData n r s) as [st4| |] eqn:Hsave2
  end; cbn [fst]; try (split; [exact H3 | exact R]).
  eapply savePlayerData_unprivileged in Hsave2;
    [| exact H3 | apply player_record_privilege | exact Hlow].
  destruct Hsave2 as [H4 R4]. split; [exact H4 | exact (eq_trans R4 R)].
Qed.

Lemma edits_unprivileged (id : nat) (msg : list (string * value))
    (extra : Validation) (st : State) :
  all_unprivileged st ->
  load_for_edit zones id msg extra st = inl "Insufficient privileges"%string.
Proof.
  intros H. apply load_for_edit_privilege.
  destruct (map_get Nat.eqb id (positions st)) as [player|] eqn:Hp; [|exact I].
  exact (unprivileged_get st id player H Hp).
Qed.

Lemma dispatch_unprivileged (id : nat) (name : string)
    (msg : list (string * value)) (st : State) :
  all_unprivileged st -> keeps st (fst (fst (dispatch zones id name msg st))).
Proof.
  intros H. unfold dispatch.
  repeat match goal with
         | |- context [if ?c then _ else _] => destruct c
         end.
  - apply handle_update_unprivileged, H.
  - apply handle_pickup_unprivileged, H.
  - apply handle_drop_unprivileged, H.
  - unfold handle_request. destruct (toString _); split; auto.
  - unfold handle_get_context_menu.
    repeat match goal with
           | |- context [match ?x with _ => _ end] => destruct x
           end; split; auto.
  - unfold handle_context_action.
    repeat match goal with
           | |- context [match ?x with _ => _ end] => destruct x
           end; split; auto.
  - unfold handle_edit_tile. rewrite edits_unprivileged by exact H.
    split; auto.
  - unfold handle_edit_tile_exits. rewrite edits_unprivileged by exact H.
    split; auto.
  - unfold handle_resize_room. rewrite edits_unprivileged by exact H.
    split; auto.
  - split; auto.
Qed.

Lemma on_message_unprivileged (id : nat) (name : string) (raw : option value)
    (st : State) :
  all_unprivileged st -> keeps st (fst (on_message zones id name raw st)).
Proof.
  intros H. unfold on_message.
  destruct raw as [[| | | | | |msg]|]; try (split; [exact H | reflexivity]).
  pose proof (dispatch_unprivileged id name msg st H) as Hd.
  destruct (dispatch zones id name msg st) as [[st' out] threw]. exact Hd.
Qed.

Lemma fill_from_record_privilege (data : list (string * value))
    (init : InitialPos.t) :
  (forall n, lookup_field "privilege" data = VNum n -> n < 10) ->
  InitialPos.privilege init < 10 ->
  InitialPos.privilege (fill_from_record data init) < 10.
Proof.
  intros Hdata Hinit. unfold fill_from_record. cbn [InitialPos.privilege].
  destruct (lookup_field "privilege" data); auto.
Qed.

Lemma check_credentials_unprivileged (salt_bytes name password : string)
    (create : value) (init init' : InitialPos.t) (st st' : State) :
  all_unprivileged st -> InitialPos.privilege init < 10 ->
  check_credentials pbkdf2Sync salt_bytes name password create init st
    = inr (init', st') ->
  InitialPos.privilege init' < 10 /\ keeps st st'.
Proof.
  intros H Hinit. unfold check_credentials.
  destruct (map_get String.eqb name (playerFiles (disk st)))
    as [[data|]|] eqn:Hfile.
  - destruct (_ || _); [discriminate|].
    destruct (truthy create); [discriminate|].
    destruct (verifyPassword _ _ _ _) as [[|]| |]; try discriminate;
      intros [= <- <-]; (split; [|split; [exact H | reflexivity]]);
      [|exact Hinit | exact Hinit].
    apply fill_from_record_privilege; [|exact Hinit].
    intros n Hn. destruct H as [_ Hfiles]. apply (Hfiles name data n); [|exact Hn].
    apply (map_get_In String.eqb); [|exact Hfile].
    intros a b. apply String.eqb_eq.
  - intros [= <- <-]. split; [exact Hinit | split; [exact H | reflexivity]].
  - destruct (truthy create); [|discriminate].
    destruct (savePlayerData _ _ _) as [st2| |] eqn:Hsave;
      intros [= <- <-]; (split; [exact Hinit|]);
      try (split; [exact H | reflexivity]).
    eapply savePlayerData_unprivileged in Hsave;
      [exact Hsave | exact H | apply player_record_privilege | exact Hinit].
Qed.

Lemma on_first_message_unprivileged (salt_bytes : string) (m : FirstMessage)
    (st : State) :
  all_unprivileged st ->
  keeps st (fst (on_first_message pbkdf2Sync salt_bytes m st)).
Proof.
  intros H. unfold on_first_message.
  destruct m as [| | |name password create];
    try (split; [exact H | reflexivity]).
  destruct (negb (truthy (VStr name)) || negb (truthy (VStr password)));
    [split; [exact H | reflexivity]|].
  cbv zeta.
  match goal with
  | |- context [check_credentials _ _ _ _ _ ?i ?s1] =>
      assert (H1 : all_unprivileged s1)
        by (apply (unprivileged_same st); [reflexivity | reflexivity | exact H]);
      pose proof (fun i' s' =>
                    check_credentials_unprivileged salt_bytes name password
                      create i i' s1 s' H1 ltac:(simpl; lia)) as Hc;
      destruct (check_credentials pbkdf2Sync salt_bytes name password create
                                  i s1) as [message | [init' st2]]
  end.
  - split; [exact H | reflexivity].
  - destruct (Hc init' st2 eq_refl) as (Hlow & [Hpos Hfiles] & R).
    cbn [fst]. split; [|exact R]. split; [|exact Hfiles].
    intros id p Hin. cbn [positions] in Hin. apply In_map_set in Hin.
    destruct Hin as [[= _ ->] | Hin]; [exact Hlow | eauto].
Qed.

Lemma on_close_unprivileged (id : nat) (st : State) :
  all_unprivileged st -> keeps st (fst (on_close id st)).
Proof.
  intros H. unfold on_close. cbn [fst].
  match goal with
  | |- context [mkState (clientId ?s)] =>
      assert (H1 : keeps st s); [|set (st1 := s) in *]
  end.
  { destruct (map_get Nat.eqb id (positions st)) as [data|] eqn:Hp;
      [|split; [exact H | reflexivity]].
    destruct (savePlayerData _ _ _) as [st'| |] eqn:Hsave;
      try (split; [exact H | reflexivity]).
    eapply savePlayerData_unprivileged in Hsave;
      [exact Hsave | exact H | apply player_record_privilege |].
    exact (unprivileged_get st id data H Hp). }
  destruct H1 as [[Hpos Hfiles] R]. split; [|exact R].
  split; [|exact Hfiles].
  intros id' p Hin. cbn [positions] in Hin. apply In_map_delete in Hin. eauto.
Qed.

Lemma on_tick_unprivileged (random : nat -> Q) (st : State) :
  all_unprivileged st -> keeps st (fst (fst (on_tick zones random st))).
Proof.
  intros H.
  destruct (on_tick_clock zones random st)
    as ((_ & _ & P & _ & _ & _ & R & F & _) & _).
  assert (Hc : positions (fst (tick_clock st)) = positions st /\
               playerFiles (disk (fst (tick_clock st)))
               = playerFiles (disk st) /\
               roomFiles (disk (fst (tick_clock st))) = roomFiles (disk st)).
  { unfold tick_clock. cbv zeta. destruct (Z.rem _ 60 =? 0); cbn [fst]; auto.
    cbn [disk set_gameTime]. destruct (writable (disk st)); auto. }
  destruct Hc as (P0 & F0 & R0).
  split; [|congruence].
  apply (unprivileged_same st); [congruence | congruence | exact H].
Qed.

Lemma on_timer_unprivileged (instanceId : string) (st : State) :
  all_unprivileged st -> keeps st (fst (fst (on_timer instanceId st))).
Proof.
  intros H. unfold on_timer.
  destruct (map_get String.eqb instanceId (npcTimers st)) as [t|];
    [|split; [exact H | reflexivity]].
  unfold saveNpcState. cbn [disk set_npcInstances set_npcTimers].
  destruct (writable (disk st)); cbn [fst];
    (split; [|reflexivity]);
    apply (unprivileged_same st); try reflexivity; exact H.
Qed.

Lemma step_unprivileged (ev : Event) (st : State) :
  all_unprivileged st -> keeps st (fst (step pbkdf2Sync zones ev st)).
Proof.
  intros H. destruct ev as [salt m | id raw | id | random | instanceId];
    cbn [step].
  - apply on_first_message_unprivileged, H.
  - destruct (listener_name id st);
      [apply on_message_unprivileged, H | split; [exact H | reflexivity]].
  - destruct (listener_name id st);
      [apply on_close_unprivileged, H | split; [exact H | reflexivity]].
  - apply on_tick_unprivileged, H.
  - apply on_timer_unprivileged, H.
Qed.

(** X13.  Privilege is never gained, and without it no room changes.  If
    no connection and no player file holds privilege 10 or more, then
    after any sequence of logins, registrations, messages, closes, ticks
    and timer callbacks that is still so, and every room file is what it
    was: the checks of the three edit handlers cannot be passed, and
    nothing the server writes raises a privilege.  The names in play, in
    the state and in the credentials of the run, are plain file names, so
    that every player file is a file of the players directory. *)
Theorem unprivileged_runs_never_edit_rooms (evs : list Event) (st : State)
    (Hlow : all_unprivileged st)
    (Hnames : plain_names st)
    (Hevents : forallb plain_event evs = true) :
  let st' := fst (run pbkdf2Sync zones evs st) in
  all_unprivileged st' /\ roomFiles (disk st') = roomFiles (disk st).
Proof.
  cbv zeta. clear Hnames Hevents. revert st Hlow.
  induction evs as [|ev evs IH]; intros st Hlow; [split; auto|].
  cbn [run].
  pose proof (step_unprivileged ev st Hlow) as Hs.
  destruct (step pbkdf2Sync zones ev st) as [st1 out1].
  destruct Hs as [H1 R1]. cbn [fst] in H1, R1.
  specialize (IH st1 H1).
  destruct (run pbkdf2Sync zones evs st1) as [st2 out2].
  cbn [fst] in *. destruct IH as [H2 R2]. split; [exact H2 | congruence].
Qed.

End Unprivileged.
(** ** The clock over a run *)

Lemma advance_clock_consistent (g : GameTime) :
  clock_consistent g ->
  clock_consistent (advance_clock g) /\
  day (advance_clock g) = day g + ((tick g + 1) / 1440 - tick g / 1440).
Proof.
  unfold clock_consistent, advance_clock. intros [Ht Hh]. cbv zeta.
  rewrite !Z.rem_mod_nonneg by lia.
  destruct (Z.eqb_spec ((tick g + 1) mod 60) 0) as [H60 | H60].
  - assert (H24 : 0 <= hour g < 24)
      by (rewrite Hh; apply Z.mod_pos_bound; lia).
    rewrite Z.rem_mod_nonneg by lia.
    destruct (Z.eqb_spec ((hour g + 1) mod 24) 0) as [Hroll | Hroll];
      cbn [tick hour day]; (split; [split; [lia|]|]);
      revert Hh H60 Hroll; Z.to_euclidean_division_equations; lia.
  - cbn [tick hour day]. split; [split; [lia|]|];
      revert Hh H60; Z.to_euclidean_division_equations; lia.
Qed.

Lemma step_gameTime (pbkdf2Sync : string -> string -> string)
    (zones : list ZoneDef) (ev : Event) (st : State) :
  gameTime (fst (step pbkdf2Sync zones ev st))
  = if is_tick ev then advance_clock (gameTime st) else gameTime st.
Proof.
  destruct ev as [salt m | id raw | id | random | instanceId];
    cbn [step is_tick].
  - unfold on_first_message.
    destruct m as [| | |name password create]; try reflexivity. cbv zeta.
  destruct (negb (truthy (VStr name)) || negb (truthy (VStr password)));
    [reflexivity|].
    match goal with
    | |- context [check_credentials _ _ _ _ _ ?i ?s1] =>
        pose proof (fun i' s' =>
                      check_credentials_frame pbkdf2Sync salt name password
                        create i i' s1 s') as Hc;
        destruct (check_credentials pbkdf2Sync salt name password create i s1)
          as [message | [init' st2]]
    end; [reflexivity|].
    destruct (Hc init' st2 eq_refl) as (_ & _ & _ & _ & _ & G & _).
    cbn [fst gameTime]. exact G.
  - destruct (listener_name id st) as [name|]; [|reflexivity].
    destruct (on_message_frame zones id name raw st) as (_ & _ & _ & _ & G & _).
    exact G.
  - destruct (listener_name id st) as [name|]; [|reflexivity].
    unfold on_close, savePlayerData. cbn [fst gameTime].
    destruct (map_get Nat.eqb id (positions st)); [|reflexivity].
    destruct (writable (disk st)); reflexivity.
  - destruct (on_tick_clock zones random st)
      as ((_ & _ & _ & _ & _ & G & _) & _).
    rewrite G. unfold tick_clock. cbv zeta.
    destruct (Z.rem _ 60 =? 0); [|reflexivity].
    cbn [fst disk set_gameTime]. destruct (writable (disk st)); reflexivity.
  - unfold on_timer, saveNpcState.
    destruct (map_get String.eqb instanceId (npcTimers st)); [|reflexivity].
    cbn [disk set_npcInstances set_npcTimers].
    destruct (writable (disk st)); reflexivity.
Qed.

(** X14.  Only ticks move the clock, and they keep it in step.  From a
    clock whose hour is floor(tick / 60) mod 24, any sequence of events
    leads to a clock that counts exactly the ticks among them, whose hour
    is again floor(tick / 60) mod 24 and so between 0 and 23, and whose day
    has advanced by the number of multiples of 1440 passed; the time
    message built from it always has a sun or moon glyph with a
    twelve-hour number from 0 to 12. *)
Theorem clock_over_runs (pbkdf2Sync : string -> string -> string)
    (zones : list ZoneDef) (evs : list Event) (st : State)
    (Hclock : clock_consistent (gameTime st)) :
  let g := gameTime st in
  let g' := gameTime (fst (run pbkdf2Sync zones evs st)) in
  tick g' = tick g + Z.of_nat (count_ticks evs) /\
  clock_consistent g' /\
  0 <= hour g' < 24 /\
  day g' = day g + (tick g' / 1440 - tick g / 1440) /\
  exists glyph h12,
    hourGlyph (getFormattedTimeMessage g') = Some (glyph, h12) /\
    0 <= h12 <= 12 /\ (h12 = hour g' \/ h12 = hour g' - 12).
Proof.
  cbv zeta.
  assert (Hrun : forall evs st,
            clock_consistent (gameTime st) ->
            let g' := gameTime (fst (run pbkdf2Sync zones evs st)) in
            tick g' = tick (gameTime st) + Z.of_nat (count_ticks evs) /\
            clock_consistent g' /\
            day g' = day (gameTime st)
                     + (tick g' / 1440 - tick (gameTime st) / 1440)).
  { clear. induction evs as [|ev evs IH]; intros st Hc; cbv zeta.
    - cbn [run fst count_ticks filter List.length Z.of_nat].
      split; [lia|]. split; [exact Hc | lia].
    - cbn [run].
      pose proof (step_gameTime pbkdf2Sync zones ev st) as Hs.
      destruct (step pbkdf2Sync zones ev st) as [st1 out1]. cbn [fst] in Hs.
      specialize (IH st1).
      destruct (run pbkdf2Sync zones evs st1) as [st2 out2].
      cbn [fst] in *. unfold count_ticks in *. cbn [filter].
      destruct (is_tick ev).
      + destruct (advance_clock_consistent _ Hc) as [Hc1 Hd1].
        rewrite <- Hs in Hc1, Hd1.
        destruct (IH Hc1) as (Ht & Hc2 & Hd2).
        pose proof (advance_clock_tick (gameTime st)) as Ht1.
        rewrite <- Hs in Ht1. cbn [List.length].
        split; [lia|]. split; [exact Hc2|]. rewrite Hd2, Hd1, Ht1. lia.
      + rewrite Hs in IH. exact (IH Hc). }
  destruct (Hrun evs st Hclock) as (Ht & Hc & Hd). cbv zeta in Ht, Hc, Hd.
  set (g' := gameTime (fst (run pbkdf2Sync zones evs st))) in *.
  assert (Hh : 0 <= hour g' < 24).
  { destruct Hc as [_ ->]. apply Z.mod_pos_bound. lia. }
  split; [exact Ht|]. split; [exact Hc|]. split; [exact Hh|].
  split; [exact Hd|].
  unfold getFormattedTimeMessage. cbn [hourGlyph].
  remember (hour g') as h eqn:Eh. clear - Hh.
  assert (Hcases :
            h = 0 \/ h = 1 \/ h = 2 \/ h = 3 \/ h = 4 \/ h = 5 \/ h = 6 \/
            h = 7 \/ h = 8 \/ h = 9 \/ h = 10 \/ h = 11 \/ h = 12 \/
            h = 13 \/ h = 14 \/ h = 15 \/ h = 16 \/ h = 17 \/ h = 18 \/
            h = 19 \/ h = 20 \/ h = 21 \/ h = 22 \/ h = 23) by lia.
  repeat (destruct Hcases as [-> | Hcases];
          [eexists _, _; split; [reflexivity | cbn; lia]|]).
  subst. eexists _, _; split; [reflexivity | cbn; lia].
Qed.
(** ** Roaming: the tile picked, the route taken, the timer set *)

Lemma In_combine_seq {A : Type} (l : list A) (s y : nat) (a : A) :
  In (y, a) (combine (seq s (List.length l)) l) <->
  (s <= y)%nat /\ nth_error l (y - s) = Some a.
Proof.
  revert s. induction l as [|b l IH]; intros s; cbn [List.length seq combine].
  - split; [intros [] | intros [_ H]; destruct (y - s)%nat; discriminate].
  - cbn [In]. rewrite IH. split.
    + intros [[= <- <-] | [Hle Hn]].
      * split; [lia|]. rewrite Nat.sub_diag. reflexivity.
      * split; [lia|]. replace (y - s)%nat with (S (y - S s)) by lia.
        exact Hn.
    + intros [Hle Hn]. destruct (Nat.eq_dec y s) as [-> | Hne].
      * left. rewrite Nat.sub_diag in Hn. injection Hn as <-. reflexivity.
      * right. split; [lia|].
        replace (y - s)%nat with (S (y - S s)) in Hn by lia. exact Hn.
Qed.

(** The coordinates pickRandomTile collects are those of the tiles. *)
Lemma coords_spec (tiles : list (list Tile)) (c : coord) :
  In c (flat_map
          (fun yrow : nat * list Tile =>
             map (fun cx => (Z.of_nat cx, Z.of_nat (fst yrow)))
                 (seq 0 (List.length (snd yrow))))
          (combine (seq 0 (List.length tiles)) tiles)) <->
  0 <= fst c /\ 0 <= snd c /\ exists t, tile_at tiles (fst c) (snd c) = Some t.
Proof.
  rewrite in_flat_map. unfold tile_at. split.
  - intros ([y row] & Hrow & Hc). apply In_combine_seq in Hrow.
    destruct Hrow as [_ Hrow]. rewrite Nat.sub_0_r in Hrow.
    cbn [fst snd] in Hc. apply in_map_iff in Hc.
    destruct Hc as (cx & <- & Hcx). apply in_seq in Hcx. cbn [fst snd].
    split; [lia|]. split; [lia|]. rewrite !Nat2Z.id, Hrow.
    destruct (nth_error row cx) as [t|] eqn:Ht; [eauto|].
    apply nth_error_None in Ht. lia.
  - intros (Hx & Hy & t & Ht).
    destruct (nth_error tiles (Z.to_nat (snd c))) as [row|] eqn:Hrow;
      [|discriminate].
    exists (Z.to_nat (snd c), row). split.
    + apply In_combine_seq. rewrite Nat.sub_0_r. split; [lia | exact Hrow].
    + cbn [fst snd]. apply in_map_iff. exists (Z.to_nat (fst c)). split.
      * rewrite !Z2Nat.id by lia. destruct c; reflexivity.
      * apply in_seq. split; [lia|]. cbn [Nat.add].
        apply nth_error_Some. congruence.
Qed.

Lemma pickRandomTile_in_room (roomDef : Room) (r : Q) :
  (exists x y t, 0 <= x /\ 0 <= y /\ tile_at (tiles roomDef) x y = Some t) ->
  (0 <= r)%Q -> (r < 1)%Q ->
  exists x y t,
    pickRandomTile r roomDef = Some (x, y) /\ 0 <= x /\ 0 <= y /\
    tile_at (tiles roomDef) x y = Some t.
Proof.
  intros Hsome Hr0 Hr1. unfold pickRandomTile. cbv zeta.
  set (coords := flat_map _ _).
  assert (Hspec : forall c, In c coords <->
            0 <= fst c /\ 0 <= snd c /\
            exists t, tile_at (tiles roomDef) (fst c) (snd c) = Some t)
    by (intros c; apply coords_spec).
  assert (Hlen : (0 < List.length coords)%nat).
  { destruct Hsome as (x & y & t & Hx & Hy & Ht).
    assert (Hin : In (x, y) coords) by (apply Hspec; cbn [fst snd]; eauto).
    destruct coords; [destruct Hin | simpl; lia]. }
  assert (HlenQ : (0 < inject_Z (Z.of_nat (List.length coords)))%Q).
  { change 0%Q with (inject_Z 0). rewrite <- Zlt_Qlt. lia. }
  set (i := Qfloor (r * inject_Z (Z.of_nat (List.length coords)))).
  assert (Hi0 : 0 <= i).
  { unfold i. rewrite <- (Qfloor_Z 0). apply Qfloor_resp_le.
    apply Qmult_le_0_compat; [exact Hr0 | apply Qlt_le_weak, HlenQ]. }
  assert (Hi1 : i < Z.of_nat (List.length coords)).
  { rewrite Zlt_Qlt. eapply Qle_lt_trans; [apply Qfloor_le|].
    fold i. setoid_replace (inject_Z (Z.of_nat (List.length coords)))
      with (1 * inject_Z (Z.of_nat (List.length coords)))%Q at 2 by ring.
    apply Qmult_lt_compat_r; [exact HlenQ | exact Hr1]. }
  destruct (Z.ltb_spec i 0) as [Hneg | _]; [lia|].
  destruct (nth_error coords (Z.to_nat i)) as [[x y]|] eqn:Hn;
    [|apply nth_error_None in Hn; lia].
  apply nth_error_In in Hn. apply Hspec in Hn. cbn [fst snd] in Hn.
  destruct Hn as (Hx & Hy & t & Ht). exists x, y, t. auto.
Qed.

(** X15.  pickRandomTile draws from the tiles of the room, all of them:
    when the room has a tile and Math.random() returns r with 0 <= r < 1,
    the result is the coordinate pair of an existing tile; and every
    existing tile, void or not, is the result for some such r. *)
Theorem pickRandomTile_draws_a_tile (roomDef : Room)
    (Hsome : exists x y t, 0 <= x /\ 0 <= y /\
                           tile_at (tiles roomDef) x y = Some t) :
  (forall r : Q,
     (0 <= r)%Q -> (r < 1)%Q ->
     exists x y t,
       pickRandomTile r roomDef = Some (x, y) /\ 0 <= x /\ 0 <= y /\
       tile_at (tiles roomDef) x y = Some t) /\
  (forall x y t,
     0 <= x -> 0 <= y -> tile_at (tiles roomDef) x y = Some t ->
     exists r : Q,
       (0 <= r)%Q /\ (r < 1)%Q /\ pickRandomTile r roomDef = Some (x, y)).
Proof.
  split; [intros r; apply pickRandomTile_in_room; exact Hsome|].
  unfold pickRandomTile. cbv zeta.
  set (coords := flat_map _ _).
  assert (Hspec : forall c, In c coords <->
            0 <= fst c /\ 0 <= snd c /\
            exists t, tile_at (tiles roomDef) (fst c) (snd c) = Some t)
    by (intros c; apply coords_spec).
  intros x y t Hx Hy Ht.
  assert (Hin : In (x, y) coords) by (apply Hspec; cbn [fst snd]; eauto).
  apply In_nth_error in Hin. destruct Hin as [n Hn].
  assert (Hlt : (n < List.length coords)%nat)
    by (apply nth_error_Some; congruence).
  assert (HlenQ : (0 < inject_Z (Z.of_nat (List.length coords)))%Q).
  { change 0%Q with (inject_Z 0). rewrite <- Zlt_Qlt. lia. }
  exists (inject_Z (Z.of_nat n)
          / inject_Z (Z.of_nat (List.length coords)))%Q.
  split.
  { apply Qle_shift_div_l; [exact HlenQ|]. rewrite Qmult_0_l.
    change 0%Q with (inject_Z 0). rewrite <- Zle_Qle. lia. }
  split.
  { apply Qlt_shift_div_r; [exact HlenQ|]. rewrite Qmult_1_l.
    rewrite <- Zlt_Qlt. lia. }
  assert (Hfloor :
    Qfloor (inject_Z (Z.of_nat n) / inject_Z (Z.of_nat (List.length coords))
            * inject_Z (Z.of_nat (List.length coords))) = Z.of_nat n).
  { rewrite <- (Qfloor_Z (Z.of_nat n)) at 2. apply Qfloor_comp.
    field. intros H0. rewrite H0 in HlenQ. discriminate HlenQ. }
  rewrite Hfloor. destruct (Z.ltb_spec (Z.of_nat n) 0); [lia|].
  rewrite Nat2Z.id. exact Hn.
Qed.

Lemma first_tile (tiles : list (list Tile)) :
  hd [] tiles <> [] ->
  exists x y t, 0 <= x /\ 0 <= y /\ tile_at tiles x y = Some t.
Proof.
  intros H. destruct tiles as [|[|t row] rest]; try (exfalso; apply H; reflexivity).
  exists 0, 0, t. repeat split; lia.
Qed.

(** X16.  A roaming NPC walks a shortest route.  An idle NPC with a
    random roam whose roll succeeds, in a room whose file is a rectangular
    grid with tiles, picks an existing tile and never fails the tick.
    Either it starts a walk: the route broadcast in npc-start-path leads
    from its position to the picked tile through traversable neighbours,
    no route is shorter, it has at least one and between minDuration and
    maxDuration steps, and the timer is set for the picked tile after
    steps times floor(320 / rate) milliseconds.  Or nothing happens, and
    then no shortest route to the picked tile has such a number of
    steps. *)
Theorem roam_walks_a_shortest_route (zones : list ZoneDef)
    (random : nat -> Q) (k npcSlot : nat) (npc : Npc.t) (st : State)
    (roam : Roam) (zoneDef : ZoneDef) (roomDef : Room)
    (Hroam : Npc.roam npc = Some roam)
    (Htype : roamType roam = "random"%string)
    (Hidle : Npc.movePath npc = None)
    (Hroll : (random k * 100 < inject_Z (frequency roam))%Q)
    (Hzone : zone_at zones (VStr (Npc.zone npc)) = Some zoneDef)
    (Hroom : map_get room_key_eqb (zonePath zoneDef, Npc.roomId npc)
                     (roomFiles (disk st)) = Some roomDef)
    (Hrect : rectangular (tiles roomDef))
    (Htile : hd [] (tiles roomDef) <> [])
    (Hr0 : (0 <= random (S k))%Q) (Hr1 : (random (S k) < 1)%Q) :
  let rows := grid_rows (tiles roomDef) in
  let cols := grid_cols (tiles roomDef) in
  let start := (Npc.x npc, Npc.y npc) in
  let in_bounds (path : list coord) :=
    let steps := Z.of_nat (List.length path) - 1 in
    1 <= steps /\ minDuration roam <= steps <= maxDuration roam in
  let shortest (path : list coord) (target : coord) :=
    walk (tiles roomDef) rows cols start path target /\
    forall w, walk (tiles roomDef) rows cols start w target ->
              (List.length path <= List.length w)%nat in
  exists target t,
    pickRandomTile (random (S k)) roomDef = Some target /\
    tile_at (tiles roomDef) (fst target) (snd target) = Some t /\
    ((exists path,
        shortest path target /\ in_bounds path /\
        let segmentDuration :=
          NPC_BASE_TILE_DURATION / (if rate roam =? 0 then 1 else rate roam) in
        roam_npc zones random k npcSlot npc st
        = (startNpcMovementTimer (Npc.instanceId npc) npcSlot target
             ((Z.of_nat (List.length path) - 1) * segmentDuration) st,
           broadcastToRoom st (Npc.zone npc) (VNum (Npc.roomId npc))
             (MNpcStartPath (Npc.instanceId npc) path segmentDuration),
           S (S k), false))
     \/
     (roam_npc zones random k npcSlot npc st = (st, [], S (S k), false) /\
      forall path, shortest path target -> ~ in_bounds path)).
Proof.
  cbv zeta.
  destruct (pickRandomTile_in_room roomDef (random (S k))
              (first_tile _ Htile) Hr0 Hr1)
    as (x & y & t & Hpick & Hx & Hy & Ht).
  exists (x, y), t. split; [exact Hpick|]. split; [exact Ht|].
  destruct (findPath_total (Npc.x npc, Npc.y npc) (x, y) (tiles roomDef) Hrect)
    as (r & Hfind & Hpost).
  assert (Hrun : forall res,
            match r with
            | Some path =>
                if (1 <? Z.of_nat (List.length path))
                   && (Z.of_nat (List.length path) - 1 >=? minDuration roam)
                   && (Z.of_nat (List.length path) - 1 <=? maxDuration roam)
                then
                  match path_end path with
                  | Some final =>
                      (startNpcMovementTimer (Npc.instanceId npc) npcSlot final
                         ((Z.of_nat (List.length path) - 1)
                          * (NPC_BASE_TILE_DURATION
                             / (if rate roam =? 0 then 1 else rate roam))) st,
                       broadcastToRoom st (Npc.zone npc)
                         (VNum (Npc.roomId npc))
                         (MNpcStartPath (Npc.instanceId npc) path
                            (NPC_BASE_TILE_DURATION
                             / (if rate roam =? 0 then 1 else rate roam))),
                       S (S k), false)
                  | None => (st, [], S (S k), true)
                  end
                else (st, [], S (S k), false)
            | None => (st, [], S (S k), false)
            end = res ->
            roam_npc zones random k npcSlot npc st = res).
  { intros res <-. unfold roam_npc.
    rewrite Hroam, Htype, Hidle. cbn [String.eqb Ascii.eqb Bool.eqb negb].
    destruct (Qlt_le_dec (random k * 100) (inject_Z (frequency roam)))
      as [_ | Hge]; [|exfalso; exact (Qlt_not_le _ _ Hroll Hge)].
    rewrite Hzone, Hroom, Hpick, Hfind. reflexivity. }
  destruct r as [path|]; cbn [search_post] in Hpost.
  - destruct Hpost as [Hwalk Hmin].
    pose proof (walk_end _ _ _ _ _ _ Hwalk) as Hend.
    destruct ((1 <? Z.of_nat (List.length path))
              && (Z.of_nat (List.length path) - 1 >=? minDuration roam)
              && (Z.of_nat (List.length path) - 1 <=? maxDuration roam))
      eqn:Hcheck.
    + left. exists path.
      apply andb_true_iff in Hcheck. destruct Hcheck as [Hcheck Hmax].
      apply andb_true_iff in Hcheck. destruct Hcheck as [Hone Hlow].
      apply Z.ltb_lt in Hone. apply Z.geb_le in Hlow. apply Z.leb_le in Hmax.
      split; [split; [exact Hwalk | exact Hmin]|].
      split; [lia|].
      apply Hrun. rewrite Hend. reflexivity.
    + right. split; [apply Hrun; reflexivity|].
      intros path' [Hwalk' Hmin'] [Hone [Hlow Hmax]].
      pose proof (Hmin path' Hwalk'). pose proof (Hmin' path Hwalk).
      assert (Hsame : List.length path' = List.length path) by lia.
      rewrite Hsame in Hone, Hlow, Hmax.
      apply andb_false_iff in Hcheck. destruct Hcheck as [Hcheck | Hcheck].
      * apply andb_false_iff in Hcheck. destruct Hcheck as [Hcheck | Hcheck].
        -- apply Z.ltb_ge in Hcheck. lia.
        -- rewrite Z.geb_leb in Hcheck. apply Z.leb_gt in Hcheck. lia.
      * apply Z.leb_gt in Hcheck. lia.
  - right. split; [apply Hrun; reflexivity|].
    intros path' [Hwalk' _] _. exact (Hpost path' Hwalk').
Qed.

(** *** The walk timer *)

(** X17.  The timer of a walk fires once and lands the NPC.  After
    startNpcMovementTimer for an instance, whatever timer was pending for
    it before, the callback moves the NPC of the slot to the target tile
    (nothing else of it changes, no other NPC changes), removes the timer,
    writes the NPC state and broadcasts npc-move with the moved NPC to its
    room; a second firing finds no timer and does nothing. *)
Theorem walk_timer_lands_npc (instanceId : string) (npcSlot : nat)
    (target : coord) (delay : Z) (st : State) (npc : Npc.t)
    (Hnpc : nth_error (npcInstances st) npcSlot = Some npc)
    (Hdisk : writable (disk st) = true) :
  let st1 := startNpcMovementTimer instanceId npcSlot target delay st in
  exists st2,
    on_timer instanceId st1
    = (st2,
       broadcastToRoom st (Npc.zone npc) (VNum (Npc.roomId npc))
                       (MNpcMove (move_to target npc)),
       false) /\
    nth_error (npcInstances st2) npcSlot = Some (move_to target npc) /\
    Npc.x (move_to target npc) = fst target /\
    Npc.y (move_to target npc) = snd target /\
    Npc.zone (move_to target npc) = Npc.zone npc /\
    Npc.roomId (move_to target npc) = Npc.roomId npc /\
    (forall other, other <> npcSlot ->
       nth_error (npcInstances st2) other = nth_error (npcInstances st) other) /\
    map_get String.eqb instanceId (npcTimers st2) = None /\
    (forall other, other <> instanceId ->
       map_get String.eqb other (npcTimers st2)
       = map_get String.eqb other (npcTimers st)) /\
    npcStateFile (disk st2) = Some (npcInstances st2) /\
    on_timer instanceId st2 = (st2, [], false).
Proof.
  cbv zeta.
  set (st1 := startNpcMovementTimer instanceId npcSlot target delay st).
  assert (Hkeep : npcInstances st1 = npcInstances st /\ disk st1 = disk st /\
                  clients st1 = clients st /\ positions st1 = positions st).
  { unfold st1, startNpcMovementTimer, clearNpcMovementTimer.
    destruct (map_get String.eqb instanceId (npcTimers st)); auto. }
  destruct Hkeep as (Hn1 & Hd1 & Hc1 & Hp1).
  assert (Htimer : exists tid,
            map_get String.eqb instanceId (npcTimers st1)
            = Some (mkTimer tid npcSlot target delay)).
  { unfold st1, startNpcMovementTimer. cbn [npcTimers set_npcTimers].
    eexists. apply map_get_set_same. apply String.eqb_refl. }
  destruct Htimer as [tid Htimer].
  assert (Hothers : forall other, other <> instanceId ->
            map_get String.eqb other (npcTimers st1)
            = map_get String.eqb other (npcTimers st)).
  { intros other Hne.
    exact (proj2 (startNpcMovementTimer_replaces instanceId npcSlot target
                    delay st) other Hne). }
  unfold on_timer. rewrite Htimer. cbn [timerNpc timerTarget].
  unfold saveNpcState.
  cbn [disk set_npcInstances set_npcTimers npcInstances].
  rewrite Hd1, Hdisk, Hn1.
  eexists. split.
  { cbn [npcInstances set_disk set_npcInstances set_npcTimers].
    rewrite update_nth_same, Hnpc. cbn [option_map].
    unfold broadcastToRoom.
    cbn [clients positions set_disk set_npcInstances set_npcTimers].
    rewrite Hc1, Hp1. reflexivity. }
  cbn [npcInstances npcTimers disk set_disk set_npcInstances set_npcTimers
       npcStateFile with_npcStateFile].
  split; [rewrite update_nth_same, Hnpc; reflexivity|].
  split; [reflexivity|]. split; [reflexivity|]. split; [reflexivity|].
  split; [reflexivity|].
  split; [intros other Hne; apply update_nth_other; congruence|].
  split; [apply map_get_delete_same, string_eqb_iff|].
  split.
  { intros other Hne.
    rewrite map_get_delete_other by (auto using string_eqb_iff).
    apply Hothers, Hne. }
  split; [reflexivity|].
  rewrite map_get_delete_same by apply string_eqb_iff. reflexivity.
Qed.
(** ** Boot: every spawn has a live instance, restarts add none *)

Lemma strict_eq_primitive (v : value) : primitive v = true -> strict_eq v v = true.
Proof.
  destruct v as [| |b|n|s| |]; simpl; try discriminate; intros _;
    auto using Z.eqb_refl, String.eqb_refl.
  destruct b; reflexivity.
Qed.

Lemma matches_spawned (id : string) (def : SpawnDef) :
  primitive_def def = true -> matches_spawn def (spawned id def) = true.
Proof.
  unfold primitive_def, matches_spawn, spawned. cbn. intros H.
  apply andb_true_iff in H. destruct H as [H Hy].
  apply andb_true_iff in H. destruct H as [Ht Hx].
  rewrite !strict_eq_primitive by assumption.
  rewrite String.eqb_refl, Z.eqb_refl. reflexivity.
Qed.

Lemma ensure_spawns_added (randomId : nat -> string) :
  forall defs k instances,
    exists added,
      ensure_spawns randomId k defs instances = instances ++ added /\
      (List.length added <= List.length defs)%nat /\
      Forall (fun i => exists n def,
                In def defs /\ i = spawned (randomId n) def /\
                existsb (matches_spawn def) instances = false)
             added.
Proof.
  induction defs as [|def rest IH]; intros k instances.
  - exists []. rewrite app_nil_r. simpl. auto.
  - cbn [ensure_spawns].
    destruct (existsb (matches_spawn def) instances) eqn:Hex.
    + destruct (IH k instances) as (added & Heq & Hlen & Hall).
      exists added. split; [exact Heq|]. split; [simpl; lia|].
      eapply Forall_impl; [|exact Hall].
      intros i (n & d & Hd & Hi & Hno). exists n, d. simpl. auto.
    + destruct (IH (S k) (instances ++ [spawned (randomId k) def]))
        as (added & Heq & Hlen & Hall).
      exists (spawned (randomId k) def :: added).
      split; [unfold spawned in *; rewrite Heq, <- app_assoc; reflexivity|].
      split; [simpl; lia|].
      constructor.
      * exists k, def. simpl. auto.
      * eapply Forall_impl; [|exact Hall].
        intros i (n & d & Hd & Hi & Hno). exists n, d.
        rewrite existsb_app in Hno. apply orb_false_iff in Hno.
        simpl. tauto.
Qed.

Lemma ensure_spawns_settled (randomId : nat -> string) :
  forall defs k instances,
    (forall def, In def defs -> existsb (matches_spawn def) instances = true) ->
    ensure_spawns randomId k defs instances = instances.
Proof.
  induction defs as [|def rest IH]; intros k instances Hall; [reflexivity|].
  cbn [ensure_spawns]. rewrite (Hall def) by (left; reflexivity).
  apply IH. intros d Hd. apply Hall. right. exact Hd.
Qed.

Lemma ensure_spawns_complete (randomId : nat -> string) :
  forall defs k instances,
    forallb primitive_def defs = true ->
    forall def, In def defs ->
      existsb (matches_spawn def) (ensure_spawns randomId k defs instances)
      = true.
Proof.
  induction defs as [|d rest IH]; intros k instances Hprim def Hin;
    [destruct Hin|].
  cbn [forallb] in Hprim. apply andb_true_iff in Hprim.
  destruct Hprim as [Hd Hrest]. cbn [ensure_spawns].
  destruct Hin as [<- | Hin].
  - destruct (existsb (matches_spawn d) instances) eqn:Hex.
    + destruct (ensure_spawns_added randomId rest k instances)
        as (added & -> & _).
      rewrite existsb_app, Hex. reflexivity.
    + destruct (ensure_spawns_added randomId rest (S k)
                  (instances ++ [spawned (randomId k) d]))
        as (added & Heq & _).
      unfold spawned in Heq at 1. rewrite Heq.
      rewrite !existsb_app. cbn [existsb].
      rewrite (matches_spawned _ _ Hd), !orb_true_r. reflexivity.
  - destruct (existsb (matches_spawn d) instances); apply IH; assumption.
Qed.

(** X18.  Boot reconciliation of the spawns, for spawns whose type id and
    coordinates are primitive values: the instances loaded from
    objects-state.json are kept in front as they are; every instance
    added is unowned, without removal stamp, built from a spawn that had
    no live instance, and no more are added than there are spawns;
    afterwards every spawn has a live instance, so reconciling again, as
    the next start of the server does, adds nothing. *)
Theorem ensure_spawns_reconciles (randomId : nat -> string) (k : nat)
    (defs : list SpawnDef) (instances : list Obj.t)
    (Hprim : forallb primitive_def defs = true) :
  let result := ensure_spawns randomId k defs instances in
  (exists added,
     result = instances ++ added /\
     (List.length added <= List.length defs)%nat /\
     forall i, In i added ->
       Obj.pickedUpBy i = None /\ Obj.removedAt i = None /\
       exists def,
         In def defs /\ matches_spawn def i = true /\
         Obj.respawnAfterSec i = defRespawnAfterSec def /\
         existsb (matches_spawn def) instances = false) /\
  (forall def, In def defs -> existsb (matches_spawn def) result = true) /\
  (forall randomId' k', ensure_spawns randomId' k' defs result = result).
Proof.
  cbv zeta.
  assert (Hall : forall def, In def defs ->
            existsb (matches_spawn def)
                    (ensure_spawns randomId k defs instances) = true)
    by (apply ensure_spawns_complete; exact Hprim).
  split.
  - destruct (ensure_spawns_added randomId defs k instances)
      as (added & Heq & Hlen & Hadded).
    exists added. split; [exact Heq|]. split; [exact Hlen|].
    intros i Hi. rewrite Forall_forall in Hadded.
    destruct (Hadded i Hi) as (n & def & Hdef & -> & Hno).
    split; [reflexivity|]. split; [reflexivity|].
    exists def. split; [exact Hdef|]. split; [|split; [reflexivity | exact Hno]].
    apply matches_spawned. rewrite forallb_forall in Hprim. auto.
  - split; [exact Hall|].
    intros randomId' k'. apply ensure_spawns_settled. exact Hall.
Qed.
(** ** What a tick respawns *)

Lemma respawn_sweep_persists (now : Z) :
  forall todo before st st' out,
    writable (disk st) = true ->
    respawn_sweep now before todo st = (st', out, false) ->
    existsb (respawn_due now) todo = true \/
    objectsStateFile (disk st) = Some (objectInstances st) ->
    objectsStateFile (disk st') = Some (objectInstances st').
Proof.
  induction todo as [|inst rest IH]; intros before st st' out Hw Hrun Hcase.
  - simpl in Hrun. injection Hrun as <- _.
    destruct Hcase as [Hcase | Hcase]; [discriminate | exact Hcase].
  - cbn [respawn_sweep existsb] in Hrun, Hcase.
    destruct (respawn_due now inst) eqn:Hdue.
    + unfold saveObjectsState in Hrun. cbn [set_objectInstances disk] in Hrun.
      rewrite Hw in Hrun.
      destruct (respawn_sweep now (before ++ [respawned inst]) rest _)
        as [[st3 out3] c3] eqn:Hrest.
      injection Hrun as <- _ ->.
      eapply IH; [|exact Hrest|right; reflexivity]. exact Hw.
    + apply (IH _ _ _ _ Hw Hrun). exact Hcase.
Qed.

Lemma map_not_due (now : Z) (l : list Obj.t) :
  existsb (respawn_due now) l = false ->
  map (fun i => if respawn_due now i then respawned i else i) l = l.
Proof.
  induction l as [|a l IH]; [reflexivity|]. simpl. intros H.
  apply orb_false_iff in H. destruct H as [Ha Hl].
  rewrite Ha, IH by exact Hl. reflexivity.
Qed.

Lemma broadcastToRoom_same (st st' : State) (zone : string) (roomId : value)
    (msg : ServerMsg) :
  clients st' = clients st -> positions st' = positions st ->
  broadcastToRoom st' zone roomId msg = broadcastToRoom st zone roomId msg.
Proof. unfold broadcastToRoom. intros -> ->. reflexivity. Qed.

Lemma behaviors_all_not_spawned (random : nat -> Q) :
  forall npcs k st e,
    In e (behaviors_all random k npcs st) -> is_object_spawned e = false.
Proof.
  induction npcs as [|npc rest IH]; intros k st e He; [contradiction|].
  simpl in He. destruct (Npc.behavior npc) as [b|]; [|eapply IH; eauto].
  apply in_app_or in He. destruct He as [He | He]; [|eapply IH; eauto].
  unfold behavior_onTick in He.
  repeat match type of He with
         | context [match ?x with _ => _ end] => destruct x
         end;
    try contradiction;
    repeat (apply in_app_or in He; destruct He as [He | He]);
    apply broadcastToRoom_sends in He; destruct He as [to ->]; reflexivity.
Qed.

Lemma start_path_not_spawned (e : Effect) :
  is_npc_start_path e = true -> is_object_spawned e = false.
Proof. destruct e as [to [] | |]; simpl; congruence. Qed.

(** X19.  What a tick respawns, on a writable disk.  With [now] the tick
    count after the increment, the tick returns to the world exactly the
    instances that are held, have a non-zero respawnAfterSec and a
    non-zero removal stamp at least that many ticks old: each of them loses
    owner and stamp and keeps its id, type, zone, room and coordinates;
    every other instance is untouched; one object-spawned goes to the room
    of each respawned instance, in registry order; and when anything
    respawned the registry file holds the new registry. *)
Theorem tick_respawns_what_is_due (zones : list ZoneDef) (random : nat -> Q)
    (st : State) (Hdisk : writable (disk st) = true) :
  let now := tick (gameTime st) + 1 in
  let result := on_tick zones random st in
  let st' := fst (fst result) in
  let back (i : Obj.t) := if respawn_due now i then respawned i else i in
  objectInstances st' = map back (objectInstances st) /\
  filter is_object_spawned (snd (fst result))
  = flat_map (fun i => if respawn_due now i
                       then broadcastToRoom st (Obj.zone i) (Obj.roomId i)
                                            (MObjectSpawned (respawned i))
                       else [])
             (objectInstances st) /\
  (existsb (respawn_due now) (objectInstances st) = true ->
   objectsStateFile (disk st') = Some (objectInstances st')) /\
  (forall i,
     respawn_due now i = true <->
     exists owner r removed,
       Obj.pickedUpBy i = Some owner /\ Obj.respawnAfterSec i = Some r /\
       Obj.removedAt i = Some removed /\
       r <> 0 /\ removed <> 0 /\ now - removed >= r) /\
  (forall i,
     respawned i
     = Obj.mk (Obj.instanceId i) (Obj.typeId i) (Obj.zone i) (Obj.roomId i)
              (Obj.x i) (Obj.y i) None None (Obj.respawnAfterSec i)).
Proof.
  cbv zeta.
  split; [|split; [|split; [|split; [intros i; apply respawn_due_iff
                                    | reflexivity]]]].
  all: unfold on_tick.
  all: destruct (tick_clock st) as [st1 out1] eqn:Hclock.
  all: assert (H1 : tick (gameTime st1) = tick (gameTime st) + 1 /\
                    objectInstances st1 = objectInstances st /\
                    clients st1 = clients st /\ positions st1 = positions st /\
                    writable (disk st1) = true /\
                    filter is_object_spawned out1 = [])
    by (unfold tick_clock in Hclock; cbv zeta in Hclock;
        rewrite advance_clock_tick in Hclock;
        destruct (Z.rem _ 60 =? 0);
        [ cbn [disk set_gameTime] in Hclock; rewrite Hdisk in Hclock;
          injection Hclock as <- <-;
          cbn [gameTime objectInstances clients positions disk writable
               set_disk set_gameTime with_stateFile];
          rewrite advance_clock_tick;
          repeat (split; [solve [auto]|]);
          apply filter_none; intros e He; apply sendToAll_sends in He;
          destruct He as [to ->]; reflexivity
        | injection Hclock as <- <-;
          cbn [gameTime objectInstances clients positions disk set_gameTime];
          rewrite advance_clock_tick; auto 10 ]).
  all: destruct H1 as (Ht & Ho & Hc & Hp & Hw & Hout1).
  all: unfold tick_respawn; rewrite Ht, Ho.
  all: destruct (respawn_sweep_writable (tick (gameTime st) + 1)
                   (objectInstances st) [] st1 Hw)
         as (st2 & Hsweep & Hyes & Hno & Hc2 & Hp2 & Hw2).
  all: pose proof (respawn_sweep_persists _ _ _ _ _ _ Hw Hsweep) as Hfile.
  all: rewrite Hsweep.
  all: destruct (roam_all zones random 0 0 (npcInstances st2) st2)
         as [[[st3 out3] k] c3] eqn:Hroam.
  all: apply roam_all_frame in Hroam.
  all: destruct Hroam as (_ & Ho3 & _ & Hf3 & _ & Hout3).
  all: assert (Hobjs : objectInstances st3
                       = map (fun i => if respawn_due (tick (gameTime st) + 1) i
                                       then respawned i else i)
                             (objectInstances st))
    by (rewrite Ho3;
        destruct (existsb (respawn_due (tick (gameTime st) + 1))
                          (objectInstances st)) eqn:Hex;
        [ exact (Hyes eq_refl)
        | rewrite (Hno eq_refl), Ho, map_not_due by exact Hex; reflexivity ]).
  - destruct c3; exact Hobjs.
  - assert (Hspawn :
      filter is_object_spawned
        (flat_map (fun i => if respawn_due (tick (gameTime st) + 1) i
                            then broadcastToRoom st1 (Obj.zone i) (Obj.roomId i)
                                   (MObjectSpawned (respawned i))
                            else [])
                  (objectInstances st))
      = flat_map (fun i => if respawn_due (tick (gameTime st) + 1) i
                           then broadcastToRoom st (Obj.zone i) (Obj.roomId i)
                                  (MObjectSpawned (respawned i))
                           else [])
                 (objectInstances st)).
    { rewrite filter_all.
      - apply flat_map_ext. intros i. destruct (respawn_due _ i); [|reflexivity].
        apply broadcastToRoom_same; assumption.
      - intros e He. apply in_flat_map in He. destruct He as (i & _ & He).
        destruct (respawn_due _ i); [|contradiction].
        apply broadcastToRoom_sends in He. destruct He as [to ->].
        reflexivity. }
    assert (Hroamout : filter is_object_spawned out3 = []).
    { apply filter_none. intros e He. apply start_path_not_spawned, Hout3, He. }
    destruct c3; cbn [fst snd];
      rewrite !filter_app, Hout1, Hspawn, Hroamout; cbn [app];
      rewrite ?app_nil_r; [reflexivity|].
    rewrite (filter_none is_object_spawned (behaviors_all random k _ st3)).
    + apply app_nil_r.
    + intros e He. eapply behaviors_all_not_spawned; eauto.
  - intros Hex.
    assert (Hgoal : objectsStateFile (disk st3) = Some (objectInstances st3)).
    { rewrite Hf3, Ho3. apply Hfile. left. exact Hex. }
    destruct c3; exact Hgoal.
Qed.
(** ** The validator of player records, reconnecting, reading messages *)

(** X20.  isValidPlayerData accepts no record that savePlayerData writes:
    it asks for numeric roomX and roomY, and savePlayerData writes neither,
    whatever the data. *)
Theorem saved_records_are_not_valid_player_data (name : string)
    (x y roomId : value) (color : string) (inventory : list value)
    (privilege : Z) (salt hash : value) :
  let record :=
    player_record name x y roomId color inventory privilege salt hash in
  lookup_field "roomX" record = VUndef /\
  lookup_field "roomY" record = VUndef /\
  isValidPlayerData (VObj record) = false.
Proof.
  cbv zeta.
  assert (HX : lookup_field "roomX"
                 (player_record name x y roomId color inventory privilege
                                salt hash) = VUndef)
    by (unfold player_record; rewrite !json_obj_skip by reflexivity;
        reflexivity).
  assert (HY : lookup_field "roomY"
                 (player_record name x y roomId color inventory privilege
                                salt hash) = VUndef)
    by (unfold player_record; rewrite !json_obj_skip by reflexivity;
        reflexivity).
  split; [exact HX|]. split; [exact HY|].
  unfold isValidPlayerData. rewrite HX.
  destruct (lookup_field "x" _); try reflexivity.
  destruct (lookup_field "y" _); reflexivity.
Qed.

(** X21.  A player who leaves and comes back finds the character as it
    was left.  When a connection with a position closes on a writable
    disk and its name (not empty, a plain file name) then logs in with
    the password its hash was made from (not empty either), the new
    connection gets the name, privilege, color, salt and hash of the old
    entry, and its x, y and room where they were numbers (400, 300 and
    room 0 for anything else an update message had put there). *)
Theorem reconnect_restores_character
    (pbkdf2Sync : string -> string -> string)
    (salt_bytes password s : string) (id : nat) (st : State)
    (data : Player.t)
    (Hname : Player.name data <> EmptyString)
    (Hplain : plain_name (Player.name data) = true)
    (Hpassword : password <> EmptyString)
    (Hdata : map_get Nat.eqb id (positions st) = Some data)
    (Hdisk : writable (disk st) = true)
    (Hsalt : Player.salt data = VStr s)
    (Hhash : Player.hash data = VStr (pbkdf2Sync password s))
    (Hs : truthy (VStr s) = true)
    (Hh : truthy (VStr (pbkdf2Sync password s)) = true) :
  let st1 := fst (on_close id st) in
  let result :=
    on_first_message pbkdf2Sync salt_bytes
      (FirstAuth (Player.name data) password (VBool false)) st1 in
  (forall e, In e (snd result) -> is_send e = true) /\
  exists pos,
    map_get Nat.eqb (clientId st) (positions (fst result)) = Some pos /\
    Player.name pos = Player.name data /\
    Player.privilege pos = Player.privilege data /\
    Player.color pos = Player.color data /\
    Player.salt pos = Player.salt data /\
    Player.hash pos = Player.hash data /\
    Player.x pos = (match Player.x data with VNum n => VNum n | _ => VNum 400
        end) /\
    Player.y pos = (match Player.y data with VNum n => VNum n | _ => VNum 300
        end) /\
    Player.roomId pos
    = (match Player.roomId data with VNum n => VNum n | _ => VNum 0 end).
Proof.
  cbv zeta.
  set (record := player_file_of data).
  assert (Hclose : clientId (fst (on_close id st)) = clientId st /\
                   map_get String.eqb (Player.name data)
                           (playerFiles (disk (fst (on_close id st))))
                   = Some (Parsed record)).
  { unfold on_close, savePlayerData. rewrite Hdata, Hdisk. cbn.
    split; [reflexivity|]. apply map_get_set_same, String.eqb_refl. }
  destruct Hclose as [Hcid Hfile].
  destruct (player_record_fields (Player.name data) (Player.x data)
              (Player.y data) (Player.roomId data) (Player.color data)
              (Player.inventory data) (Player.privilege data)
              (Player.salt data) (Player.hash data))
    as (F1 & F2 & F3 & F4 & F5 & F6 & F7 & F8 & F9).
  fold (player_file_of data) in F1, F2, F3, F4, F5, F6, F7, F8, F9.
  fold record in F1, F2, F3, F4, F5, F6, F7, F8, F9.
  unfold on_first_message. rewrite Hcid.
  rewrite (nonempty_truthy _ Hname), (nonempty_truthy _ Hpassword).
  cbn [negb orb].
  match goal with
  | |- context [check_credentials _ _ _ _ _ ?i ?s1] =>
      rewrite (login_with_record pbkdf2Sync salt_bytes (Player.name data)
                 password (VBool false) s1 record s i Hfile
                 ltac:(rewrite F8; exact Hsalt) Hs
                 ltac:(rewrite F9; exact Hhash) Hh eq_refl)
  end.
  cbn [fst snd]. split; [intros e; apply welcome_sends|].
  eexists. split; [cbn [positions]; apply map_get_set_same, Nat.eqb_refl|].
  unfold fill_from_record.
  cbn [Player.name Player.privilege Player.color Player.salt Player.hash
       Player.x Player.y Player.roomId InitialPos.name InitialPos.privilege
       InitialPos.color InitialPos.salt InitialPos.hash InitialPos.x
       InitialPos.y InitialPos.roomId].
  rewrite F2, F3, F4, F5, F7, F8, F9.
  split; [reflexivity|]. split; [reflexivity|]. split; [reflexivity|].
  split; [reflexivity|]. split; [reflexivity|].
  split; [destruct (Player.x data); reflexivity|].
  split; [destruct (Player.y data); reflexivity|].
  destruct (Player.roomId data); reflexivity.
Qed.

(** X22.  Three kinds of message only read.  Handling
    request-objects-and-npcs, get-context-menu or context-action, whatever
    else the message holds, leaves the whole state as it is, disk
    included: no treat is used up, no object or NPC changes.  The first
    two answer the sender alone. *)
Theorem reading_messages_change_nothing (zones : list ZoneDef) (id : nat)
    (name : string) (msg : list (string * value)) (st : State)
    (Htype : In (lookup_field "type" msg) read_only_types) :
  let result := on_message zones id name (Some (VObj msg)) st in
  fst result = st /\
  (lookup_field "type" msg <> VStr "context-action" ->
   forall to m, In (Send to m) (snd result) -> to = id).
Proof.
  cbv zeta.
  assert (Hd : fst (fst (dispatch zones id name msg st)) = st /\
               (lookup_field "type" msg <> VStr "context-action" ->
                forall to m,
                  In (Send to m) (snd (fst (dispatch zones id name msg st))) ->
                  to = id)).
  { unfold dispatch.
    destruct Htype as [<- | [<- | [<- | []]]]; cbn [strict_eq String.eqb
      Ascii.eqb Bool.eqb].
    - unfold handle_request. destruct (toString _); cbn [fst snd thrown done];
        (split; [reflexivity|]); intros _ to m Hin;
        repeat (destruct Hin as [Hin | Hin]; [congruence|]);
        destruct Hin.
    - unfold handle_get_context_menu.
      repeat match goal with
             | |- context [match ?x with _ => _ end] => destruct x
             end; cbn [fst snd thrown done];
        (split; [reflexivity|]); intros _ to m Hin;
        repeat (destruct Hin as [Hin | Hin]; [congruence|]);
        destruct Hin.
    - split; [|intros H; exfalso; apply H; reflexivity].
      unfold handle_context_action.
      repeat match goal with
             | |- context [match ?x with _ => _ end] => destruct x
             end; reflexivity. }
  destruct Hd as [Hst Hto].
  split.
  - unfold on_message.
    destruct (dispatch zones id name msg st) as [[st' out] threw].
    exact Hst.
  - intros Hne to m Hin. unfold on_message in Hin.
    destruct (dispatch zones id name msg st) as [[st' out] threw].
    cbn [fst snd] in *. apply in_app_or in Hin.
    destruct Hin as [Hin | Hin]; [exact (Hto Hne to m Hin)|].
    destruct threw; [|destruct Hin].
    destruct (map_get Nat.eqb id (clients st')) as [[|]|];
      [destruct Hin as [Hin | []]; congruence | destruct Hin | destruct Hin].
Qed.
(** ** The treat option *)

Lemma has_treat_objects (l : list Obj.t) : has_treat (map obj_json l) = false.
Proof. induction l as [|i l IH]; [reflexivity | exact IH]. Qed.

Lemma no_treat_same (st st' : State) :
  positions st' = positions st ->
  playerFiles (disk st') = playerFiles (disk st) ->
  no_treat st -> no_treat st'.
Proof. unfold no_treat. intros -> ->. auto. Qed.

Lemma no_treat_get (st : State) (id : nat) (p : Player.t) :
  no_treat st -> map_get Nat.eqb id (positions st) = Some p ->
  has_treat (Player.inventory p) = false.
Proof.
  intros [Hpos _] Hget. apply (Hpos id).
  apply (map_get_In Nat.eqb); [|exact Hget].
  intros a b. apply Nat.eqb_eq.
Qed.

Lemma no_treat_set (st : State) (id : nat) (p : Player.t) :
  no_treat st -> has_treat (Player.inventory p) = false ->
  no_treat (set_positions (map_set Nat.eqb id p (positions st)) st).
Proof.
  intros [Hpos Hfiles] Hp. split; [|exact Hfiles].
  intros id' p' Hin. cbn [positions set_positions] in Hin.
  apply In_map_set in Hin. destruct Hin as [[= -> ->] | Hin]; eauto.
Qed.

Lemma savePlayerData_no_treat (name : string)
    (record : list (string * value)) (inventory : list value)
    (st st' : State) :
  no_treat st ->
  lookup_field "inventory" record = VArr inventory ->
  has_treat inventory = false ->
  savePlayerData name record st = Returns st' -> no_treat st'.
Proof.
  unfold savePlayerData. intros [Hpos Hfiles] Hrec Hinv.
  destruct (writable (disk st)); [|discriminate].
  intros [= <-]. split; [exact Hpos|].
  intros name' data inv Hin Hn. simpl in Hin. apply In_map_set in Hin.
  destruct Hin as [[= -> <-] | Hin]; [congruence | eauto].
Qed.

Lemma player_record_inventory (name : string) (x y roomId : value)
    (color : string) (inventory : list value) (privilege : Z)
    (salt hash : value) :
  lookup_field "inventory"
    (player_record name x y roomId color inventory privilege salt hash)
  = VArr inventory.
Proof.
  exact (proj1 (proj2 (proj2 (proj2 (proj2 (proj2
           (player_record_fields name x y roomId color inventory privilege
                                 salt hash))))))).
Qed.

Lemma write_room_no_treat (key : string * Z) (roomJson : Room)
    (st st' : State) :
  write_room key roomJson st = Some st' -> no_treat st -> no_treat st'.
Proof.
  unfold write_room. destruct (writable (disk st)); [|discriminate].
  intros [= <-]. apply no_treat_same; reflexivity.
Qed.

(** The kinds of send that are no context menu. *)
Lemma spawned_no_menu (e : Effect) :
  is_object_spawned e = true -> menu_hidden e = true.
Proof. destruct e as [to [] | |]; simpl; congruence. Qed.

Lemma start_path_no_menu (e : Effect) :
  is_npc_start_path e = true -> menu_hidden e = true.
Proof. destruct e as [to [] | |]; simpl; congruence. Qed.

Section Treat.

Variable pbkdf2Sync : string -> string -> string.
Variable zones : list ZoneDef.

Local Abbreviation hidden out := (forall e, In e out -> menu_hidden e = true).

Lemma dispatch_no_treat (id : nat) (name : string)
    (msg : list (string * value)) (st : State) :
  no_treat st ->
  no_treat (fst (fst (dispatch zones id name msg st))) /\
  hidden (snd (fst (dispatch zones id name msg st))).
Proof.
  intros H. split.
  - unfold dispatch.
    repeat match goal with
           | |- context [if ?c then _ else _] => destruct c
           end; try exact H.
    + unfold handle_update.
      destruct (map_get Nat.eqb id (positions st)) as [player|] eqn:Hp.
      * apply no_treat_set; [exact H|]. exact (no_treat_get st id player H Hp).
      * destruct (existsb _ _); exact H.
    + unfold handle_pickup.
      destruct (toString _) as [zoneKey| |]; try exact H.
      destruct (find _ _) as [inst|]; [|exact H].
      destruct (_ && _); [|exact H].
      destruct (saveObjectsState _) as [st2| |] eqn:Hsave; try exact H.
      destruct (saveObjectsState_same _ _ Hsave) as (P & F & _).
      exact (no_treat_same _ _ P F H).
    + unfold handle_drop.
      destruct (toString _) as [zoneKey| |]; try exact H.
      destruct (find _ _) as [inst|]; [|exact H].
      destruct (owned_by name inst); [|exact H].
      destruct (saveObjectsState _) as [st2| |] eqn:Hsave; try exact H.
      destruct (saveObjectsState_same _ _ Hsave) as (P & F & _).
      assert (H2 : no_treat st2) by exact (no_treat_same _ _ P F H).
      destruct (map_get Nat.eqb id (positions st2)) as [playerData|] eqn:Hp;
        [|exact H2].
      match goal with
      | |- context [savePlayerData ?n ?r ?s] =>
          assert (H3 : no_treat s)
            by (apply no_treat_set; [exact H2 | apply has_treat_objects]);
          destruct (savePlayerData n r s) as [st4| |] eqn:Hsave2
      end; try exact H3.
      eapply savePlayerData_no_treat in Hsave2;
        [exact Hsave2 | exact H3 | apply player_record_inventory
        | apply has_treat_objects].
    + unfold handle_request. destruct (toString _); exact H.
    + unfold handle_get_context_menu.
      repeat match goal with
             | |- context [match ?x with _ => _ end] => destruct x
             end; exact H.
    + unfold handle_context_action.
      repeat match goal with
             | |- context [match ?x with _ => _ end] => destruct x
             end; exact H.
    + unfold handle_edit_tile, reply_error, done.
      destruct (load_for_edit _ _ _ _ _) as [error | [[roomId key] roomJson]];
        [exact H|].
      destruct (validateEditRequest _ _); [|exact H].
      destruct (write_room _ _ _) as [st'|] eqn:Hw; [|exact H].
      exact (write_room_no_treat _ _ _ _ Hw H).
    + unfold handle_edit_tile_exits, reply_error, done.
      destruct (load_for_edit _ _ _ _ _) as [error | [[roomId key] roomJson]];
        [exact H|].
      destruct (validateEditRequest _ _); [|exact H].
      destruct (write_room _ _ _) as [st'|] eqn:Hw; [|exact H].
      exact (write_room_no_treat _ _ _ _ Hw H).
    + unfold handle_resize_room, reply_error, done.
      destruct (load_for_edit _ _ _ _ _) as [error | [[roomId key] roomJson]];
        [exact H|].
      destruct (write_room _ _ _) as [st'|] eqn:Hw; [|exact H].
      exact (write_room_no_treat _ _ _ _ Hw H).
  - intros e He.
    destruct (strict_eq (lookup_field "type" msg) (VStr "get-context-menu"))
      eqn:Hmenu.
    + assert (Hty : lookup_field "type" msg = VStr "get-context-menu").
      { destruct (lookup_field "type" msg); try discriminate.
        simpl in Hmenu. apply String.eqb_eq in Hmenu. congruence. }
      unfold dispatch in He. rewrite Hty in He.
      cbn [strict_eq String.eqb Ascii.eqb Bool.eqb] in He.
      unfold handle_get_context_menu, done in He.
      destruct (map_get Nat.eqb id (positions st)) as [player|] eqn:Hp;
        [|destruct He].
      pose proof (no_treat_get st id player H Hp) as Hno.
      unfold has_treat in Hno.
      destruct_matches_in He; cbn [fst snd In] in He; try contradiction;
        destruct He as [<- | []]; cbn; rewrite ?Hno; reflexivity.
    + unfold dispatch in He. rewrite Hmenu in He.
      unfold handle_update, handle_pickup, handle_drop, handle_request,
        handle_context_action, handle_edit_tile, handle_edit_tile_exits,
        handle_resize_room, reply_error, done, thrown in He.
      destruct_matches_in He; cbn [fst snd] in He; only_sends He.
Qed.

Lemma on_message_no_treat (id : nat) (name : string) (raw : option value)
    (st : State) :
  no_treat st ->
  no_treat (fst (on_message zones id name raw st)) /\
  hidden (snd (on_message zones id name raw st)).
Proof.
  intros H. unfold on_message.
  assert (Hcatch : forall s : State,
            hidden
              match map_get Nat.eqb id (clients s) with
              | Some true => [Send id (MError "Invalid message format")]
              | _ => []
              end).
  { intros s e He. destruct (map_get Nat.eqb id (clients s)) as [[|]|];
      only_sends He. }
  destruct raw as [[| | | | | |msg]|]; cbn [fst snd thrown done app];
    try (split; [exact H | first [exact (Hcatch st) | intros e []]]).
  destruct (dispatch_no_treat id name msg st H) as [Hst Hout].
  destruct (dispatch zones id name msg st) as [[st' out] threw].
  cbn [fst snd] in *. split; [exact Hst|].
  intros e He. apply in_app_or in He. destruct He as [He | He]; [auto|].
  destruct threw; [exact (Hcatch st' e He) | destruct He].
Qed.

Lemma check_credentials_no_treat (salt_bytes name password : string)
    (create : value) (init init' : InitialPos.t) (st st' : State) :
  no_treat st -> has_treat (InitialPos.inventory init) = false ->
  check_credentials pbkdf2Sync salt_bytes name password create init st
    = inr (init', st') ->
  has_treat (InitialPos.inventory init') = false /\ no_treat st' /\
  positions st' = positions st.
Proof.
  intros H Hinit. unfold check_credentials.
  destruct (map_get String.eqb name (playerFiles (disk st)))
    as [[data|]|] eqn:Hfile.
  - destruct (_ || _); [discriminate|].
    destruct (truthy create); [discriminate|].
    destruct (verifyPassword _ _ _ _) as [[|]| |]; try discriminate;
      intros [= <- <-]; (split; [|split; [exact H | reflexivity]]);
      [|exact Hinit | exact Hinit].
    unfold fill_from_record. cbn [InitialPos.inventory].
    destruct (lookup_field "inventory" data) eqn:Hinv; try exact Hinit.
    destruct H as [_ Hfiles]. apply (Hfiles name data); [|exact Hinv].
    apply (map_get_In String.eqb); [|exact Hfile].
    intros k1 k2. apply String.eqb_eq.
  - intros [= <- <-]. auto.
  - destruct (truthy create); [|discriminate].
    destruct (savePlayerData _ _ _) as [st2| |] eqn:Hsave;
      intros [= <- <-]; (split; [exact Hinit|]); try (split; [exact H | reflexivity]).
    split.
    + eapply savePlayerData_no_treat in Hsave;
        [exact Hsave | exact H | apply player_record_inventory | exact Hinit].
    + unfold savePlayerData in Hsave.
      destruct (writable (disk st)); [|discriminate].
      injection Hsave as <-. reflexivity.
Qed.

Lemma on_first_message_no_treat (salt_bytes : string) (m : FirstMessage)
    (st : State) :
  no_treat st ->
  no_treat (fst (on_first_message pbkdf2Sync salt_bytes m st)) /\
  hidden (snd (on_first_message pbkdf2Sync salt_bytes m st)).
Proof.
  intros H. unfold on_first_message.
  destruct m as [| | |name password create]; cbn [fst snd];
    try (split; [exact H | intros e He; only_sends He]).
  destruct (negb (truthy (VStr name)) || negb (truthy (VStr password)));
    [cbn [fst snd]; split; [exact H | intros e He; only_sends He]|].
  cbv zeta.
  match goal with
  | |- context [check_credentials _ _ _ _ _ ?i ?s1] =>
      assert (H1 : no_treat s1)
        by (apply (no_treat_same st); [reflexivity | reflexivity | exact H]);
      pose proof (fun i' s' =>
                    check_credentials_no_treat salt_bytes name password
                      create i i' s1 s' H1 eq_refl) as Hc;
      destruct (check_credentials pbkdf2Sync salt_bytes name password create
                                  i s1) as [message | [init' st2]]
  end; cbn [fst snd].
  - split; [exact H | intros e He; only_sends He].
  - destruct (Hc init' st2 eq_refl) as (Hinv & [Hpos Hfiles] & _).
    split.
    + split; [|exact Hfiles].
      intros id p Hin. cbn [positions] in Hin. apply In_map_set in Hin.
      destruct Hin as [[= _ ->] | Hin]; [exact Hinv | eauto].
    + intros e He. unfold welcome in He. only_sends He.
Qed.

Lemma on_close_no_treat (id : nat) (st : State) :
  no_treat st ->
  no_treat (fst (on_close id st)) /\ hidden (snd (on_close id st)).
Proof.
  intros H. unfold on_close. cbn [fst snd].
  split; [|intros e He; only_sends He].
  match goal with
  | |- context [mkState (clientId ?s)] =>
      assert (H1 : no_treat s); [|set (st1 := s) in *]
  end.
  { destruct (map_get Nat.eqb id (positions st)) as [data|] eqn:Hp;
      [|exact H].
    destruct (savePlayerData _ _ _) as [st'| |] eqn:Hsave; try exact H.
    eapply savePlayerData_no_treat in Hsave;
      [exact Hsave | exact H | apply player_record_inventory |].
    exact (no_treat_get st id data H Hp). }
  destruct H1 as [Hpos Hfiles]. split; [|exact Hfiles].
  intros id' p Hin. cbn [positions] in Hin. apply In_map_delete in Hin. eauto.
Qed.

Lemma behaviors_all_no_menu (random : nat -> Q) :
  forall npcs k st, hidden (behaviors_all random k npcs st).
Proof.
  induction npcs as [|npc rest IH]; intros k st e He; [contradiction|].
  simpl in He. destruct (Npc.behavior npc) as [b|]; [|eapply IH; eauto].
  apply in_app_or in He. destruct He as [He | He]; [|eapply IH; eauto].
  unfold behavior_onTick in He.
  destruct_matches_in He; only_sends He.
Qed.

Lemma on_tick_no_treat (random : nat -> Q) (st : State) :
  no_treat st ->
  no_treat (fst (fst (on_tick zones random st))) /\
  hidden (snd (fst (on_tick zones random st))).
Proof.
  intros H. split.
  - destruct (on_tick_clock zones random st)
      as ((_ & _ & P & _ & _ & _ & _ & F & _) & _).
    assert (Hc : positions (fst (tick_clock st)) = positions st /\
                 playerFiles (disk (fst (tick_clock st)))
                 = playerFiles (disk st)).
    { unfold tick_clock. cbv zeta. destruct (Z.rem _ 60 =? 0); cbn [fst]; auto.
      cbn [disk set_gameTime]. destruct (writable (disk st)); auto. }
    destruct Hc as (P0 & F0).
    apply (no_treat_same st); [congruence | congruence | exact H].
  - unfold on_tick.
    destruct (tick_clock st) as [st1 out1] eqn:Hclock.
    assert (Hout1 : hidden out1).
    { unfold tick_clock in Hclock.
      destruct (Z.rem _ 60 =? 0); injection Hclock as <- <-;
        intros e He; only_sends He. }
    unfold tick_respawn.
    destruct (respawn_sweep _ _ _ st1) as [[st2 out2] c2] eqn:Hsweep.
    apply respawn_sweep_frame in Hsweep. destruct Hsweep as (_ & _ & _ & A4).
    destruct c2.
    { cbn [fst snd]. intros e He. apply in_app_or in He.
      destruct He; [auto | apply spawned_no_menu; auto]. }
    destruct (roam_all zones random 0 0 (npcInstances st2) st2)
      as [[[st3 out3] k] c3] eqn:Hroam.
    apply roam_all_frame in Hroam.
    destruct Hroam as (_ & _ & _ & _ & _ & B6).
    destruct c3; cbn [fst snd]; intros e He;
      repeat (apply in_app_or in He; destruct He as [He | He]);
      auto using spawned_no_menu, start_path_no_menu.
    eapply behaviors_all_no_menu; eauto.
Qed.

Lemma on_timer_no_treat (instanceId : string) (st : State) :
  no_treat st ->
  no_treat (fst (fst (on_timer instanceId st))) /\
  hidden (snd (fst (on_timer instanceId st))).
Proof.
  intros H. unfold on_timer.
  destruct (map_get String.eqb instanceId (npcTimers st)) as [t|];
    [|split; [exact H | intros e []]].
  unfold saveNpcState. cbn [disk set_npcInstances set_npcTimers].
  destruct (writable (disk st)); cbn [fst snd].
  - split; [apply (no_treat_same st); try reflexivity; exact H|].
    intros e He. destruct (nth_error _ _); only_sends He.
  - split; [apply (no_treat_same st); try reflexivity; exact H|].
    intros e [].
Qed.

Lemma step_no_treat (ev : Event) (st : State) :
  no_treat st ->
  no_treat (fst (step pbkdf2Sync zones ev st)) /\
  hidden (snd (step pbkdf2Sync zones ev st)).
Proof.
  intros H. destruct ev as [salt m | id raw | id | random | instanceId];
    cbn [step].
  - apply on_first_message_no_treat, H.
  - destruct (listener_name id st);
      [apply on_message_no_treat, H | split; [exact H | intros e []]].
  - destruct (listener_name id st);
      [apply on_close_no_treat, H | split; [exact H | intros e []]].
  - apply on_tick_no_treat, H.
  - apply on_timer_no_treat, H.
Qed.

(** X23.  The treat option of Fido's context menu is never offered by
    play.  The option is flagged visible when the sender's inventory
    includes the string 'dog_treat'; but the server never puts a string
    into an inventory: a pickup leaves the inventory alone and a drop
    replaces it by instance objects.  So if no inventory, connected or in
    a player file, holds that string, then after any sequence of events
    none does, and no context menu sent on the way has an option flagged
    visible. *)
Theorem treat_option_is_never_visible (evs : list Event) (st : State)
    (Hnone : no_treat st) :
  let result := run pbkdf2Sync zones evs st in
  no_treat (fst result) /\
  forall e, In e (snd result) -> menu_hidden e = true.
Proof.
  cbv zeta. revert st Hnone.
  induction evs as [|ev evs IH]; intros st Hnone;
    [split; [exact Hnone | intros e []]|].
  cbn [run].
  pose proof (step_no_treat ev st Hnone) as Hs.
  destruct (step pbkdf2Sync zones ev st) as [st1 out1].
  destruct Hs as [H1 O1]. cbn [fst snd] in H1, O1.
  specialize (IH st1 H1).
  destruct (run pbkdf2Sync zones evs st1) as [st2 out2].
  cbn [fst snd] in *. destruct IH as [H2 O2]. split; [exact H2|].
  intros e He. apply in_app_or in He. destruct He; auto.
Qed.

End Treat.
(** ** The shape of a route *)

Section Routes.
Variable tiles : list (list Tile).
Variables rows cols : Z.
Variable s : coord.

Local Abbreviation step := (can_step tiles rows cols).
Local Abbreviation Walk := (walk tiles rows cols s).

Lemma walk_head p e : Walk p e -> hd_error p = Some s.
Proof.
  induction 1 as [|p c n Hw IH Hs]; [reflexivity|].
  destruct p; [discriminate IH | exact IH].
Qed.

Lemma walk_snoc_inv p x e :
  Walk (p ++ [x]) e -> p <> [] ->
  e = x /\ exists c, Walk p c /\ step c x = true.
Proof.
  intros Hw Hp. apply walk_inv in Hw.
  destruct Hw as [[Heq _] | (p0 & c & Heq & Hw0 & Hs)].
  - destruct p as [|a [|b p]]; try discriminate; congruence.
  - apply app_inj_tail in Heq. destruct Heq as [-> ->]. eauto.
Qed.

(** The routes through a tile [c]: what comes before [c] can be cut off a
    route and replaced. *)
Lemma walk_prefix p c q e : Walk (p ++ c :: q) e -> Walk (p ++ [c]) c.
Proof.
  revert e. induction q as [|x q IH] using rev_ind; intros e Hw.
  - pose proof (walk_end _ _ _ _ _ _ Hw) as He.
    rewrite path_end_snoc in He. injection He as <-. exact Hw.
  - replace (p ++ c :: q ++ [x]) with ((p ++ c :: q) ++ [x]) in Hw
      by (rewrite <- app_assoc; reflexivity).
    apply walk_snoc_inv in Hw; [|destruct p; discriminate].
    destruct Hw as (_ & c0 & Hw & _). exact (IH _ Hw).
Qed.

Lemma walk_graft p p' c q e :
  Walk (p ++ c :: q) e -> Walk (p' ++ [c]) c -> Walk (p' ++ c :: q) e.
Proof.
  intros Hw Hp'. revert e Hw.
  induction q as [|x q IH] using rev_ind; intros e Hw.
  - pose proof (walk_end _ _ _ _ _ _ Hw) as He.
    rewrite path_end_snoc in He. injection He as <-. exact Hp'.
  - replace (p ++ c :: q ++ [x]) with ((p ++ c :: q) ++ [x]) in Hw
      by (rewrite <- app_assoc; reflexivity).
    apply walk_snoc_inv in Hw; [|destruct p; discriminate].
    destruct Hw as (-> & c0 & Hw & Hs).
    replace (p' ++ c :: q ++ [x]) with ((p' ++ c :: q) ++ [x])
      by (rewrite <- app_assoc; reflexivity).
    eapply walk_step; [exact (IH _ Hw) | exact Hs].
Qed.

Lemma walk_steps p e :
  Walk p e ->
  forall i c n,
    nth_error p i = Some c -> nth_error p (S i) = Some n -> step c n = true.
Proof.
  induction 1 as [|p c0 n0 Hw IH Hs]; intros i c n Hc Hn.
  - destruct i; discriminate.
  - assert (Hlen : (S i < List.length (p ++ [n0]))%nat)
      by (apply nth_error_Some; congruence).
    rewrite length_app in Hlen. cbn [List.length] in Hlen.
    destruct (Nat.eq_dec (S i) (List.length p)) as [Hlast | Hin].
    + rewrite nth_error_app2 in Hn by lia.
      replace (S i - List.length p)%nat with 0%nat in Hn by lia.
      injection Hn as <-.
      rewrite nth_error_app1 in Hc by lia.
      pose proof (walk_end _ _ _ _ _ _ Hw) as He. unfold path_end in He.
      assert (Hc' : nth_error p i = Some c0).
      { destruct (rev p) as [|z zs] eqn:Hrev; [discriminate|].
        injection He as ->.
        apply (f_equal (@rev coord)) in Hrev. rewrite rev_involutive in Hrev.
        rewrite Hrev. cbn [rev]. rewrite nth_error_app2;
          rewrite length_rev;
          [|rewrite Hrev in Hlast; cbn [rev] in Hlast;
            rewrite length_app, length_rev in Hlast; simpl in Hlast; lia].
        rewrite Hrev in Hlast. cbn [rev] in Hlast.
        rewrite length_app, length_rev in Hlast. simpl in Hlast.
        replace (i - List.length zs)%nat with 0%nat by lia. reflexivity. }
      congruence.
    + rewrite nth_error_app1 in Hc, Hn by lia. exact (IH i c n Hc Hn).
Qed.

End Routes.

Lemma no_repeat_NoDup {A : Type} (l : list A) :
  (forall l1 c l2 l3, l <> l1 ++ c :: l2 ++ c :: l3) -> NoDup l.
Proof.
  induction l as [|a l IH]; intros H; constructor.
  - intros Hin. apply in_split in Hin. destruct Hin as (l2 & l3 & ->).
    exact (H [] a l2 l3 eq_refl).
  - apply IH. intros l1 c l2 l3 ->. exact (H (a :: l1) c l2 l3 eq_refl).
Qed.

(** X24.  The shape of a route.  On a rectangular grid, a route that
    findPath returns begins with the start tile and ends with the goal,
    moves by one tile along x or y at each step into a tile of the grid
    whose terrain is not "void", and visits no tile twice.  The start
    tile itself is not examined. *)
Theorem findPath_route_is_simple (tiles : list (list Tile))
    (start goal : coord) (path : list coord)
    (Hrect : rectangular tiles)
    (Hfind : findPath start goal tiles = Returns (Some path)) :
  hd_error path = Some start /\ path_end path = Some goal /\
  NoDup path /\
  forall i c n,
    nth_error path i = Some c -> nth_error path (S i) = Some n ->
    manhattan c n = 1 /\
    in_grid (grid_rows tiles) (grid_cols tiles) n = true /\
    exists t, tile_at tiles (fst n) (snd n) = Some t /\ is_void t = false.
Proof.
  destruct (findPath_total start goal tiles Hrect) as (r & Hr & Hpost).
  rewrite Hfind in Hr. injection Hr as <-. cbn [search_post] in Hpost.
  destruct Hpost as [Hwalk Hmin].
  split; [exact (walk_head _ _ _ _ _ _ Hwalk)|].
  split; [exact (walk_end _ _ _ _ _ _ Hwalk)|].
  split.
  - apply no_repeat_NoDup. intros l1 c l2 l3 Heq. subst path.
    pose proof (walk_prefix _ _ _ _ _ _ _ _ Hwalk) as Hpre.
    replace (l1 ++ c :: l2 ++ c :: l3) with ((l1 ++ c :: l2) ++ c :: l3)
      in Hwalk by (rewrite <- app_assoc; reflexivity).
    pose proof (walk_graft _ _ _ _ _ _ _ _ _ Hwalk Hpre) as Hshort.
    apply Hmin in Hshort.
    rewrite !length_app in Hshort. cbn [List.length] in Hshort.
    rewrite length_app in Hshort. cbn [List.length] in Hshort. lia.
  - intros i c n Hc Hn.
    pose proof (walk_steps _ _ _ _ _ _ Hwalk i c n Hc Hn) as Hstep.
    unfold can_step in Hstep. apply andb_true_iff in Hstep.
    destruct Hstep as [Hnb Htrav].
    unfold traversable in Htrav. apply andb_true_iff in Htrav.
    destruct Htrav as [Hin Htile].
    split.
    + apply existsb_exists in Hnb. destruct Hnb as (m & Hm & Heq).
      apply coord_eqb_eq in Heq. subst m. unfold neighbours, dirs in Hm.
      cbn [map In] in Hm. unfold manhattan.
      destruct Hm as [<- | [<- | [<- | [<- | []]]]]; cbn [fst snd]; lia.
    + split; [exact Hin|].
      destruct (tile_at tiles (fst n) (snd n)) as [t|]; [|discriminate].
      exists t. split; [reflexivity|]. apply negb_true_iff. exact Htile.
Qed.
(** ** Authenticated connections and their position entries *)

Lemma player_step_names (m m' : list (nat * Player.t)) (i : nat) :
  Forall2 player_step m m' ->
  (forall p, map_get Nat.eqb i m = Some p ->
             exists p', map_get Nat.eqb i m' = Some p' /\
                        Player.name p' = Player.name p) /\
  (forall p', map_get Nat.eqb i m' = Some p' ->
              exists p, map_get Nat.eqb i m = Some p /\
                        Player.name p' = Player.name p).
Proof.
  induction 1 as [|[k v] [k' v'] m m' (Hk & Hn & _) _ IH]; simpl;
    [split; discriminate|].
  simpl in Hk, Hn. subst k'. destruct (i =? k)%nat; [|exact IH].
  split; intros q [= <-]; eauto.
Qed.

Lemma check_credentials_name (pbkdf2Sync : string -> string -> string)
    (salt_bytes name password : string) (create : value)
    (init init' : InitialPos.t) (st st' : State) :
  check_credentials pbkdf2Sync salt_bytes name password create init st
    = inr (init', st') ->
  InitialPos.name init' = InitialPos.name init.
Proof.
  unfold check_credentials. intros H.
  destruct_matches_in H; try discriminate; injection H as <- _; reflexivity.
Qed.

Lemma registered_same (st st' : State) :
  clientId st' = clientId st -> clients st' = clients st ->
  nameMap st' = nameMap st -> listeners st' = listeners st ->
  positions st' = positions st ->
  registered st -> registered st'.
Proof. unfold registered. intros -> -> -> -> ->. auto. Qed.

Section Registry.

Variable pbkdf2Sync : string -> string -> string.
Variable zones : list ZoneDef.

Lemma on_first_message_registered (salt_bytes : string) (m : FirstMessage)
    (st : State) :
  registered st ->
  registered (fst (on_first_message pbkdf2Sync salt_bytes m st)).
Proof.
  intros [Hl Hp]. unfold on_first_message.
  destruct m as [| | |name password create]; try (split; assumption).
  destruct (negb (truthy (VStr name)) || negb (truthy (VStr password)));
    [split; assumption|].
  cbv zeta.
  match goal with
  | |- context [check_credentials _ _ _ _ _ ?i ?s1] =>
      pose proof (fun i' s' =>
                    check_credentials_frame pbkdf2Sync salt_bytes name
                      password create i i' s1 s') as Hframe;
      pose proof (fun i' s' =>
                    check_credentials_name pbkdf2Sync salt_bytes name
                      password create i i' s1 s') as Hname;
      destruct (check_credentials pbkdf2Sync salt_bytes name password create
                                  i s1) as [message | [init' st2]]
  end; cbn [fst].
  - split.
    + intros id n Hin. cbn [listeners set_clients] in Hin.
      destruct (Hl id n Hin) as (Hlt & Hnm & [open Hc] & Hpos).
      cbn [clientId nameMap clients positions set_clients].
      split; [lia|].
      rewrite !map_get_set_other by (auto using nat_eqb_iff; lia).
      split; [exact Hnm|]. split; [eauto | exact Hpos].
    + intros id p Hget. exact (Hp id p Hget).
  - destruct (Hframe init' st2 eq_refl)
      as (Hcid & Hc & Hpos & Hnm & Hls & _).
    specialize (Hname init' st2 eq_refl).
    cbn [clientId clients positions nameMap listeners] in Hcid, Hc, Hpos,
      Hnm, Hls.
    cbn [InitialPos.name] in Hname.
    split.
    + intros id n Hin. cbn [listeners] in Hin. rewrite Hls in Hin.
      cbn [clientId nameMap clients positions].
      rewrite Hcid, Hnm, Hc, Hpos.
      apply in_app_or in Hin. destruct Hin as [Hin | [[= <- <-] | []]].
      * destruct (Hl id n Hin) as (Hlt & Hn & [open Ho] & Hq).
        split; [lia|].
        rewrite !map_get_set_other by (auto using nat_eqb_iff; lia).
        split; [exact Hn|]. split; [eauto | exact Hq].
      * split; [lia|].
        rewrite !map_get_set_same by apply Nat.eqb_refl.
        split; [reflexivity|]. split; [eauto|].
        eexists. split; [reflexivity | exact Hname].
    + intros id p Hget. cbn [positions listeners] in *.
      rewrite Hpos in Hget. rewrite Hls.
      apply in_or_app.
      destruct (Nat.eq_dec id (clientId st)) as [-> | Hne].
      * rewrite map_get_set_same in Hget by apply Nat.eqb_refl.
        injection Hget as <-. right. left. cbn [Player.name].
        rewrite Hname. reflexivity.
      * rewrite map_get_set_other in Hget by (auto using nat_eqb_iff).
        left. exact (Hp id p Hget).
Qed.

Lemma on_message_registered (id : nat) (name : string) (raw : option value)
    (st : State) :
  registered st -> registered (fst (on_message zones id name raw st)).
Proof.
  intros [Hl Hp].
  destruct (on_message_frame zones id name raw st)
    as (Hcid & Hc & Hnm & Hls & _ & _ & _ & _ & Hpos & _).
  split.
  - intros i n Hin. rewrite Hls in Hin. rewrite Hcid, Hnm, Hc.
    destruct (Hl i n Hin) as (Hlt & Hn & Ho & p & Hq & Hpn).
    split; [exact Hlt|]. split; [exact Hn|]. split; [exact Ho|].
    destruct (proj1 (player_step_names _ _ i Hpos) p Hq) as (p' & Hq' & Hn').
    exists p'. split; [exact Hq' | congruence].
  - intros i p' Hget. rewrite Hls.
    destruct (proj2 (player_step_names _ _ i Hpos) p' Hget) as (p & Hq & Hn).
    rewrite Hn. exact (Hp i p Hq).
Qed.

Lemma on_close_registered (id : nat) (st : State) :
  registered st -> registered (fst (on_close id st)).
Proof.
  intros [Hl Hp].
  assert (Hmaps :
    clientId (fst (on_close id st)) = clientId st /\
    clients (fst (on_close id st)) = map_delete Nat.eqb id (clients st) /\
    positions (fst (on_close id st)) = map_delete Nat.eqb id (positions st) /\
    nameMap (fst (on_close id st)) = map_delete Nat.eqb id (nameMap st) /\
    listeners (fst (on_close id st))
    = filter (fun l => negb (fst l =? id)%nat) (listeners st)).
  { unfold on_close, savePlayerData.
    destruct (map_get Nat.eqb id (positions st)); [|simpl; auto].
    destruct (writable (disk st)); simpl; auto. }
  destruct Hmaps as (Hcid & Hc & Hpos & Hnm & Hls).
  split.
  - intros i n Hin. rewrite Hls in Hin. apply filter_In in Hin.
    destruct Hin as [Hin Hne]. cbn [fst] in Hne.
    apply negb_true_iff, Nat.eqb_neq in Hne.
    rewrite Hcid, Hc, Hpos, Hnm.
    rewrite !map_get_delete_other by (auto using nat_eqb_iff).
    exact (Hl i n Hin).
  - intros i p Hget. rewrite Hpos in Hget. rewrite Hls.
    apply filter_In.
    destruct (Nat.eq_dec i id) as [-> | Hne].
    + rewrite map_get_delete_same in Hget by apply nat_eqb_iff. discriminate.
    + rewrite map_get_delete_other in Hget by (auto using nat_eqb_iff).
      split; [exact (Hp i p Hget)|]. cbn [fst].
      apply negb_true_iff, Nat.eqb_neq. exact Hne.
Qed.

Lemma on_tick_registered (random : nat -> Q) (st : State) :
  registered st -> registered (fst (fst (on_tick zones random st))).
Proof.
  intros H.
  destruct (on_tick_clock zones random st)
    as ((Hcid & Hc & Hpos & Hnm & Hls & _) & _).
  assert (Hclock :
    clientId (fst (tick_clock st)) = clientId st /\
    clients (fst (tick_clock st)) = clients st /\
    positions (fst (tick_clock st)) = positions st /\
    nameMap (fst (tick_clock st)) = nameMap st /\
    listeners (fst (tick_clock st)) = listeners st).
  { unfold tick_clock. cbv zeta. destruct (Z.rem _ 60 =? 0); cbn [fst]; auto.
    cbn [disk set_gameTime]. destruct (writable (disk st)); auto. }
  destruct Hclock as (C1 & C2 & C3 & C4 & C5).
  apply (registered_same st); congruence.
Qed.

Lemma on_timer_registered (instanceId : string) (st : State) :
  registered st -> registered (fst (fst (on_timer instanceId st))).
Proof.
  intros H. unfold on_timer.
  destruct (map_get String.eqb instanceId (npcTimers st)) as [t|]; [|exact H].
  unfold saveNpcState. cbn [disk set_npcInstances set_npcTimers].
  destruct (writable (disk st)); cbn [fst];
    apply (registered_same st); try reflexivity; exact H.
Qed.

Lemma step_registered (ev : Event) (st : State) :
  registered st -> registered (fst (step pbkdf2Sync zones ev st)).
Proof.
  intros H. destruct ev as [salt m | id raw | id | random | instanceId];
    cbn [step].
  - apply on_first_message_registered, H.
  - destruct (listener_name id st);
      [apply on_message_registered, H | exact H].
  - destruct (listener_name id st); [apply on_close_registered, H | exact H].
  - apply on_tick_registered, H.
  - apply on_timer_registered, H.
Qed.

(** X25.  The handlers of a connection and its position entry come and go
    together.  Starting from a state where that holds (the empty registry
    at boot, for one), after any sequence of events every connection
    whose message and close handlers are attached has an id below the
    counter, a registered socket, its login name in the name map, and a
    position entry under that same name; and every position entry belongs
    to such a connection.  So the handlers always find the sender's
    position, and objects are claimed and player files written under one
    name. *)
Theorem authenticated_connections_have_positions (evs : list Event)
    (st : State) (Hreg : registered st) :
  let st' := fst (run pbkdf2Sync zones evs st) in
  registered st' /\
  forall id name,
    listener_name id st' = Some name ->
    exists p, map_get Nat.eqb id (positions st') = Some p /\
              Player.name p = name.
Proof.
  cbv zeta.
  assert (Hrun : registered (fst (run pbkdf2Sync zones evs st))).
  { revert st Hreg. induction evs as [|ev evs IH]; intros st Hreg;
      [exact Hreg|].
    cbn [run].
    pose proof (step_registered ev st Hreg) as Hs.
    destruct (step pbkdf2Sync zones ev st) as [st1 out1].
    cbn [fst] in Hs. specialize (IH st1 Hs).
    destruct (run pbkdf2Sync zones evs st1) as [st2 out2]. exact IH. }
  split; [exact Hrun|].
  intros id name Hname. unfold listener_name in Hname.
  apply (map_get_In Nat.eqb) in Hname; [|intros a b; apply Nat.eqb_eq].
  destruct Hrun as [Hl _].
  destruct (Hl id name Hname) as (_ & _ & _ & Hp). exact Hp.
Qed.

End Registry.

End Server.

(* ================================================================== *)
(** * Part III: the theorems at the sample world                       *)
(* ================================================================== *)

Open Scope string_scope.

(** On the open 2 x 2 room the route from (0,0) to (1,1) goes through
    (1,0): +x is tried before +y. *)
Lemma findPath_bfs_shortest_witness :
  rectangular open2x2 /\
  findPath (0, 0) (1, 1) open2x2 = Returns (Some [(0, 0); (1, 0); (1, 1)]) /\
  exists r,
    findPath (0, 0) (1, 1) open2x2 = Returns r /\
    search_post open2x2 (grid_rows open2x2) (grid_cols open2x2)
                (0, 0) (1, 1) r.
Proof.
  split; [exact open2x2_rectangular|]. split; [reflexivity|].
  destruct (findPath_bfs_shortest open2x2 (0, 0) (1, 1) open2x2_rectangular)
    as (_ & r & Hr & Hpost & _).
  exists r. split; [exact Hr | exact Hpost].
Defined.


(** The clock at tick 1439 of day 3, hour 23. *)
Lemma tick_advances_clock_witness :
  let st := set_gameTime (mkTime 1439 23 3) sample_state in
  let st' := fst (fst (on_tick sample_zones no_random st)) in
  clock_consistent (gameTime st) /\
  (tick (gameTime st) + 1) mod (60 * 24) = 0 /\
  gameTime st' = mkTime 1440 0 4 /\
  exists t,
    filter is_time_update (snd (fst (on_tick sample_zones no_random st)))
      = [Send 0%nat (MTimeUpdate t)] /\
    msgDay t = 4 /\ hourGlyph t = Some (Moon, 0).
Proof.
  cbv zeta.
  assert (Hc : clock_consistent
                 (gameTime (set_gameTime (mkTime 1439 23 3) sample_state))).
  { split; [simpl; lia | reflexivity]. }
  split; [exact Hc|]. split; [reflexivity|]. split; [vm_compute; reflexivity|].
  pose proof (tick_advances_clock sample_zones no_random
                (set_gameTime (mkTime 1439 23 3) sample_state)) as H.
  cbv zeta in H. destruct H as (_ & _ & _ & H).
  destruct (H Hc eq_refl) as (_ & _ & t & Hout & Hday & Hglyph & _).
  exists t. split; [exact Hout|]. split; [exact Hday | exact Hglyph].
Defined.

Lemma edit_tile_round_trip_witness :
  terrain_regex "sand_1" = true /\
  exists st' room',
    handle_edit_tile sample_beyond sample_zones 0 grass_edit_msg sample_state
      = (st', [Send 0%nat (MRoomUpdated 0 (VObj grass_edit_msg))], false) /\
    map_get room_key_eqb ("zones/beginning"%string, 0) (roomFiles (disk st'))
      = Some room' /\
    tiles room' = [[grass; mkTile (VStr "sand_1") VUndef []]; [grass; grass]].
Proof.
  split; [reflexivity|].
  destruct (edit_tile_round_trip sample_beyond sample_zones 0 grass_edit_msg
              sample_state 0
              ("zones/beginning"%string, 0) sample_room "sand_1"
              eq_refl eq_refl eq_refl eq_refl)
    as (st' & room' & mx & my & t & Hx & Hy & Hrun & _ & Hread & _).
  exists st', room'.
  assert (Hst : st' = fst (fst (handle_edit_tile sample_beyond sample_zones
                                                0 grass_edit_msg
                                                sample_state))).
  { rewrite Hrun. reflexivity. }
  split; [|split].
  - rewrite Hrun. rewrite Hst. reflexivity.
  - exact Hread.
  - rewrite Hst in Hread. vm_compute in Hread. injection Hread as <-.
    reflexivity.
Defined.

(** Bob's record says room 2 and privilege 3; init says room 0 and
    privilege 10, the registry room 2 and privilege 3. *)
Lemma init_reports_room_0_and_privilege_10_witness :
  let result :=
    on_first_message sample_pbkdf2 "r"
                     (FirstAuth "Bob" "right" (VBool false)) auth_state in
  existsb is_close (snd result) = false /\
  exists rest pos,
    snd result = Send 1%nat (MInit 1 (positions (fst result)) 10 20 0 10)
                 :: rest /\
    map_get Nat.eqb 1%nat (positions (fst result)) = Some pos /\
    Player.roomId pos = VNum 2 /\ Player.privilege pos = 3.
Proof.
  cbv zeta. split; [reflexivity|].
  destruct (init_reports_room_0_and_privilege_10 sample_beyond sample_pbkdf2
              sample_zones "r" "Bob" "right" (VBool false) auth_state
              eq_refl)
    as (mx & my & rest & pos & r & p & Hout & Hget & Hroom & Hpriv & Hrec
        & _).
  destruct (Hrec [("name", VStr "Bob"); ("x", VNum 10); ("y", VNum 20);
                  ("roomId", VNum 2); ("color", VStr "blue");
                  ("inventory", VArr []); ("privilege", VNum 3);
                  ("salt", VStr "s1");
                  ("hash", VStr (sample_pbkdf2 "right" "s1"))]%string
                 eq_refl eq_refl) as [Hr Hp].
  cbn in Hr, Hp. subst r p.
  exists rest, pos. split; [|auto].
  rewrite Hout. vm_compute in Hout. injection Hout as Hx Hy _.
  rewrite <- Hx, <- Hy. reflexivity.
Defined.



Lemma update_overwrites_position_witness :
  on_message sample_beyond sample_zones 0 "Ava" (Some (VObj update_msg))
             crowd_state
  = (set_positions
       (map_set Nat.eqb 0%nat
                (Player.mk "Ava" (VNum 12) (VNum 34) (VNum 5) 10 "red" []
                           (VStr "salt") (VStr "hash") "0")
                (positions crowd_state)) crowd_state,
     [Send 1%nat (MUpdate 0 (VNum 12) (VNum 34) (VNum 5) "Ava" 10)]).
Proof.
  destruct (update_overwrites_position sample_beyond sample_zones 0 "Ava"
              update_msg crowd_state sample_player eq_refl eq_refl)
    as (Hst & _ & _ & Hout & _).
  rewrite (surjective_pairing (on_message sample_beyond _ _ _ _ _)), Hst, Hout.
  reflexivity.
Defined.

Lemma registration_then_login_witness :
  let st1 :=
    fst (on_first_message sample_pbkdf2 "r9"%string
           (FirstAuth "Dee"%string "pw"%string (VBool true)) auth_state) in
  map_get String.eqb "Dee"%string (playerFiles (disk auth_state)) = None /\
  (exists record,
     map_get String.eqb "Dee"%string (playerFiles (disk st1))
     = Some (Parsed record) /\
     lookup_field "salt"%string record = VStr "r9"%string) /\
  snd (on_first_message sample_pbkdf2 "r10"%string
         (FirstAuth "Dee"%string "other"%string (VBool false)) st1)
  = [Send 2%nat (MError "Incorrect password."); Close 2%nat].
Proof.
  cbv zeta. split; [reflexivity|].
  destruct (registration_then_login sample_pbkdf2 "r9"%string "Dee"%string
              "pw"%string auth_state ltac:(discriminate) ltac:(discriminate)
              eq_refl eq_refl eq_refl eq_refl eq_refl)
    as (_ & _ & (record & Hfile & Hs & _) & _ & Hbad & _).
  split; [exists record; auto|].
  apply (Hbad "r10"%string "other"%string); discriminate.
Defined.

Lemma unreadable_record_admits_any_password_witness :
  map_get Nat.eqb 1%nat
    (positions
       (fst (on_first_message sample_pbkdf2 "r"%string
               (FirstAuth "Eve"%string "guess"%string (VBool false))
               corrupt_state)))
  = Some (Player.mk "Eve"%string (VNum 400) (VNum 300) (VNum 0) 0
                    "green"%string [] VUndef VUndef "0"%string).
Proof.
  exact (proj1 (proj2 (unreadable_record_admits_any_password sample_pbkdf2
                         "r"%string "Eve"%string "guess"%string (VBool false)
                         corrupt_state ltac:(discriminate)
                         ltac:(discriminate) eq_refl))).
Defined.


Lemma validateRoomId_integers_witness :
  Z.abs 7 <= MAX_SAFE_INTEGER /\
  validateRoomId sample_beyond (VNum 7) = inl 7 /\
  validateRoomId sample_beyond (VStr "7") = inl 7.
Proof.
  assert (Hsafe : Z.abs 7 <= MAX_SAFE_INTEGER)
    by (unfold MAX_SAFE_INTEGER; simpl; lia).
  split; [exact Hsafe|].
  destruct (validateRoomId_integers sample_beyond 7 Hsafe) as (_ & Hn & Hs).
  split; [exact Hn | exact (eq_trans Hs Hn)].
Defined.

Lemma edit_tile_exits_round_trip_witness :
  exists st' room',
    handle_edit_tile_exits sample_beyond sample_zones 0 exits_msg sample_state
      = (st', [Send 0%nat (MRoomUpdated 0 (VObj exits_msg))], false) /\
    map_get room_key_eqb ("zones/beginning"%string, 0) (roomFiles (disk st'))
      = Some room' /\
    tiles room'
    = [[grass; mkTile (VStr "grass") (lookup_field "tileExits" exits_msg) []];
       [grass; grass]].
Proof.
  destruct (edit_tile_exits_round_trip sample_beyond sample_zones 0 exits_msg
              sample_state 0
              ("zones/beginning"%string, 0) sample_room
              eq_refl eq_refl eq_refl)
    as (st' & room' & mx & my & t & Hx & Hy & Hrun & Hread & _).
  exists st', room'.
  assert (Hst : st' = fst (fst (handle_edit_tile_exits sample_beyond
                                  sample_zones 0 exits_msg sample_state)))
    by (rewrite Hrun; reflexivity).
  split; [rewrite Hrun; subst st'; reflexivity|].
  split; [exact Hread|].
  subst st'. vm_compute in Hread. injection Hread as <-. reflexivity.
Defined.

Lemma resize_room_round_trip_witness :
  exists st' room',
    handle_resize_room sample_beyond sample_zones 0 resize_msg sample_state
      = (st', [Send 0%nat (MRoomResized 0 3 1)], false) /\
    map_get room_key_eqb ("zones/beginning"%string, 0) (roomFiles (disk st'))
      = Some room' /\
    tiles room' = [[grass; grass; void_tile]].
Proof.
  destruct (resize_room_round_trip sample_beyond sample_zones 0 resize_msg
              sample_state 0
              ("zones/beginning"%string, 0) sample_room
              eq_refl eq_refl ltac:(simpl; lia) ltac:(simpl; lia) eq_refl
              ltac:(repeat constructor))
    as (st' & room' & newW & newH & HW & HH & _ & _ & Hrun & Hread & _).
  exists st', room'.
  injection HW as <-. injection HH as <-.
  assert (Hst : st' = fst (fst (handle_resize_room sample_beyond
                                  sample_zones 0 resize_msg sample_state)))
    by (rewrite Hrun; reflexivity).
  split; [rewrite Hrun; subst st'; reflexivity|].
  split; [exact Hread|].
  subst st'. vm_compute in Hread. injection Hread as <-. reflexivity.
Defined.

Lemma unprivileged_runs_never_edit_rooms_witness :
  all_unprivileged village_state /\ plain_names village_state /\
  forallb plain_event village_day = true /\
  roomFiles (disk (fst (run sample_beyond sample_pbkdf2 sample_zones
                            village_day village_state)))
  = [(("zones/beginning"%string, 0), sample_room)] /\
  map fst (positions (fst (run sample_beyond sample_pbkdf2 sample_zones
                               (firstn 3 village_day) village_state)))
  = [0%nat].
Proof.
  assert (Hlow : all_unprivileged village_state).
  { split.
    - intros id p [].
    - intros name data n [[= <- <-] | [[= <- <-] | []]]; simpl;
        intros [= <-]; lia. }
  assert (Hnames : plain_names village_state).
  { split.
    - intros id p [].
    - intros name file [[= <- <-] | [[= <- <-] | []]]; reflexivity. }
  split; [exact Hlow|]. split; [exact Hnames|]. split; [reflexivity|].
  split.
  - exact (proj2 (unprivileged_runs_never_edit_rooms sample_beyond
                    sample_pbkdf2 sample_zones village_day village_state
                    Hlow Hnames eq_refl)).
  - reflexivity.
Defined.

Lemma clock_over_runs_witness :
  clock_consistent (gameTime sample_state) /\
  tick (gameTime (fst (run sample_beyond sample_pbkdf2 sample_zones
                           (repeat (EvTick no_random) 61) sample_state)))
  = 61 /\
  hour (gameTime (fst (run sample_beyond sample_pbkdf2 sample_zones
                           (repeat (EvTick no_random) 61) sample_state)))
  = 1.
Proof.
  assert (Hc : clock_consistent (gameTime sample_state))
    by (split; [simpl; lia | reflexivity]).
  split; [exact Hc|].
  destruct (clock_over_runs sample_beyond sample_pbkdf2 sample_zones
              (repeat (EvTick no_random) 61) sample_state Hc)
    as (Ht & (_ & Hh) & _).
  split; [exact Ht|]. rewrite Hh, Ht. reflexivity.
Defined.

Lemma pickRandomTile_draws_a_tile_witness :
  pickRandomTile (3 # 4) sample_room = Some (1, 1) /\
  exists r : Q, (0 <= r)%Q /\ (r < 1)%Q /\
                pickRandomTile r sample_room = Some (0, 1).
Proof.
  split; [reflexivity|].
  apply (proj2 (pickRandomTile_draws_a_tile sample_room
                  (ex_intro _ 0 (ex_intro _ 0 (ex_intro _ grass
                     (conj (Z.le_refl 0) (conj (Z.le_refl 0) eq_refl))))))
               0 1 grass); [lia | lia | reflexivity].
Defined.

Lemma roam_walks_a_shortest_route_witness :
  exists target path,
    pickRandomTile (sample_random 1) sample_room = Some target /\
    walk open2x2 2 2 (0, 0) path target /\
    target = (1, 1) /\ path = [(0, 0); (1, 0); (1, 1)] /\
    snd (fst (fst (roam_npc sample_zones sample_random 0 0 sample_npc
                            npc_state)))
    = [Send 0%nat (MNpcStartPath "N1" path 160)].
Proof.
  destruct (roam_walks_a_shortest_route sample_zones sample_random 0 0
              sample_npc npc_state sample_roam (mkZone "zones/beginning")
              sample_room eq_refl eq_refl eq_refl eq_refl eq_refl eq_refl
              open2x2_rectangular ltac:(discriminate) ltac:(discriminate)
              eq_refl)
    as (target & t & Hpick & _ & [(path & [Hwalk _] & _ & Hrun) | [Hrun _]]);
    cbv zeta in Hrun; [|vm_compute in Hrun; discriminate Hrun].
  exists target, path. split; [exact Hpick|]. split; [exact Hwalk|].
  vm_compute in Hpick. injection Hpick as <-.
  split; [reflexivity|].
  assert (Hout : [Send 0%nat (MNpcStartPath "N1" [(0, 0); (1, 0); (1, 1)] 160)]
                 = [Send 0%nat (MNpcStartPath "N1" path 160)]).
  { apply (f_equal (fun r => snd (fst (fst r)))) in Hrun.
    vm_compute in Hrun. exact Hrun. }
  injection Hout as <-. split; reflexivity.
Defined.

Lemma walk_timer_lands_npc_witness :
  exists st2,
    on_timer "N1"
      (startNpcMovementTimer "N1" 0 (1, 1) 320
         (startNpcMovementTimer "N1" 0 (0, 1) 160 npc_state))
    = (st2, [Send 0%nat (MNpcMove (move_to (1, 1) sample_npc))], false) /\
    map (fun n => (Npc.x n, Npc.y n)) (npcInstances st2) = [(1, 1)] /\
    npcTimers st2 = [].
Proof.
  destruct (walk_timer_lands_npc "N1" 0 (1, 1) 320
              (startNpcMovementTimer "N1" 0 (0, 1) 160 npc_state)
              sample_npc eq_refl eq_refl)
    as (st2 & Hrun & _).
  exists st2. split; [rewrite Hrun; reflexivity|].
  assert (Hst : st2 = fst (fst (on_timer "N1"
                  (startNpcMovementTimer "N1" 0 (1, 1) 320
                     (startNpcMovementTimer "N1" 0 (0, 1) 160 npc_state)))))
    by (rewrite Hrun; reflexivity).
  subst st2. split; reflexivity.
Defined.

Lemma ensure_spawns_reconciles_witness :
  ensure_spawns sample_ids 0 [bone_def; ball_def; ball_def] [sample_obj]
  = [sample_obj; spawned "id0" ball_def] /\
  ensure_spawns sample_ids 0 [bone_def; ball_def; ball_def]
                [sample_obj; spawned "id0" ball_def]
  = [sample_obj; spawned "id0" ball_def].
Proof.
  split; [reflexivity|].
  exact (proj2 (proj2 (ensure_spawns_reconciles sample_ids 0
                         [bone_def; ball_def; ball_def] [sample_obj] eq_refl))
               sample_ids 0%nat).
Defined.

Lemma tick_respawns_what_is_due_witness :
  let held :=
    set_gameTime (mkTime 6 0 0)
      (set_objectInstances [pick "Ava" 2 sample_obj] sample_state) in
  map Obj.pickedUpBy (objectInstances (fst (fst (on_tick sample_zones
                                                   no_random held))))
  = [None] /\
  filter is_object_spawned (snd (fst (on_tick sample_zones no_random held)))
  = [Send 0%nat (MObjectSpawned sample_obj)].
Proof.
  cbv zeta.
  destruct (tick_respawns_what_is_due sample_zones no_random
              (set_gameTime (mkTime 6 0 0)
                 (set_objectInstances [pick "Ava" 2 sample_obj] sample_state))
              eq_refl)
    as (Hobjs & Hout & _).
  cbv zeta in Hobjs, Hout. rewrite Hobjs, Hout. split; reflexivity.
Defined.

Lemma reading_messages_change_nothing_witness :
  on_message sample_beyond sample_zones 0 "Ava" (Some (VObj request_msg))
             sample_state
  = (sample_state,
     [Send 0%nat (MInitObjects [sample_obj]); Send 0%nat (MInitNpcs [])]).
Proof.
  destruct (reading_messages_change_nothing sample_beyond sample_zones 0
              "Ava" request_msg sample_state (or_introl eq_refl))
    as (Hst & _).
  rewrite (surjective_pairing (on_message sample_beyond _ _ _ _ _)), Hst.
  reflexivity.
Defined.

Lemma reconnect_restores_character_witness :
  let moved :=
    fst (on_message sample_beyond sample_zones 0 "Ava"
                    (Some (VObj update_msg))
                    (set_positions
                       [(0%nat,
                         Player.mk "Ava" (VNum 400) (VNum 300) (VNum 0) 10
                                   "red" [] (VStr "s")
                                   (VStr (sample_pbkdf2 "pw" "s")) "0")]
                       sample_state)) in
  exists pos,
    map_get Nat.eqb 1%nat
      (positions
         (fst (on_first_message sample_pbkdf2 "r"
                 (FirstAuth "Ava" "pw" (VBool false))
                 (fst (on_close 0 moved)))))
    = Some pos /\
    Player.x pos = VNum 12 /\ Player.y pos = VNum 34 /\
    Player.roomId pos = VNum 5 /\ Player.privilege pos = 10.
Proof.
  cbv zeta.
  destruct (reconnect_restores_character sample_pbkdf2 "r" "pw" "s" 0
              (fst (on_message sample_beyond sample_zones 0 "Ava"
                      (Some (VObj update_msg))
                      (set_positions
                         [(0%nat,
                           Player.mk "Ava" (VNum 400) (VNum 300) (VNum 0) 10
                                     "red" [] (VStr "s")
                                     (VStr (sample_pbkdf2 "pw" "s")) "0")]
                         sample_state)))
              (Player.mk "Ava" (VNum 12) (VNum 34) (VNum 5) 10 "red" []
                         (VStr "s") (VStr (sample_pbkdf2 "pw" "s")) "0")
              ltac:(discriminate) eq_refl ltac:(discriminate)
              eq_refl eq_refl eq_refl eq_refl eq_refl eq_refl)
    as (_ & pos & Hpos & _ & Hpriv & _ & _ & _ & Hx & Hy & Hr).
  exists pos. split; [exact Hpos|]. auto.
Defined.


Lemma treat_option_is_never_visible_witness :
  no_treat kennel_state /\
  map Obj.pickedUpBy
      (objectInstances (fst (run sample_beyond sample_pbkdf2 sample_zones
                                 kennel_visit kennel_state)))
  = [Some "Bob"%string] /\
  In (Send 0%nat
        (MContextMenu (VStr "F1") (VStr "npc")
           [mkOption "pet fido" "pet-fido" None;
            mkOption "praise fido" "give-treat" (Some false)]))
     (snd (run sample_beyond sample_pbkdf2 sample_zones kennel_visit
               kennel_state)) /\
  forallb menu_hidden
          (snd (run sample_beyond sample_pbkdf2 sample_zones kennel_visit
                    kennel_state))
  = true.
Proof.
  assert (Hnone : no_treat kennel_state).
  { split.
    - intros id p [].
    - intros name data inventory [[= <- <-] | [[= <- <-] | []]]; simpl;
        intros [= <-]; reflexivity. }
  split; [exact Hnone|]. split; [reflexivity|].
  split; [vm_compute; tauto|].
  apply forallb_forall.
  exact (proj2 (treat_option_is_never_visible sample_beyond sample_pbkdf2
                  sample_zones kennel_visit kennel_state Hnone)).
Defined.

Lemma findPath_route_is_simple_witness :
  findPath (0, 0) (2, 0) walled_room
  = Returns (Some [(0, 0); (0, 1); (1, 1); (2, 1); (2, 0)]) /\
  NoDup [(0, 0); (0, 1); (1, 1); (2, 1); (2, 0)].
Proof.
  split; [reflexivity|].
  refine (proj1 (proj2 (proj2 (findPath_route_is_simple walled_room (0, 0)
                                 (2, 0) _ _ eq_refl)))).
  split; [discriminate|].
  intros row [<- | [<- | []]]; reflexivity.
Defined.

Lemma authenticated_connections_have_positions_witness :
  registered village_state /\
  exists p,
    map_get Nat.eqb 0%nat
      (positions (fst (run sample_beyond sample_pbkdf2 sample_zones
                           (firstn 3 village_day) village_state)))
    = Some p /\ Player.name p = "Bob"%string.
Proof.
  assert (Hreg : registered village_state).
  { split; [intros id name [] | intros id p Hget; discriminate Hget]. }
  split; [exact Hreg|].
  exact (proj2 (authenticated_connections_have_positions sample_beyond
                  sample_pbkdf2 sample_zones (firstn 3 village_day)
                  village_state Hreg)
               0%nat "Bob"%string eq_refl).
Defined.
